(** * midterm: the screen-state engine of an in-memory terminal emulator

    A shallow embedding of [terminal.go] and of the [Screen] source file
    (declaration of [Screen], [newScreen], [reset], [resize], [clear]),
    followed by the properties of the engine that the specification states.

    Conventions of the embedding
    - Go's [int] is a 64-bit two's-complement integer: it is a [Z] and every
      addition and subtraction of the source goes through [Int.add] and
      [Int.sub], which wrap around.
    - A slice is a [list]; its capacity is taken equal to its length.  An
      index or slice expression out of range is a run-time panic, modelled
      by [None] in the [option] error monad.
    - [rune] is a code point, a [Z].
    - A method with a pointer receiver becomes a function from the state
      of its receiver to the state it leaves, or to a panic.
    - Methods that [terminal.go] calls and that no file at hand declares
      are parameters of the methods that call them. *)

From stdpp Require Import base list.
From Stdlib Require Import ZArith Lia Bool.
From Stdlib Require String Ascii.

Local Open Scope Z_scope.

(** ** Machine integers *)

Module Int.

Definition min_int : Z := - 2 ^ 63.
Definition max_int : Z := 2 ^ 63 - 1.

(** Two's-complement wrap-around of a mathematical integer into [int]. *)
Definition wrap (z : Z) : Z := (z + 2 ^ 63) mod 2 ^ 64 - 2 ^ 63.

Definition add (x y : Z) : Z := wrap (x + y).
Definition sub (x y : Z) : Z := wrap (x - y).

Definition in_range (z : Z) : Prop := min_int <= z <= max_int.

End Int.

(** ** The panic monad and slices *)

Declare Scope panic_scope.
Delimit Scope panic_scope with panic.

Definition bindP {A B : Type} (m : option A) (k : A -> option B) : option B :=
  match m with
  | Some a => k a
  | None => None
  end.

Notation "'let?' x ':=' m 'in' k" := (bindP m (fun x => k))
  (at level 10, x name, m at level 100, k at level 200) : panic_scope.

Local Open Scope panic_scope.

Definition rune : Type := Z.

Definition space : rune := 32.

(** [len(arr)] *)
Definition len {A : Type} (arr : list A) : Z := Z.of_nat (length arr).

(** [arr[i]] read: panics unless [0 <= i < len(arr)]. *)
Definition index {A : Type} (arr : list A) (i : Z) : option A :=
  if i <? 0 then None else arr !! Z.to_nat i.

(** [arr[i] = x]: panics unless [0 <= i < len(arr)]. *)
Definition store {A : Type} (arr : list A) (i : Z) (x : A) : option (list A) :=
  if (0 <=? i) && (i <? len arr) then Some (<[Z.to_nat i := x]> arr) else None.

(** [arr[y][x] = v] *)
Definition store2 {A : Type} (arr : list (list A)) (y x : Z) (v : A)
  : option (list (list A)) :=
  let? row := index arr y in
  let? row' := store row x v in
  store arr y row'.

(** [make([]T, n)] followed by a loop setting every cell to [empty];
    [make] panics on a negative length. *)
Definition blank {A : Type} (n : Z) (empty : A) : option (list A) :=
  if n <? 0 then None else Some (replicate (Z.to_nat n) empty).

(** [arr[:h]]: panics unless [0 <= h <= cap(arr)]. *)
Definition slice_to {A : Type} (arr : list A) (h : Z) : option (list A) :=
  if (0 <=? h) && (h <=? len arr) then Some (take (Z.to_nat h) arr) else None.

(** [copy(arr[a:b], arr[c:])]: both slice expressions are bounds-checked,
    then [min (b - a) (len(arr) - c)] elements move, with [memmove]
    semantics (the source is read as it was before the call). *)
Definition copy_within {A : Type} (arr : list A) (a b c : Z) : option (list A) :=
  if (0 <=? a) && (a <=? b) && (b <=? len arr) && (0 <=? c) && (c <=? len arr)
  then
    let n := Z.to_nat (Z.min (b - a) (len arr - c)) in
    Some (take (Z.to_nat a) arr
            ++ take n (drop (Z.to_nat c) arr)
            ++ drop (Z.to_nat a + n) arr)
  else None.

(** ** Counted loops

    [for i := lo; i < hi; i++ { body }] and
    [for i := hi; i >= lo; i-- { body }], with a body that may panic. *)

Fixpoint loop_up {S : Type} (n : nat) (i : Z) (body : Z -> S -> option S) (s : S)
  : option S :=
  match n with
  | O => Some s
  | Datatypes.S n' => let? s' := body i s in loop_up n' (i + 1) body s'
  end.

Definition for_lt {S : Type} (lo hi : Z) (body : Z -> S -> option S) (s : S)
  : option S :=
  loop_up (Z.to_nat (hi - lo)) lo body s.

Definition for_le {S : Type} (lo hi : Z) (body : Z -> S -> option S) (s : S)
  : option S :=
  loop_up (Z.to_nat (hi - lo + 1)) lo body s.

Fixpoint loop_down {S : Type} (n : nat) (i : Z) (body : Z -> S -> option S) (s : S)
  : option S :=
  match n with
  | O => Some s
  | Datatypes.S n' => let? s' := body i s in loop_down n' (i - 1) body s'
  end.

Definition for_ge {S : Type} (hi lo : Z) (body : Z -> S -> option S) (s : S)
  : option S :=
  loop_down (Z.to_nat (hi - lo + 1)) hi body s.

(** ** The generic line and character editors of [terminal.go] *)

Section Editors.

Context {T : Type}.

(** The guard shared by the four scrolling functions. *)
Definition scroll_invalid {A : Type} (arr : list A) (positions start end_ : Z)
  : bool :=
  (start <? 0) || (end_ >? len arr) || (start >=? end_) || (positions <=? 0).

Definition scrollUp (arr : list (list T)) (positions start end_ : Z) (empty : T)
  : option (list (list T)) :=
  if scroll_invalid arr positions start end_ then Some arr
  else
    let? arr1 :=
      for_lt start (Int.sub (Int.add end_ 1) positions)
        (fun i arr =>
           let? src := index arr (Int.add i positions) in
           store arr i src) arr in
    for_le (Int.add (Int.sub end_ positions) 1) end_
      (fun i arr =>
         let? row := index arr i in
         store arr i (replicate (length row) empty)) arr1.

Definition scrollUpShallow (arr : list T) (positions start end_ : Z) (init : T)
  : option (list T) :=
  if scroll_invalid arr positions start end_ then Some arr
  else
    let? arr1 :=
      for_lt start (Int.sub (Int.add end_ 1) positions)
        (fun i arr =>
           let? src := index arr (Int.add i positions) in
           store arr i src) arr in
    for_le (Int.add (Int.sub end_ positions) 1) end_
      (fun i arr => store arr i init) arr1.

Definition scrollDown (arr : list (list T)) (positions start end_ : Z) (empty : T)
  : option (list (list T)) :=
  if scroll_invalid arr positions start end_ then Some arr
  else
    let? arr1 :=
      for_ge end_ (Int.add start positions)
        (fun i arr =>
           let? src := index arr (Int.sub i positions) in
           store arr i src) arr in
    for_lt start (Int.add start positions)
      (fun i arr =>
         let? row := index arr i in
         store arr i (replicate (length row) empty)) arr1.

Definition scrollDownShallow (arr : list T) (positions start end_ : Z) (init : T)
  : option (list T) :=
  if scroll_invalid arr positions start end_ then Some arr
  else
    let? arr1 :=
      for_ge end_ (Int.add start positions)
        (fun i arr =>
           let? src := index arr (Int.sub i positions) in
           store arr i src) arr in
    for_lt start (Int.add start positions)
      (fun i arr => store arr i init) arr1.

(** The guard shared by the four line editors. *)
Definition lines_invalid {A : Type} (arr : list A) (start ps : Z) : bool :=
  (start <? 0) || (Int.add start ps >? len arr) || (ps <=? 0).

Definition insertLines (arr : list (list T)) (start ps scrollStart scrollEnd : Z)
    (empty : T) : option (list (list T)) :=
  if lines_invalid arr start ps then Some arr
  else
    let? arr1 :=
      for_ge scrollEnd (Int.add start ps)
        (fun i arr =>
           let? src := index arr (Int.sub i ps) in
           store arr i src) arr in
    for_lt start (Int.add start ps)
      (fun i arr =>
         let? row := index arr i in
         store arr i (replicate (length row) empty)) arr1.

Definition insertLinesShallow (arr : list T) (start ps scrollStart scrollEnd : Z)
    (init : T) : option (list T) :=
  if lines_invalid arr start ps then Some arr
  else
    let? arr1 :=
      for_ge scrollEnd (Int.add start ps)
        (fun i arr =>
           let? src := index arr (Int.sub i ps) in
           store arr i src) arr in
    for_lt start (Int.add start ps)
      (fun i arr => store arr i init) arr1.

Definition deleteLines (arr : list (list T)) (start ps scrollStart scrollEnd : Z)
    (empty : T) : option (list (list T)) :=
  if lines_invalid arr start ps then Some arr
  else
    let? arr1 := copy_within arr start scrollEnd (Int.add start ps) in
    let fillStart := Int.sub scrollEnd ps in
    for_lt (Int.add fillStart 1) (Int.add scrollEnd 1)
      (fun i arr =>
         let? first := index arr start in
         store arr i (replicate (length first) empty)) arr1.

Definition deleteLinesShallow (arr : list T) (start ps scrollStart scrollEnd : Z)
    (init : T) : option (list T) :=
  if lines_invalid arr start ps then Some arr
  else
    let? arr1 := copy_within arr start scrollEnd (Int.add start ps) in
    let fillStart := Int.sub scrollEnd ps in
    for_lt (Int.add fillStart 1) (Int.add scrollEnd 1)
      (fun i arr => store arr i init) arr1.

Definition eraseCharacters (arr : list (list T)) (row col ps : Z) (empty : T)
  : option (list (list T)) :=
  if (row <? 0) || (row >=? len arr) then Some arr
  else
    let? r := index arr row in
    if (col <? 0) || (Int.add col ps >? len r) then Some arr
    else
      let ps := if ps <=? 0 then 1 else ps in
      for_lt col (Int.add col ps) (fun i arr => store2 arr row i empty) arr.

Definition deleteCharacters (arr : list (list T)) (row col ps : Z) (empty : T)
  : option (list (list T)) :=
  if (row <? 0) || (row >=? len arr) then Some arr
  else
    let? r := index arr row in
    if (col <? 0) || (col >=? len r) || (ps <? 0) then Some arr
    else
      let actualPs := ps in
      let actualPs := if actualPs =? 0 then 1 else actualPs in
      let actualPs :=
        if Int.add col actualPs >? len r then Int.sub (len r) col else actualPs in
      let? r1 := copy_within r col (len r) (Int.add col actualPs) in
      let? arr1 := store arr row r1 in
      for_lt (Int.sub (len r) ps) (len r)
        (fun i arr => store2 arr row i empty) arr1.

Definition insertEmpties (arr : list (list T)) (row col ps : Z) (empty : T)
  : option (list (list T)) :=
  if (row <? 0) || (row >=? len arr) then Some arr
  else
    let? r := index arr row in
    if (col <? 0) || (col >? len r) || (ps <=? 0) then Some arr
    else
      let empties := replicate (Z.to_nat ps) empty in
      let inserted :=
        take (Z.to_nat col) r ++ empties ++ drop (Z.to_nat col) r in
      store arr row (take (length r) inserted).

End Editors.

(** Text of a scenario as a row of runes. *)
Fixpoint runes (s : String.string) : list rune :=
  match s with
  | String.EmptyString => []
  | String.String a s' => Z.of_N (Ascii.N_of_ascii a) :: runes s'
  end.

(** ** Data model *)

(** Modelled from the spec: the declarations of [Format] and of its colour
    type are not among the files at hand.  Section 3 of the specification
    gives a format a foreground and a background colour, each a tagged
    variant, and seven flags; the zero value is the default format. *)
Module Color.

Inductive t : Type :=
| Default
| Ansi16 (i : Z)
| Ansi256 (i : Z)
| RGB (r g b : Z).

End Color.

Module Format.

Record t : Type := mk {
  Fg : Color.t;
  Bg : Color.t;
  Bold : bool;
  Italic : bool;
  Underline : bool;
  Blink : bool;
  Inverse : bool;
  Conceal : bool;
  Strikethrough : bool
}.

(** [Format{}] *)
Definition zero : t :=
  mk Color.Default Color.Default false false false false false false false.

End Format.

(** [ansicode.CursorStyle] is an integer enumeration of an imported package. *)
Definition CursorStyle : Type := Z.

Module Cursor.

Record t : Type := mk {
  Y : Z;
  X : Z;
  F : Format.t;
  S : CursorStyle
}.

Definition zero : t := mk 0 0 Format.zero 0.

Definition with_Y (y : Z) (c : t) : t := mk y (X c) (F c) (S c).
Definition with_X (x : Z) (c : t) : t := mk (Y c) x (F c) (S c).

End Cursor.

Module ScrollRegion.

Record t : Type := mk {
  Start : Z;
  End_ : Z
}.

End ScrollRegion.

(** The run of cells that [terminal.go] builds as
    [&Region{Size: v.Width, F: v.Cursor.F}]: the only two fields of [Region]
    that the files at hand use.  A [*Region] stored in a row table is owned
    by that table alone once a scroll or line edit returns, so the pointer is
    modelled by the value it points to. *)
Module Region.

Record t : Type := mk {
  Size : Z;
  F : Format.t
}.

End Region.

(** ** Screen

    The declaration at hand gives [Screen] the fields [Height], [Width],
    [Content], [Format] and [Cursor]; [terminal.go] reads and writes five more
    through the embedded pointer ([SavedCursor], [Changes], [MaxY], [MaxX],
    [ScrollRegion]) and addresses the format store row by row, as
    [Format.Rows].  The two files disagree on what a format row is
    ([[]Format] against [*Region]), so the record is parametric in the row
    representation [R]: the [Screen] methods are stated at
    [R := list Format.t], the scrolling and line editing of [terminal.go] at
    [R := Region.t], and what touches no row is polymorphic. *)
Module Screen.

Record t (R : Type) : Type := mk {
  Height : Z;
  Width : Z;
  Content : list (list rune);
  Format : list R;
  Cursor : Cursor.t;
  SavedCursor : Cursor.t;
  Changes : list Z;
  MaxY : Z;
  MaxX : Z;
  ScrollRegion : option ScrollRegion.t
}.

Arguments mk {R}.
Arguments Height {R}.
Arguments Width {R}.
Arguments Content {R}.
Arguments Format {R}.
Arguments Cursor {R}.
Arguments SavedCursor {R}.
Arguments Changes {R}.
Arguments MaxY {R}.
Arguments MaxX {R}.
Arguments ScrollRegion {R}.

Section Setters.

Context {R : Type}.

Definition with_Content (c : list (list rune)) (s : t R) : t R :=
  mk (Height s) (Width s) c (Format s) (Cursor s) (SavedCursor s)
     (Changes s) (MaxY s) (MaxX s) (ScrollRegion s).

Definition with_Format (f : list R) (s : t R) : t R :=
  mk (Height s) (Width s) (Content s) f (Cursor s) (SavedCursor s)
     (Changes s) (MaxY s) (MaxX s) (ScrollRegion s).

Definition with_Cursor (c : Cursor.t) (s : t R) : t R :=
  mk (Height s) (Width s) (Content s) (Format s) c (SavedCursor s)
     (Changes s) (MaxY s) (MaxX s) (ScrollRegion s).

Definition with_SavedCursor (c : Cursor.t) (s : t R) : t R :=
  mk (Height s) (Width s) (Content s) (Format s) (Cursor s) c
     (Changes s) (MaxY s) (MaxX s) (ScrollRegion s).

Definition with_Changes (c : list Z) (s : t R) : t R :=
  mk (Height s) (Width s) (Content s) (Format s) (Cursor s) (SavedCursor s)
     c (MaxY s) (MaxX s) (ScrollRegion s).

Definition with_MaxY (y : Z) (s : t R) : t R :=
  mk (Height s) (Width s) (Content s) (Format s) (Cursor s) (SavedCursor s)
     (Changes s) y (MaxX s) (ScrollRegion s).

Definition with_MaxX (x : Z) (s : t R) : t R :=
  mk (Height s) (Width s) (Content s) (Format s) (Cursor s) (SavedCursor s)
     (Changes s) (MaxY s) x (ScrollRegion s).

Definition with_ScrollRegion (r : option ScrollRegion.t) (s : t R) : t R :=
  mk (Height s) (Width s) (Content s) (Format s) (Cursor s) (SavedCursor s)
     (Changes s) (MaxY s) (MaxX s) r.

End Setters.

(** The grid of the [Screen] source file: one [Format] per cell. *)
Definition grid : Type := t (list Format.t).

(** [func (v *Screen) clear(y, x int, format Format)] *)
Definition clear (y x : Z) (format : Format.t) (v : grid) : option grid :=
  if y >=? len (Content v) then Some v
  else
    let? row0 := index (Content v) 0 in
    if x >=? len row0 then Some v
    else
      let? content := store2 (Content v) y x space in
      let v := with_Content content v in
      let? fmt := store2 (Format v) y x format in
      Some (with_Format fmt v).

(** [func (s *Screen) reset()] *)
Definition reset (s : grid) : option grid :=
  let? content := blank (Height s) [] in
  let s := with_Content content s in
  let? fmt := blank (Height s) [] in
  let s := with_Format fmt s in
  let? s :=
    for_lt 0 (Height s)
      (fun row s =>
         let? crow := blank (Width s) 0 in
         let? content := store (Content s) row crow in
         let s := with_Content content s in
         let? frow := blank (Width s) Format.zero in
         let? fmt := store (Format s) row frow in
         let s := with_Format fmt s in
         for_lt 0 (Width s)
           (fun col s =>
              let? content := store2 (Content s) row col space in
              Some (with_Content content s)) s) s in
  let s := with_Cursor (Cursor.with_X 0 (Cursor s)) s in
  Some (with_Cursor (Cursor.with_Y 0 (Cursor s)) s).

(** [func newScreen(h, w int) *Screen]: every field but the two dimensions
    starts at its zero value. *)
Definition newScreen (h w : Z) : option grid :=
  reset (mk h w [] [] Cursor.zero Cursor.zero [] 0 0 None).

(** [copy(make([]T, w), old)]: a fresh row of [w] zero cells whose prefix
    is [old], cut at [w]. *)
Definition widen {A : Type} (w : Z) (zero : A) (old : list A) : option (list A) :=
  let? row := blank w zero in
  Some (take (Z.to_nat w) old ++ drop (length old) row).

(** The first conditional of [resize], on the number of rows. *)
Definition resizeRows (h : Z) (v : grid) : option grid :=
  if h >? Height v then
    let n := Int.sub h (Height v) in
    for_lt 0 n
      (fun row v =>
         let? crow := blank (Width v) 0 in
         let v := with_Content (Content v ++ [crow]) v in
         let? frow := blank (Width v) Format.zero in
         let v := with_Format (Format v ++ [frow]) v in
         for_lt 0 (Width v)
           (fun col v => clear (Int.add (Height v) row) col Format.zero v) v) v
  else if h <? Height v then
    let? content := slice_to (Content v) h in
    let v := with_Content content v in
    let? fmt := slice_to (Format v) h in
    Some (with_Format fmt v)
  else Some v.

(** The second conditional of [resize], on the number of columns.  The two
    [range] loops run over the rows present when they start. *)
Definition resizeColumns (w : Z) (v : grid) : option grid :=
  if w >? Width v then
    for_lt 0 (len (Content v))
      (fun i v =>
         let? old := index (Content v) i in
         let? row := widen w 0 old in
         let? content := store (Content v) i row in
         let v := with_Content content v in
         let? oldf := index (Format v) i in
         let? format := widen w Format.zero oldf in
         let? fmt := store (Format v) i format in
         let v := with_Format fmt v in
         for_lt (Width v) w (fun j v => clear i j Format.zero v) v) v
  else if w <? Width v then
    for_lt 0 (len (Content v))
      (fun i v =>
         let? old := index (Content v) i in
         let? row := slice_to old w in
         let? content := store (Content v) i row in
         let v := with_Content content v in
         let? oldf := index (Format v) i in
         let? format := slice_to oldf w in
         let? fmt := store (Format v) i format in
         Some (with_Format fmt v)) v
  else Some v.

(** [func (v *Screen) resize(h, w int)]: the two conditionals in turn.
    No statement of the function assigns [Height], [Width] or the
    cursor. *)
Definition resize (h w : Z) (v : grid) : option grid :=
  let? v := resizeRows h v in
  resizeColumns w v.

(** The grid agrees with the two dimension fields: [Height] rows of
    [Width] cells, for the runes and for the formats. *)
Definition regular (s : grid) : bool :=
  (0 <=? Width s)
  && (len (Content s) =? Height s)
  && (len (Format s) =? Height s)
  && forallb (fun row => len row =? Width s) (Content s)
  && forallb (fun row => len row =? Width s) (Format s).

(** The grid has [h] rows of [w] cells, for the runes and for the
    formats. *)
Definition sized (h w : Z) (s : grid) : Prop :=
  len (Content s) = h
  /\ len (Format s) = h
  /\ Forall (fun row => len row = w) (Content s)
  /\ Forall (fun row => len row = w) (Format s).

(** The row lengths of the two grids. *)
Definition shape (s : grid) : list nat * list nat :=
  (length <$> Content s, length <$> Format s).

(** What [clear] and [resize] never write. *)
Definition frame (s : grid)
  : Z * Z * Cursor.t * Cursor.t * list Z * Z * Z * option ScrollRegion.t :=
  (Height s, Width s, Cursor s, SavedCursor s, Changes s, MaxY s, MaxX s,
   ScrollRegion s).

(** A list cut to its first [n] entries, or padded with [pad] up to [n]
    entries. *)
Definition fit {A : Type} (n : Z) (pad : A) (l : list A) : list A :=
  take (Z.to_nat n) l ++ replicate (Z.to_nat n - length l) pad.

(** A row with its cells [x1 .. x2] overwritten by [pad]. *)
Definition wiped {A : Type} (x1 x2 : Z) (pad : A) (row : list A) : list A :=
  take (Z.to_nat x1) row
    ++ replicate (Z.to_nat (x2 + 1 - x1)) pad
    ++ drop (Z.to_nat x1 + Z.to_nat (x2 + 1 - x1)) row.

End Screen.

(** A scrolled-out line, as the scrollback hook would receive it. *)
Module Line.

Record t (R : Type) : Type := mk {
  Content : list rune;
  Format : R
}.

Arguments mk {R}.
Arguments Content {R}.
Arguments Format {R}.

End Line.

(** ** Terminal

    [Terminal] embeds a [*Screen]: every [v.Height], [v.Cursor], ... of
    [terminal.go] goes through that pointer, which [swapAlt] can leave nil.
    [Screen] and [Alt] are therefore optional, and dereferencing an absent
    screen panics.  The decoder, the two writers, the resize hook and the
    mutex play no part in the methods below and are left out.

    The scrollback hook is an effect on the outside world: [onScrollback]
    records whether a hook is registered, and [scrollback] is the sequence of
    lines the hook has been called with, oldest first. *)
Module Terminal.

Record t (R : Type) : Type := mk {
  Screen : option (Screen.t R);
  Title : String.string;
  Alt : option (Screen.t R);
  IsAlt : bool;
  AutoResizeY : bool;
  AutoResizeX : bool;
  Raw : bool;
  AppendOnly : bool;
  wrap : bool;
  onScrollback : bool;
  scrollback : list (Line.t R)
}.

Arguments mk {R}.
Arguments Screen {R}.
Arguments Title {R}.
Arguments Alt {R}.
Arguments IsAlt {R}.
Arguments AutoResizeY {R}.
Arguments AutoResizeX {R}.
Arguments Raw {R}.
Arguments AppendOnly {R}.
Arguments wrap {R}.
Arguments onScrollback {R}.
Arguments scrollback {R}.

Section Polymorphic.

Context {R : Type}.

Definition with_Screen (s : option (Screen.t R)) (v : t R) : t R :=
  mk s (Title v) (Alt v) (IsAlt v) (AutoResizeY v) (AutoResizeX v) (Raw v)
     (AppendOnly v) (wrap v) (onScrollback v) (scrollback v).

Definition with_Alt (s : option (Screen.t R)) (v : t R) : t R :=
  mk (Screen v) (Title v) s (IsAlt v) (AutoResizeY v) (AutoResizeX v) (Raw v)
     (AppendOnly v) (wrap v) (onScrollback v) (scrollback v).

Definition with_IsAlt (b : bool) (v : t R) : t R :=
  mk (Screen v) (Title v) (Alt v) b (AutoResizeY v) (AutoResizeX v) (Raw v)
     (AppendOnly v) (wrap v) (onScrollback v) (scrollback v).

Definition with_AutoResizeY (b : bool) (v : t R) : t R :=
  mk (Screen v) (Title v) (Alt v) (IsAlt v) b (AutoResizeX v) (Raw v)
     (AppendOnly v) (wrap v) (onScrollback v) (scrollback v).

Definition with_AutoResizeX (b : bool) (v : t R) : t R :=
  mk (Screen v) (Title v) (Alt v) (IsAlt v) (AutoResizeY v) b (Raw v)
     (AppendOnly v) (wrap v) (onScrollback v) (scrollback v).

Definition with_wrap (b : bool) (v : t R) : t R :=
  mk (Screen v) (Title v) (Alt v) (IsAlt v) (AutoResizeY v) (AutoResizeX v)
     (Raw v) (AppendOnly v) b (onScrollback v) (scrollback v).

Definition with_onScrollback (b : bool) (v : t R) : t R :=
  mk (Screen v) (Title v) (Alt v) (IsAlt v) (AutoResizeY v) (AutoResizeX v)
     (Raw v) (AppendOnly v) (wrap v) b (scrollback v).

Definition with_scrollback (l : list (Line.t R)) (v : t R) : t R :=
  mk (Screen v) (Title v) (Alt v) (IsAlt v) (AutoResizeY v) (AutoResizeX v)
     (Raw v) (AppendOnly v) (wrap v) (onScrollback v) l.

(** Dereference of the embedded [*Screen]. *)
Definition screen (v : t R) : option (Screen.t R) := Screen v.

(** An assignment through the embedded pointer: [v.field = ...]. *)
Definition update (f : Screen.t R -> Screen.t R) (v : t R) : option (t R) :=
  let? s := screen v in
  Some (with_Screen (Some (f s)) v).

(** [func (v *Terminal) OnScrollback(f OnScrollbackFunc)] *)
Definition OnScrollback (v : t R) : t R := with_onScrollback true v.

(** [func (v *Terminal) swapAlt()] *)
Definition swapAlt (v : t R) : t R :=
  let v := with_IsAlt (negb (IsAlt v)) v in
  with_Alt (Screen v) (with_Screen (Alt v) v).

(** [func (v *Terminal) scrollRegion() (int, int)] *)
Definition scrollRegion (v : t R) : option (Z * Z) :=
  let? s := screen v in
  match Screen.ScrollRegion s with
  | None => Some (0, Int.sub (Screen.Height s) 1)
  | Some r => Some (ScrollRegion.Start r, ScrollRegion.End_ r)
  end.

(** [func (v *Terminal) save()] *)
Definition save (v : t R) : option (t R) :=
  update (fun s => Screen.with_SavedCursor (Screen.Cursor s) s) v.

(** [func (v *Terminal) unsave()] *)
Definition unsave (v : t R) : option (t R) :=
  update (fun s => Screen.with_Cursor (Screen.SavedCursor s) s) v.

End Polymorphic.

(** *** Over the grid of the [Screen] source file *)

(** [func NewTerminal(rows, cols int) *Terminal]: [v.reset()] resolves to
    the [reset] of the embedded screen, the only one among the files at
    hand. *)
Definition NewTerminal (rows cols : Z) : option (t (list Format.t)) :=
  let? s := Screen.newScreen rows cols in
  let v := mk (Some s) String.EmptyString None false false false false false
              false false [] in
  let? s := screen v in
  let? s := Screen.reset s in
  Some (with_Screen (Some s) v).

(** [func (v *Terminal) resize(h, w int)] *)
Definition resize (h w : Z) (v : t (list Format.t)) : option (t (list Format.t)) :=
  let? s := screen v in
  let? s := Screen.resize h w s in
  let v := with_Screen (Some s) v in
  match Alt v with
  | Some a =>
      let? a := Screen.resize h w a in
      Some (with_Alt (Some a) v)
  | None => Some v
  end.

(** [func (v *Terminal) Resize(rows, cols int)], up to the call of the
    resize hook. *)
Definition Resize (rows cols : Z) (v : t (list Format.t))
  : option (t (list Format.t)) :=
  let? v := resize rows cols v in
  let v := with_AutoResizeX false v in
  Some (with_AutoResizeY false v).

(** [func (v *Terminal) eraseRegion(y1, x1, y2, x2 int)]; [clear] is the
    method of the embedded screen. *)
Definition eraseRegion (y1 x1 y2 x2 : Z) (v : t (list Format.t))
  : option (t (list Format.t)) :=
  let v := with_wrap false v in
  let ys := if (y1 >? y2) && (y2 >? 0) then (y2, y1) else (y1, y2) in
  let xs := if (x1 >? x2) && (x2 >? 0) then (x2, x1) else (x1, x2) in
  let? s := screen v in
  let f := Cursor.F (Screen.Cursor s) in
  let? s :=
    for_le ys.1 ys.2
      (fun y s =>
         if len (Screen.Content s) <=? y then Some s
         else
           let? rowX2 :=
             if xs.2 <? 0 then
               let? row := index (Screen.Content s) y in
               Some (Int.sub (len row) 1)
             else Some xs.2 in
           for_le xs.1 rowX2 (fun x s => Screen.clear y x f s) s) s in
  Some (with_Screen (Some s) v).

(** *** Over run-length rows: scrolling, line editing, printing *)

Abbreviation term := (t Region.t).

(** The row that the [init] closures of [terminal.go] return. *)
Definition blankRegion (s : Screen.t Region.t) : Region.t :=
  Region.mk (Screen.Width s) (Cursor.F (Screen.Cursor s)).

(** [func (v *Terminal) scrollUpN(n int)].  The body of the loop over the
    evicted lines is a comment in the source: the loop runs and calls
    nothing. *)
Definition scrollUpN (n : Z) (v : term) : option term :=
  let? v :=
    if onScrollback v then for_lt 0 n (fun i v => Some v) v else Some v in
  let? r := scrollRegion v in
  let start := r.1 in
  let end_ := r.2 in
  let? s := screen v in
  let? content := scrollUp (Screen.Content s) n start end_ space in
  let s := Screen.with_Content content s in
  let? rows := scrollUpShallow (Screen.Format s) n start end_ (blankRegion s) in
  let s := Screen.with_Format rows s in
  let? changes := scrollUpShallow (Screen.Changes s) n start end_ 1 in
  let s := Screen.with_Changes changes s in
  Some (with_Screen (Some s) v).

(** [func (v *Terminal) scrollDownN(n int)] *)
Definition scrollDownN (n : Z) (v : term) : option term :=
  let v := with_wrap false v in
  let? r := scrollRegion v in
  let start := r.1 in
  let end_ := r.2 in
  let? s := screen v in
  let? content := scrollDown (Screen.Content s) n start end_ space in
  let s := Screen.with_Content content s in
  let? rows := scrollDownShallow (Screen.Format s) n start end_ (blankRegion s) in
  let s := Screen.with_Format rows s in
  let? changes := scrollDownShallow (Screen.Changes s) n start end_ 1 in
  let s := Screen.with_Changes changes s in
  Some (with_Screen (Some s) v).

(** [func (v *Terminal) scrollOne()] *)
Definition scrollOne (v : term) : option term :=
  let? v := scrollUpN 1 v in
  update (fun s =>
            Screen.with_Cursor
              (Cursor.with_Y (Int.sub (Screen.Height s) 1) (Screen.Cursor s)) s) v.

(** [func (v *Terminal) deleteLines(n int)] *)
Definition deleteLines (n : Z) (v : term) : option term :=
  let? r := scrollRegion v in
  let start := r.1 in
  let end_ := r.2 in
  let? s := screen v in
  let y := Cursor.Y (Screen.Cursor s) in
  if (y <? start) || (y >? end_) then Some v
  else
    let v := with_wrap false v in
    let? content := deleteLines (Screen.Content s) y n start end_ space in
    let s := Screen.with_Content content s in
    let? rows := deleteLinesShallow (Screen.Format s) y n start end_ (blankRegion s) in
    let s := Screen.with_Format rows s in
    let? changes := deleteLinesShallow (Screen.Changes s) y n start end_ 1 in
    let s := Screen.with_Changes changes s in
    Some (with_Screen (Some s) v).

(** The methods that [terminal.go] calls and that are declared in none of
    the files at hand.  Each is a parameter: a method on the terminal that
    may panic. *)
Section Absent.

(** [v.moveRel(dy, dx)] *)
Variable moveRel : Z -> Z -> term -> option term.

(** [v.paint(y, x, f, r)] *)
Variable paint : Z -> Z -> Format.t -> rune -> term -> option term.

(** [v.changed(y, b)] *)
Variable changed : Z -> bool -> term -> option term.

(** [v.ensureHeight(h)] *)
Variable ensureHeight : Z -> term -> option term.

(** [v.Format.Insert(y, x, f, n)] *)
Variable FormatInsert : Z -> Z -> Format.t -> Z -> term -> option term.

(** [v.Format.Delete(y, x, n)] *)
Variable FormatDelete : Z -> Z -> Z -> term -> option term.

(** [v.Format.Paint(y, x, f)] *)
Variable FormatPaint : Z -> Z -> Format.t -> term -> option term.

(** [func (v *Terminal) insertCharacters(n int)] *)
Definition insertCharacters (n : Z) (v : term) : option term :=
  let? s := screen v in
  let c := Screen.Cursor s in
  let? content := insertEmpties (Screen.Content s) (Cursor.Y c) (Cursor.X c) n space in
  let v := with_Screen (Some (Screen.with_Content content s)) v in
  let? s := screen v in
  let c := Screen.Cursor s in
  let? v := FormatInsert (Cursor.Y c) (Cursor.X c) (Cursor.F c) n v in
  let? s := screen v in
  changed (Cursor.Y (Screen.Cursor s)) false v.

(** [func (v *Terminal) deleteCharacters(n int)] *)
Definition deleteCharacters (n : Z) (v : term) : option term :=
  let v := with_wrap false v in
  let? s := screen v in
  let c := Screen.Cursor s in
  let? content := deleteCharacters (Screen.Content s) (Cursor.Y c) (Cursor.X c) n space in
  let v := with_Screen (Some (Screen.with_Content content s)) v in
  let? s := screen v in
  let c := Screen.Cursor s in
  let? v := FormatDelete (Cursor.Y c) (Cursor.X c) n v in
  let? s := screen v in
  changed (Cursor.Y (Screen.Cursor s)) false v.

(** [func (v *Terminal) eraseCharacters(n int)] *)
Definition eraseCharacters (n : Z) (v : term) : option term :=
  let v := with_wrap false v in
  let? s := screen v in
  let c := Screen.Cursor s in
  let? content := eraseCharacters (Screen.Content s) (Cursor.Y c) (Cursor.X c) n space in
  let v := with_Screen (Some (Screen.with_Content content s)) v in
  let? v :=
    for_lt 0 n
      (fun i v =>
         let? s := screen v in
         let c := Screen.Cursor s in
         FormatPaint (Cursor.Y c) (Int.add (Cursor.X c) i) (Cursor.F c) v) v in
  let? s := screen v in
  changed (Cursor.Y (Screen.Cursor s)) false v.

(** [func (v *Terminal) moveDown()] *)
Definition moveDown (v : term) : option term :=
  let? s := screen v in
  let y := Cursor.Y (Screen.Cursor s) in
  if match Screen.ScrollRegion s with
     | Some r => y =? ScrollRegion.End_ r
     | None => false
     end
  then scrollUpN 1 v
  else if (y =? Int.sub (Screen.Height s) 1) && negb (AutoResizeY v)
  then scrollUpN 1 v
  else moveRel 1 0 v.

(** [func (v *Terminal) moveUp()] *)
Definition moveUp (v : term) : option term :=
  let? s := screen v in
  let y := Cursor.Y (Screen.Cursor s) in
  if (y =? 0)
     || match Screen.ScrollRegion s with
        | Some r => y =? ScrollRegion.Start r
        | None => false
        end
  then scrollDownN 1 v
  else moveRel (-1) 0 v.

(** [func (v *Terminal) advance()] *)
Definition advance (v : term) : option term :=
  let? lastColumn :=
    if negb (AutoResizeX v) then
      let? s := screen v in
      Some (Cursor.X (Screen.Cursor s) =? Int.sub (Screen.Width s) 1)
    else Some false in
  if lastColumn then Some (with_wrap true v)
  else
    let? v := moveRel 0 1 v in
    let? s := screen v in
    changed (Cursor.Y (Screen.Cursor s)) true v.

(** [func (v *Terminal) put(r rune)] *)
Definition put (r : rune) (v : term) : option term :=
  let? v :=
    if wrap v then
      let? v := update (fun s => Screen.with_Cursor
                                   (Cursor.with_X 0 (Screen.Cursor s)) s) v in
      let? v := moveDown v in
      Some (with_wrap false v)
    else Some v in
  let? s := screen v in
  let x := Cursor.X (Screen.Cursor s) in
  let y := Cursor.Y (Screen.Cursor s) in
  let f := Cursor.F (Screen.Cursor s) in
  let? v := paint y x f r v in
  let? s := screen v in
  let? v := if y >? Screen.MaxY s then update (Screen.with_MaxY y) v else Some v in
  let? s := screen v in
  let? v := if x >? Screen.MaxX s then update (Screen.with_MaxX x) v else Some v in
  advance v.

(** [func (v *Terminal) insertLines(n int)] *)
Definition insertLines (n : Z) (v : term) : option term :=
  let? s := screen v in
  let? v := ensureHeight (Int.add (Cursor.Y (Screen.Cursor s)) n) v in
  let? r := scrollRegion v in
  let start := r.1 in
  let end_ := r.2 in
  let? s := screen v in
  let y := Cursor.Y (Screen.Cursor s) in
  if (y <? start) || (y >? end_) then Some v
  else
    let v := with_wrap false v in
    let? content := insertLines (Screen.Content s) y n start end_ space in
    let s := Screen.with_Content content s in
    let? rows := insertLinesShallow (Screen.Format s) y n start end_ (blankRegion s) in
    let s := Screen.with_Format rows s in
    let? changes := insertLinesShallow (Screen.Changes s) y n start end_ 1 in
    let s := Screen.with_Changes changes s in
    Some (with_Screen (Some s) v).

End Absent.

End Terminal.

(** ** The documented scrollback

    The hook is documented as "called every time a line is about to be
    pushed out of the visible screen region", and the loop of [scrollUpN]
    still holds the call, as a comment:
    [v.onScrollback(Line{v.Content[i], v.Format[i]})].  Here is the
    function with that statement run, to be compared with
    [Terminal.scrollUpN]. *)
Module Documented.

Import Terminal.

(** The call of the hook with line [i]. *)
Definition notify (i : Z) (v : term) : option term :=
  let? s := screen v in
  let? content := index (Screen.Content s) i in
  let? format := index (Screen.Format s) i in
  Some (with_scrollback (scrollback v ++ [Line.mk content format]) v).

Definition scrollUpN (n : Z) (v : term) : option term :=
  let? v := if onScrollback v then for_lt 0 n notify v else Some v in
  Terminal.scrollUpN n v.

End Documented.

(** ** The specification's account of [put]

    Section 4.3 of the specification describes [put] in three numbered
    steps.  They are transcribed here, word for word, over the same absent
    methods, to be compared with [Terminal.put]. *)
Module PutSpec.

Import Terminal.

Section Steps.

Variable moveRel : Z -> Z -> term -> option term.
Variable paint : Z -> Z -> Format.t -> rune -> term -> option term.
Variable changed : Z -> bool -> term -> option term.

(** Step 1: if [wrap] is set, move the cursor to column 0, invoke
    [moveDown], clear [wrap]. *)
Definition deferredWrap (v : term) : option term :=
  match wrap v with
  | true =>
      let? v := update (fun s => Screen.with_Cursor
                                   (Cursor.with_X 0 (Screen.Cursor s)) s) v in
      let? v := moveDown moveRel v in
      Some (with_wrap false v)
  | false => Some v
  end.

(** Step 2: paint the cell under the cursor with [r] and the current
    format; update the maxima if exceeded. *)
Definition paintAtCursor (r : rune) (v : term) : option term :=
  let? s := screen v in
  let c := Screen.Cursor s in
  let? v := paint (Cursor.Y c) (Cursor.X c) (Cursor.F c) r v in
  let? s := screen v in
  let? v :=
    if Screen.MaxY s <? Cursor.Y c
    then update (Screen.with_MaxY (Cursor.Y c)) v else Some v in
  let? s := screen v in
  if Screen.MaxX s <? Cursor.X c
  then update (Screen.with_MaxX (Cursor.X c)) v else Some v.

(** "Move right by one", with the change ledger of the row told. *)
Definition moveRight (v : term) : option term :=
  let? v := moveRel 0 1 v in
  let? s := screen v in
  changed (Cursor.Y (Screen.Cursor s)) true v.

(** Step 3: if auto-resize of the width is off and the cursor is in the
    last column, set [wrap] and leave the cursor in place; otherwise move
    right by one. *)
Definition advanceCursor (v : term) : option term :=
  match AutoResizeX v with
  | false =>
      let? s := screen v in
      if Cursor.X (Screen.Cursor s) =? Int.sub (Screen.Width s) 1
      then Some (with_wrap true v)
      else moveRight v
  | true => moveRight v
  end.

Definition put (r : rune) (v : term) : option term :=
  let? v := deferredWrap v in
  let? v := paintAtCursor r v in
  advanceCursor v.

End Steps.

End PutSpec.

(** ** Scenarios

    The end-to-end scenarios of section 8 of the specification run on a
    terminal of five rows and ten columns. *)
Module Scenario.

Import String.

(** A row of text padded with spaces to ten columns. *)
Definition row10 (s : string) : list rune :=
  (runes s ++ replicate (10 - Datatypes.length (runes s)) space)%list.

Definition blank10 : list rune := replicate 10 space.

(** Rows "L0" to "L4", cursor at (4,0), default format. *)
Definition lines : Screen.t Region.t :=
  Screen.mk 5 10
    [row10 "L0"; row10 "L1"; row10 "L2"; row10 "L3"; row10 "L4"]
    (replicate 5 (Region.mk 10 Format.zero))
    (Cursor.mk 4 0 Format.zero 0) Cursor.zero
    (replicate 5 1) 4 1 None.

Definition terminal {R : Type} (s : Screen.t R) : Terminal.t R :=
  Terminal.mk (Some s) String.EmptyString None false false false false false
              false false [].

(** S2: the rows above with a scrollback hook registered. *)
Definition S2 : Terminal.term := Terminal.OnScrollback (terminal lines).

(** The same rows under the scroll region (1,3): the cursor, on the last
    row of the screen, is below the region. *)
Definition belowRegion : Terminal.term :=
  terminal (Screen.with_ScrollRegion (Some (ScrollRegion.mk 1 3)) lines).

(** Ragged rows, as printing leaves them when the width resizes
    automatically: row 0 has five cells, row 1 has two. *)
Definition ragged : Screen.grid :=
  Screen.mk 2 0
    [runes "hello"; runes "hi"]
    [replicate 5 Format.zero; replicate 2 Format.zero]
    Cursor.zero Cursor.zero [] 0 0 None.

(** A blank grid of five rows and ten columns with the cursor on the last
    row. *)
Definition bottom : Screen.grid :=
  Screen.mk 5 10 (replicate 5 blank10) (replicate 5 (replicate 10 Format.zero))
    (Cursor.mk 4 0 Format.zero 0) Cursor.zero [] 0 0 None.

(** The row that a full-screen scroll of [lines] by one line evicts. *)
Definition evicted : list rune := row10 "L0".

(** The rows of [lines] after a full-screen scroll by one line. *)
Definition scrolledFully : list (list rune) :=
  [row10 "L1"; row10 "L2"; row10 "L3"; row10 "L4"; blank10].

(** The rows of [lines] after a scroll by one line of rows 1 to 3 only. *)
Definition scrolledInRegion : list (list rune) :=
  [row10 "L0"; row10 "L2"; row10 "L3"; blank10; row10 "L4"].

(** One row of ten letters. *)
Definition alphabet : list rune := runes "ABCDEFGHIJ".

Definition letters : list (list rune) := [alphabet].

(** An [ensureHeight] for a screen that already has the rows asked for. *)
Definition tallEnough (h : Z) (v : Terminal.term) : option Terminal.term :=
  Some v.

(** Scenario S3: the rows of text under the scroll region (1,3) with the
    cursor at (2,0), inside the region. *)
Definition insideRegion : Screen.t Region.t :=
  Screen.with_Cursor (Cursor.mk 2 0 Format.zero 0)
    (Screen.with_ScrollRegion (Some (ScrollRegion.mk 1 3)) lines).

(** A [moveRel] that leaves the terminal where it is. *)
Definition stay (dy dx : Z) (v : Terminal.term) : option Terminal.term := Some v.

(** A screen of one row of text. *)
Definition oneRow : Screen.t Region.t :=
  Screen.mk 1 10 [row10 "L0"] [Region.mk 10 Format.zero]
    Cursor.zero Cursor.zero [1] 0 1 None.

(** The rows of text under the scroll region (1,3) with the cursor at
    (1,0), on the first row of the region. *)
Definition atRegionStart : Screen.t Region.t :=
  Screen.with_Cursor (Cursor.mk 1 0 Format.zero 0)
    (Screen.with_ScrollRegion (Some (ScrollRegion.mk 1 3)) lines).

(** The rows "L0" to "L4" on a grid of one format per cell, cursor at
    (4,0). *)
Definition page : Screen.grid :=
  Screen.mk 5 10
    [row10 "L0"; row10 "L1"; row10 "L2"; row10 "L3"; row10 "L4"]
    (replicate 5 (replicate 10 Format.zero))
    (Cursor.mk 4 0 Format.zero 0) Cursor.zero [] 0 0 None.

(** A terminal on [page] with a blank alternate screen. *)
Definition twoScreens : Terminal.t (list Format.t) :=
  Terminal.with_Alt (Some bottom) (terminal page).

End Scenario.

(** ** The properties as the specification words them

    Where the code departs from a sentence of the specification, the
    sentence is kept here as a predicate, so that the departure is stated
    against it. *)
Module Claimed.

(** Section 4.1: after [resize(h, w)] the invariants of section 3 hold at
    the new dimensions. *)
Definition resized (h w : Z) (s : Screen.grid) : Prop :=
  Screen.Height s = h /\ Screen.Width s = w
  /\ len (Screen.Content s) = Screen.Height s
  /\ Forall (fun row => len row = Screen.Width s) (Screen.Content s)
  /\ 0 <= Cursor.Y (Screen.Cursor s) < h
  /\ 0 <= Cursor.X (Screen.Cursor s) < w.

(** Section 4.5: a restored cursor lies within the current bounds. *)
Definition cursorInBounds {R : Type} (s : Screen.t R) : Prop :=
  exists row,
    index (Screen.Content s) (Cursor.Y (Screen.Cursor s)) = Some row
    /\ 0 <= Cursor.X (Screen.Cursor s) < len row.

(** Scenario S5: the screen is blank with the cursor at (0,0). *)
Definition blankAtOrigin {R : Type} (s : Screen.t R) : Prop :=
  Forall (Forall (fun r => r = space)) (Screen.Content s)
  /\ Cursor.Y (Screen.Cursor s) = 0 /\ Cursor.X (Screen.Cursor s) = 0.

(** Section 4.2: a primitive is a no-op at this count. *)
Definition noop {T : Type}
    (f : list (list T) -> Z -> Z -> Z -> T -> option (list (list T)))
    (arr : list (list T)) (row col ps : Z) (empty : T) : Prop :=
  f arr row col ps empty = Some arr.

End Claimed.

(** ** Further notions used by the properties *)

Module Rows.

(** The three row tables of a screen of run-length rows have [Height]
    entries each. *)
Definition aligned (s : Screen.t Region.t) : bool :=
  (len (Screen.Content s) =? Screen.Height s)
  && (len (Screen.Format s) =? Screen.Height s)
  && (len (Screen.Changes s) =? Screen.Height s).

(** What scrolling and line editing never write on a screen. *)
Definition rest (s : Screen.t Region.t)
  : Z * Z * Cursor.t * Cursor.t * Z * Z * option ScrollRegion.t :=
  (Screen.Height s, Screen.Width s, Screen.Cursor s, Screen.SavedCursor s,
   Screen.MaxY s, Screen.MaxX s, Screen.ScrollRegion s).

(** A blank row as long as the given one. *)
Definition blanked {T : Type} (empty : T) (row : list T) : list T :=
  replicate (length row) empty.

(** [arr'] is [arr] with the entries [lo .. hi] passed through [f], every
    other entry, and the number of entries, as they were. *)
Definition rewritten {A : Type} (arr arr' : list A) (lo hi : Z) (f : A -> A) : Prop :=
  len arr' = len arr
  /\ forall j : Z,
       index arr' j
       = if (lo <=? j) && (j <=? hi) then f <$> index arr j else index arr j.

(** [arr'] is [arr] with the entries [lo .. hi] replaced by the entries
    [d] places further ([j + d] for entry [j]; [d] is negative for a move
    towards the bottom), the entries [blo .. bhi] outside them replaced by
    [fill], and every other entry, and the number of entries, as they
    were. *)
Definition shifted {A : Type} (arr arr' : list A) (lo hi d blo bhi : Z)
    (fill : Z -> option A) : Prop :=
  len arr' = len arr
  /\ forall j : Z,
       index arr' j
       = if (lo <=? j) && (j <=? hi) then index arr (j + d)
         else if (blo <=? j) && (j <=? bhi) then fill j
         else index arr j.

End Rows.

(** * Properties *)

(** ** Loops *)

Lemma loop_up_skip {S : Type} (n : nat) (i : Z) (s : S) :
  loop_up n i (fun _ s => Some s) s = Some s.
Proof.
  revert i. induction n as [|n IH]; intros i; simpl; [reflexivity|].
  apply IH.
Qed.

Lemma bindP_Some {A B : Type} (m : option A) (k : A -> option B) (b : B) :
  bindP m k = Some b -> exists a, m = Some a /\ k a = Some b.
Proof. destruct m as [a|]; simpl; [eauto | discriminate]. Qed.

(** ** Machine arithmetic within range *)

Lemma wrap_in_range (z : Z) : Int.in_range z -> Int.wrap z = z.
Proof.
  unfold Int.in_range, Int.min_int, Int.max_int, Int.wrap. intros H.
  rewrite Z.mod_small; lia.
Qed.

Lemma add_in_range (x y : Z) : Int.in_range (x + y) -> Int.add x y = x + y.
Proof. apply wrap_in_range. Qed.

Lemma sub_in_range (x y : Z) : Int.in_range (x - y) -> Int.sub x y = x - y.
Proof. apply wrap_in_range. Qed.

(** ** Slices *)

Lemma index_Some {A : Type} (arr : list A) (i : Z) (x : A) :
  index arr i = Some x <-> 0 <= i /\ arr !! Z.to_nat i = Some x.
Proof.
  unfold index. destruct (Z.ltb_spec i 0); split.
  - discriminate.
  - lia.
  - auto.
  - tauto.
Qed.

Lemma index_lt_len {A : Type} (arr : list A) (i : Z) (x : A) :
  index arr i = Some x -> 0 <= i < len arr.
Proof.
  intros [H0 H]%index_Some. apply lookup_lt_Some in H. unfold len. lia.
Qed.

Lemma store_in_range {A : Type} (arr : list A) (i : Z) (x : A) :
  0 <= i < len arr -> store arr i x = Some (<[Z.to_nat i := x]> arr).
Proof.
  intros H. unfold store.
  destruct (Z.leb_spec 0 i); [|lia]. destruct (Z.ltb_spec i (len arr)); [|lia].
  reflexivity.
Qed.

Lemma store2_in_range {A : Type} (arr : list (list A)) (y x : Z) (row : list A) (v : A) :
  index arr y = Some row -> 0 <= x < len row ->
  store2 arr y x v = Some (<[Z.to_nat y := <[Z.to_nat x := v]> row]> arr).
Proof.
  intros Hrow Hx. unfold store2. rewrite Hrow. cbn [bindP].
  rewrite store_in_range by assumption. cbn [bindP].
  apply store_in_range. eapply index_lt_len; eassumption.
Qed.

(** ** Scrollback *)

(** Whatever [scrollUpN] does to the rows, it reports nothing to the
    scrollback hook. *)
Lemma scrollUpN_scrollback (n : Z) (v v' : Terminal.term) :
  Terminal.scrollUpN n v = Some v' ->
  Terminal.scrollback v' = Terminal.scrollback v
  /\ Terminal.onScrollback v' = Terminal.onScrollback v.
Proof.
  unfold Terminal.scrollUpN, for_lt. intros H.
  assert (Hskip :
    (if Terminal.onScrollback v
     then loop_up (Z.to_nat (n - 0)) 0 (fun (_ : Z) (v0 : Terminal.term) => Some v0) v
     else Some v) = Some v).
  { destruct (Terminal.onScrollback v); [apply loop_up_skip | reflexivity]. }
  rewrite Hskip in H. simpl in H.
  repeat (apply bindP_Some in H; destruct H as [? [? H]]).
  inversion H; subst; simpl; auto.
Qed.

(** C1.  With a scrollback hook registered and no scroll region, [moveDown]
    on the last row of scenario S2 scrolls the rows "L0".."L4" up by one:
    the rows become "L1".."L4" and a blank row, the cursor stays at (4,0),
    and the hook has been called with no line at all.  The function as
    documented, with the call of the hook run, hands it the row "L0". *)
Theorem C1_scrollback_hook_never_called :
  forall moveRel : Z -> Z -> Terminal.term -> option Terminal.term,
  exists (v d : Terminal.term) (s : Screen.t Region.t),
    Terminal.moveDown moveRel Scenario.S2 = Some v
    /\ Terminal.Screen v = Some s
    /\ Terminal.onScrollback v = true
    /\ Screen.ScrollRegion s = None
    /\ Screen.Content s = Scenario.scrolledFully
    /\ Cursor.Y (Screen.Cursor s) = 4 /\ Cursor.X (Screen.Cursor s) = 0
    /\ Terminal.scrollback v = []
    /\ Documented.scrollUpN 1 Scenario.S2 = Some d
    /\ Line.Content <$> Terminal.scrollback d = [Scenario.evicted].
Proof.
  intros moveRel. do 3 eexists.
  split; [vm_compute; reflexivity|].
  split; [reflexivity|].
  do 6 (split; [vm_compute; reflexivity|]).
  split; vm_compute; reflexivity.
Qed.

(** ** Bounds *)

(** C3.  Two calls that fault instead of being ignored.  [clear] checks the
    column against the length of row 0, not of row [y]: on ragged rows,
    [clear(1, 3, f)] passes the check (3 < 5) and indexes cell 3 of a row of
    two cells.  [deleteCharacters] bounds the shift by the remaining length
    of the row but fills the tail from [len(row) - ps]: with [ps = 11] on a
    row of ten cells the fill starts at index -1, and the method of the
    terminal faults with it, before it reaches the format row. *)
Theorem C3_clear_and_deleteCharacters_fault :
  Screen.clear 1 3 Format.zero Scenario.ragged = None
  /\ deleteCharacters Scenario.letters 0 0 11 space = None
  /\ forall (changed : Z -> bool -> Terminal.term -> option Terminal.term)
            (FormatDelete : Z -> Z -> Z -> Terminal.term -> option Terminal.term),
       Terminal.deleteCharacters changed FormatDelete 11
         (Scenario.terminal Scenario.lines) = None.
Proof.
  split; [vm_compute; reflexivity|]. split; [vm_compute; reflexivity|].
  intros changed FormatDelete. vm_compute. reflexivity.
Qed.

(** ** Moving down *)

(** C8.  On the last row of a five-row screen whose scroll region is (1,3),
    with auto-resize of the height off, [moveDown] takes its second branch
    and scrolls the scroll region, rows 1 to 3: rows 0 and 4 keep their
    text, so the full screen has not scrolled.  The cursor stays at (4,0). *)
Theorem C8_moveDown_below_region_scrolls_region :
  forall moveRel : Z -> Z -> Terminal.term -> option Terminal.term,
  exists (v : Terminal.term) (s : Screen.t Region.t),
    Terminal.moveDown moveRel Scenario.belowRegion = Some v
    /\ Terminal.Screen v = Some s
    /\ Screen.Content s = Scenario.scrolledInRegion
    /\ Screen.Content s <> Scenario.scrolledFully
    /\ Cursor.Y (Screen.Cursor s) = 4 /\ Cursor.X (Screen.Cursor s) = 0.
Proof.
  intros moveRel. do 2 eexists.
  split; [vm_compute; reflexivity|].
  split; [reflexivity|].
  vm_compute. repeat split; try reflexivity. discriminate.
Qed.

(** ** The alternate screen *)

(** C9.  [swapAlt] twice is the identity on the terminal: both screens, with
    their contents, formats, cursors, saved cursors and scroll regions, and
    [IsAlt], are back where they were. *)
Theorem C9_swapAlt_twice {R : Type} (v : Terminal.t R) :
  Terminal.swapAlt (Terminal.swapAlt v) = v.
Proof.
  destruct v as [scr title alt isAlt ay ax raw ao wr hook sb].
  unfold Terminal.swapAlt, Terminal.with_Alt, Terminal.with_Screen,
    Terminal.with_IsAlt; simpl.
  rewrite negb_involutive. reflexivity.
Qed.

(** C6, as worded, fails on a terminal fresh from [NewTerminal]: no
    alternate screen exists, and after [swapAlt] the terminal has no active
    screen at all, let alone a blank one with the cursor at the origin. *)
Lemma C6_first_swap_leaves_no_screen :
  exists v : Terminal.t (list Format.t),
    Terminal.NewTerminal 5 10 = Some v
    /\ Terminal.Alt v = None
    /\ Terminal.Screen (Terminal.swapAlt v) = None
    /\ ~ (exists s, Terminal.Screen (Terminal.swapAlt v) = Some s
                    /\ Claimed.blankAtOrigin s).
Proof.
  eexists. split; [vm_compute; reflexivity|].
  split; [reflexivity|]. split; [reflexivity|].
  intros [s [Hs _]]. discriminate Hs.
Qed.

(** C6, amended.  [swapAlt] creates nothing and clears nothing: it exchanges
    the active screen with [Alt] and toggles [IsAlt].  The screen active
    afterwards is the former [Alt] as it stood, absent if there was none;
    every other field of the terminal is untouched. *)
Theorem C6_swapAlt_exchanges {R : Type} (v : Terminal.t R) :
  Terminal.Screen (Terminal.swapAlt v) = Terminal.Alt v
  /\ Terminal.Alt (Terminal.swapAlt v) = Terminal.Screen v
  /\ Terminal.IsAlt (Terminal.swapAlt v) = negb (Terminal.IsAlt v)
  /\ Terminal.Title (Terminal.swapAlt v) = Terminal.Title v
  /\ Terminal.AutoResizeY (Terminal.swapAlt v) = Terminal.AutoResizeY v
  /\ Terminal.AutoResizeX (Terminal.swapAlt v) = Terminal.AutoResizeX v
  /\ Terminal.Raw (Terminal.swapAlt v) = Terminal.Raw v
  /\ Terminal.AppendOnly (Terminal.swapAlt v) = Terminal.AppendOnly v
  /\ Terminal.wrap (Terminal.swapAlt v) = Terminal.wrap v
  /\ Terminal.onScrollback (Terminal.swapAlt v) = Terminal.onScrollback v
  /\ Terminal.scrollback (Terminal.swapAlt v) = Terminal.scrollback v.
Proof. destruct v; repeat split. Qed.

(** ** Saving and restoring the cursor *)

(** C5, as worded, fails when the screen shrinks between [save] and
    [unsave]: saved on row 4 of five, restored after [resize(3, 10)], the
    cursor is back on row 4 of a grid of three rows. *)
Lemma C5_restore_does_not_clamp :
  exists (v : Terminal.t (list Format.t)) (s : Screen.grid),
    (let? v1 := Terminal.save (Scenario.terminal Scenario.bottom) in
     let? v2 := Terminal.resize 3 10 v1 in
     Terminal.unsave v2) = Some v
    /\ Terminal.Screen v = Some s
    /\ len (Screen.Content s) = 3
    /\ Cursor.Y (Screen.Cursor s) = 4
    /\ ~ Claimed.cursorInBounds s.
Proof.
  do 2 eexists. split; [vm_compute; reflexivity|].
  split; [reflexivity|]. split; [reflexivity|]. split; [reflexivity|].
  intros [row [Hrow _]]. vm_compute in Hrow. discriminate Hrow.
Qed.

(** C5, amended.  [save] snapshots the cursor of the active screen, and
    [unsave] puts the snapshot back exactly, position, format and style,
    without clamping: whatever ran in between, as long as the active screen
    still holds that snapshot, the cursor after [unsave] is the cursor at
    [save] time and nothing else of the terminal changes. *)
Theorem C5_unsave_restores_snapshot {R : Type}
    (v : Terminal.t R) (s : Screen.t R) :
  Terminal.Screen v = Some s ->
  exists (v1 : Terminal.t R) (s1 : Screen.t R),
    Terminal.save v = Some v1
    /\ Terminal.Screen v1 = Some s1
    /\ Screen.SavedCursor s1 = Screen.Cursor s
    /\ forall (v2 : Terminal.t R) (s2 : Screen.t R),
         Terminal.Screen v2 = Some s2 ->
         Screen.SavedCursor s2 = Screen.SavedCursor s1 ->
         Terminal.unsave v2
         = Some (Terminal.with_Screen
                   (Some (Screen.with_Cursor (Screen.Cursor s) s2)) v2).
Proof.
  intros Hs. unfold Terminal.save, Terminal.unsave, Terminal.update, Terminal.screen.
  rewrite Hs. simpl. do 2 eexists.
  split; [reflexivity|]. split; [reflexivity|]. split; [reflexivity|].
  intros v2 s2 Hs2 Hsaved. rewrite Hs2. simpl in *. rewrite Hsaved. reflexivity.
Qed.

(** C5 at the blank grid of five rows with the cursor on the last row. *)
Lemma C5_unsave_restores_snapshot_witness :
  exists (v1 : Terminal.t (list Format.t)) (s1 : Screen.grid),
    Terminal.save (Scenario.terminal Scenario.bottom) = Some v1
    /\ Terminal.Screen v1 = Some s1
    /\ Screen.SavedCursor s1 = Screen.Cursor Scenario.bottom
    /\ forall (v2 : Terminal.t (list Format.t)) (s2 : Screen.grid),
         Terminal.Screen v2 = Some s2 ->
         Screen.SavedCursor s2 = Screen.SavedCursor s1 ->
         Terminal.unsave v2
         = Some (Terminal.with_Screen
                   (Some (Screen.with_Cursor (Screen.Cursor Scenario.bottom) s2)) v2).
Proof.
  apply (C5_unsave_restores_snapshot (Scenario.terminal Scenario.bottom) Scenario.bottom).
  reflexivity.
Defined.

(** ** Printing *)



(** ** Line editing outside the scroll region *)



(** ** Counts that are not positive *)

Lemma scroll_invalid_nonpositive {A : Type} (arr : list A) (ps a b : Z) :
  ps <= 0 -> scroll_invalid arr ps a b = true.
Proof.
  intros H. unfold scroll_invalid.
  destruct (Z.leb_spec ps 0); [|lia]. apply orb_true_r.
Qed.

Lemma lines_invalid_nonpositive {A : Type} (arr : list A) (start ps : Z) :
  ps <= 0 -> lines_invalid arr start ps = true.
Proof.
  intros H. unfold lines_invalid.
  destruct (Z.leb_spec ps 0); [|lia]. apply orb_true_r.
Qed.

Lemma row_guard_passes {A : Type} (arr : list A) (row : Z) (r : A) :
  index arr row = Some r -> (row <? 0) || (row >=? len arr) = false.
Proof.
  intros H%index_lt_len.
  destruct (Z.ltb_spec row 0); [lia|].
  rewrite Z.geb_leb. destruct (Z.leb_spec (len arr) row); [lia|]. reflexivity.
Qed.

(** The row that [deleteCharacters] leaves when it removes one cell at
    [col]: the prefix, the cells to the right moved left by one, and the
    last cell as it was. *)
Lemma shift_left_one {A : Type} (r : list A) (col : nat) :
  (col < length r)%nat ->
  let r' := take col r
              ++ take (length r - col - 1) (drop (S col) r)
              ++ drop (col + (length r - col - 1)) r in
  length r' = length r
  /\ (forall i, (i < col)%nat -> r' !! i = r !! i)
  /\ (forall i, (col <= i)%nat -> (S i < length r)%nat -> r' !! i = r !! S i).
Proof.
  intros Hcol r'. subst r'. split; [|split].
  - rewrite !length_app, !length_take, !length_drop. lia.
  - intros i Hi. rewrite lookup_app_l by (rewrite length_take; lia).
    apply lookup_take_lt; assumption.
  - intros i Hi HS.
    rewrite lookup_app_r by (rewrite length_take; lia).
    rewrite length_take, Nat.min_l by lia.
    rewrite lookup_app_l by (rewrite length_take, length_drop; lia).
    rewrite lookup_take_lt by lia. rewrite lookup_drop. f_equal. lia.
Qed.

(** C4, as worded, fails at a count of zero: on the row "ABCDEFGHIJ" with the
    cursor in column 0, [eraseCharacters] blanks the first cell and
    [deleteCharacters] moves the row left by one cell. *)
Lemma C4_zero_count_edits_the_row :
  ~ Claimed.noop eraseCharacters Scenario.letters 0 0 0 space
  /\ ~ Claimed.noop deleteCharacters Scenario.letters 0 0 0 space.
Proof.
  unfold Claimed.noop. split; intros H; vm_compute in H; discriminate H.
Qed.

(** C4, amended.  At a count [ps <= 0], the scrolling and line primitives
    and [insertEmpties] return the rows as they were.  [eraseCharacters]
    treats such a count as one: it overwrites exactly the cell under the
    cursor.  [deleteCharacters] returns the rows as they were for [ps < 0]
    and treats [ps = 0] as one: the cells left of the cursor stay, and every
    cell right of it moves left by one. *)
Theorem C4_counts_not_positive {T : Type}
    (arr : list (list T)) (row col ps : Z) (r : list T) (empty : T) :
  ps <= 0 ->
  Int.in_range ps ->
  Int.in_range (len r) ->
  index arr row = Some r ->
  0 <= col < len r ->
  (forall a b : Z,
      scrollUp arr ps a b empty = Some arr
      /\ scrollDown arr ps a b empty = Some arr
      /\ insertLines arr row ps a b empty = Some arr
      /\ deleteLines arr row ps a b empty = Some arr)
  /\ insertEmpties arr row col ps empty = Some arr
  /\ eraseCharacters arr row col ps empty
     = Some (<[Z.to_nat row := <[Z.to_nat col := empty]> r]> arr)
  /\ (ps < 0 -> deleteCharacters arr row col ps empty = Some arr)
  /\ (ps = 0 ->
      exists r' : list T,
        deleteCharacters arr row col ps empty = Some (<[Z.to_nat row := r']> arr)
        /\ length r' = length r
        /\ (forall i, (i < Z.to_nat col)%nat -> r' !! i = r !! i)
        /\ (forall i, (Z.to_nat col <= i)%nat -> (S i < length r)%nat ->
                      r' !! i = r !! S i)).
Proof.
  intros Hps Hrange Hlen Hrow Hcol.
  pose proof (row_guard_passes arr row r Hrow) as Hguard.
  unfold Int.in_range, Int.min_int, Int.max_int in Hrange, Hlen.
  split; [|split; [|split; [|split]]].
  - intros a b. unfold scrollUp, scrollDown, insertLines, deleteLines.
    rewrite !scroll_invalid_nonpositive, !lines_invalid_nonpositive by assumption.
    auto.
  - unfold insertEmpties. rewrite Hguard, Hrow. cbn [bindP].
    destruct (Z.leb_spec ps 0); [|lia]. rewrite orb_true_r. reflexivity.
  - unfold eraseCharacters. rewrite Hguard, Hrow. cbn [bindP].
    rewrite add_in_range by (unfold Int.in_range, Int.min_int, Int.max_int; lia).
    destruct (Z.ltb_spec col 0); [lia|].
    rewrite Z.gtb_ltb. destruct (Z.ltb_spec (len r) (col + ps)); [lia|].
    cbn [orb]. destruct (Z.leb_spec ps 0); [|lia].
    rewrite add_in_range by (unfold Int.in_range, Int.min_int, Int.max_int; lia).
    unfold for_lt. replace (col + 1 - col) with 1 by lia.
    change (Z.to_nat 1) with 1%nat. cbn [loop_up].
    rewrite (store2_in_range arr row col r) by assumption. reflexivity.
  - intros Hneg. unfold deleteCharacters. rewrite Hguard, Hrow. cbn [bindP].
    destruct (Z.ltb_spec ps 0); [|lia]. rewrite orb_true_r. reflexivity.
  - intros ->. unfold deleteCharacters. rewrite Hguard, Hrow. cbn [bindP].
    destruct (Z.ltb_spec col 0); [lia|].
    rewrite Z.geb_leb. destruct (Z.leb_spec (len r) col); [lia|].
    cbn [orb Z.ltb Z.compare Z.eqb].
    rewrite (add_in_range col 1)
      by (unfold Int.in_range, Int.min_int, Int.max_int; lia).
    rewrite Z.gtb_ltb. destruct (Z.ltb_spec (len r) (col + 1)); [lia|].
    rewrite (add_in_range col 1)
      by (unfold Int.in_range, Int.min_int, Int.max_int; lia).
    unfold copy_within.
    destruct (Z.leb_spec 0 col); [|lia].
    destruct (Z.leb_spec col (len r)); [|lia].
    rewrite Z.leb_refl.
    destruct (Z.leb_spec 0 (col + 1)); [|lia].
    destruct (Z.leb_spec (col + 1) (len r)); [|lia].
    cbn [andb bindP].
    rewrite (store_in_range arr row) by (eapply index_lt_len; eassumption).
    cbn [bindP].
    rewrite sub_in_range by (unfold Int.in_range, Int.min_int, Int.max_int; lia).
    unfold for_lt. replace (len r - (len r - 0)) with 0 by lia.
    change (Z.to_nat 0) with 0%nat. cbn [loop_up].
    eexists. split; [reflexivity|].
    replace (Z.to_nat (Z.min (len r - col) (len r - (col + 1))))
      with (length r - Z.to_nat col - 1)%nat by (unfold len in *; lia).
    replace (Z.to_nat (col + 1)) with (S (Z.to_nat col)) by lia.
    apply shift_left_one. unfold len in *. lia.
Qed.

(** C4 at a count of zero on the row of ten letters, cursor in column 2. *)
Lemma C4_counts_not_positive_witness :
  (forall a b : Z,
      scrollUp Scenario.letters 0 a b space = Some Scenario.letters
      /\ scrollDown Scenario.letters 0 a b space = Some Scenario.letters
      /\ insertLines Scenario.letters 0 0 a b space = Some Scenario.letters
      /\ deleteLines Scenario.letters 0 0 a b space = Some Scenario.letters)
  /\ insertEmpties Scenario.letters 0 2 0 space = Some Scenario.letters
  /\ eraseCharacters Scenario.letters 0 2 0 space
     = Some (<[Z.to_nat 0 := <[Z.to_nat 2 := space]> Scenario.alphabet]>
               Scenario.letters)
  /\ (0 < 0 -> deleteCharacters Scenario.letters 0 2 0 space = Some Scenario.letters)
  /\ (0 = 0 ->
      exists r' : list rune,
        deleteCharacters Scenario.letters 0 2 0 space
        = Some (<[Z.to_nat 0 := r']> Scenario.letters)
        /\ length r' = length Scenario.alphabet
        /\ (forall i, (i < Z.to_nat 2)%nat -> r' !! i = Scenario.alphabet !! i)
        /\ (forall i, (Z.to_nat 2 <= i)%nat -> (S i < length Scenario.alphabet)%nat ->
                      r' !! i = Scenario.alphabet !! S i)).
Proof.
  apply (C4_counts_not_positive Scenario.letters 0 2 0 Scenario.alphabet space).
  - lia.
  - vm_compute. split; discriminate.
  - vm_compute. split; discriminate.
  - reflexivity.
  - vm_compute. split; [discriminate | reflexivity].
Defined.

(** ** Resizing the grid *)

(** A counted loop whose body succeeds and steps an invariant runs to the
    end and establishes the invariant at the final count. *)
Lemma loop_up_invariant {S : Type} (P : nat -> S -> Prop)
    (body : Z -> S -> option S) (n : nat) (lo : Z) (s : S) :
  P 0%nat s ->
  (forall (k : nat) (s : S), (k < n)%nat -> P k s ->
     exists s', body (lo + Z.of_nat k) s = Some s' /\ P (Datatypes.S k) s') ->
  exists s', loop_up n lo body s = Some s' /\ P n s'.
Proof.
  revert P lo s. induction n as [|n IH]; intros P lo s H0 Hstep.
  - exists s. split; [reflexivity | assumption].
  - destruct (Hstep 0%nat s ltac:(lia) H0) as [s1 [Hb H1]].
    rewrite Z.add_0_r in Hb. cbn [loop_up]. rewrite Hb. cbn [bindP].
    apply (IH (fun k => P (Datatypes.S k))); [assumption|].
    intros k s2 Hk Hp. destruct (Hstep (Datatypes.S k) s2 ltac:(lia) Hp) as [s3 [Hb3 H3]].
    exists s3. split; [|assumption].
    rewrite <- Hb3. f_equal. lia.
Qed.

Lemma blank_nonneg {A : Type} (n : Z) (x : A) :
  0 <= n -> blank n x = Some (replicate (Z.to_nat n) x).
Proof. intros H. unfold blank. destruct (Z.ltb_spec n 0); [lia | reflexivity]. Qed.

Lemma lookup_fmap_length {A : Type} (l : list (list A)) (i c : nat) :
  (length <$> l) !! i = Some c -> exists row, l !! i = Some row /\ length row = c.
Proof.
  rewrite list_lookup_fmap. destruct (l !! i) as [row|]; simpl; [|discriminate].
  intros [= <-]. eauto.
Qed.

Lemma fmap_length_insert_same {A : Type} (l : list (list A)) (i : nat) (row row' : list A) :
  l !! i = Some row -> length row' = length row ->
  length <$> <[i := row']> l = length <$> l.
Proof.
  intros Hrow Hlen. rewrite list_fmap_insert. apply list_insert_id.
  rewrite list_lookup_fmap, Hrow. simpl. congruence.
Qed.

(** [clear] keeps the row lengths and writes only cells: it succeeds as soon
    as, whenever its own test lets the write through, the cell exists in
    both grids. *)
Lemma clear_keeps_shape (y x : Z) (f : Format.t) (v : Screen.grid)
    (lc lf : list nat) :
  Screen.shape v = (lc, lf) ->
  0 <= y -> 0 <= x ->
  (forall c0 : nat, lc !! 0%nat = Some c0 -> x < Z.of_nat c0 ->
     y < Z.of_nat (length lc) ->
     exists cy fy : nat,
       lc !! Z.to_nat y = Some cy /\ lf !! Z.to_nat y = Some fy
       /\ x < Z.of_nat cy /\ x < Z.of_nat fy) ->
  exists v', Screen.clear y x f v = Some v'
             /\ Screen.shape v' = (lc, lf) /\ Screen.frame v' = Screen.frame v.
Proof.
  intros Hshape Hy Hx Hcell. unfold Screen.shape in Hshape.
  injection Hshape as Hlc Hlf.
  unfold Screen.clear. rewrite Z.geb_leb.
  destruct (Z.leb_spec (len (Screen.Content v)) y) as [Hge|Hlt].
  { exists v. unfold Screen.shape. rewrite Hlc, Hlf. auto. }
  assert (Hlen : length lc = length (Screen.Content v))
    by (rewrite <- Hlc; apply length_fmap).
  unfold len in Hlt.
  destruct (Screen.Content v !! 0%nat) as [row0|] eqn:Hrow0.
  2:{ apply lookup_ge_None in Hrow0. lia. }
  unfold index at 1. cbn [Z.ltb Z.compare]. change (Z.to_nat 0) with 0%nat.
  rewrite Hrow0. cbn [bindP]. rewrite Z.geb_leb.
  destruct (Z.leb_spec (len row0) x) as [Hxge|Hxlt].
  { exists v. unfold Screen.shape. rewrite Hlc, Hlf. auto. }
  destruct (Hcell (length row0)) as [cy [fy [Hcy [Hfy [Hxc Hxf]]]]].
  { rewrite <- Hlc, list_lookup_fmap, Hrow0. reflexivity. }
  { exact Hxlt. }
  { lia. }
  rewrite <- Hlc in Hcy. rewrite <- Hlf in Hfy.
  apply lookup_fmap_length in Hcy as [crow [Hcrow Hclen]].
  apply lookup_fmap_length in Hfy as [frow [Hfrow Hflen]].
  rewrite (store2_in_range _ y x crow)
    by (try (apply index_Some; split; assumption); unfold len; lia).
  cbn [bindP]. unfold Screen.with_Content at 1. cbn [Screen.Format].
  rewrite (store2_in_range _ y x frow)
    by (try (apply index_Some; split; assumption); unfold len; lia).
  cbn [bindP]. eexists. split; [reflexivity|].
  unfold Screen.shape, Screen.frame, Screen.with_Format, Screen.with_Content.
  cbn. split; [|reflexivity].
  rewrite (fmap_length_insert_same _ _ crow) by (try assumption; apply length_insert).
  rewrite (fmap_length_insert_same _ _ frow) by (try assumption; apply length_insert).
  rewrite Hlc, Hlf. reflexivity.
Qed.

(** A run of [clear]s along one row keeps the row lengths. *)
Lemma clear_run_keeps_shape (n : nat) (lo y0 : Z) (f : Format.t)
    (yf : Screen.grid -> Z) (v : Screen.grid) (lc lf : list nat) :
  Screen.shape v = (lc, lf) ->
  0 <= lo -> 0 <= y0 ->
  (forall v', Screen.frame v' = Screen.frame v -> yf v' = y0) ->
  (forall (c0 : nat) (x : Z), lc !! 0%nat = Some c0 -> x < Z.of_nat c0 ->
     y0 < Z.of_nat (length lc) ->
     exists cy fy : nat,
       lc !! Z.to_nat y0 = Some cy /\ lf !! Z.to_nat y0 = Some fy
       /\ x < Z.of_nat cy /\ x < Z.of_nat fy) ->
  exists v', loop_up n lo (fun col v => Screen.clear (yf v) col f v) v = Some v'
             /\ Screen.shape v' = (lc, lf) /\ Screen.frame v' = Screen.frame v.
Proof.
  intros Hshape Hlo Hy0 Hyf Hcell.
  apply (loop_up_invariant
           (fun _ v' => Screen.shape v' = (lc, lf) /\ Screen.frame v' = Screen.frame v)).
  - auto.
  - intros k v1 _ [Hs1 Hf1]. rewrite (Hyf v1 Hf1).
    destruct (clear_keeps_shape y0 (lo + Z.of_nat k) f v1 lc lf) as [v2 [Hc [Hs2 Hf2]]];
      [assumption | lia | lia | |].
    + intros c0 Hc0 Hx Hy. apply (Hcell c0); assumption.
    + exists v2. split; [assumption|]. split; [assumption|]. congruence.
Qed.

Lemma replicate_cell (n W : nat) (y x : Z) (c0 : nat) :
  replicate n W !! 0%nat = Some c0 -> x < Z.of_nat c0 ->
  y < Z.of_nat (length (replicate n W)) -> 0 <= y ->
  exists cy fy : nat,
    replicate n W !! Z.to_nat y = Some cy /\ replicate n W !! Z.to_nat y = Some fy
    /\ x < Z.of_nat cy /\ x < Z.of_nat fy.
Proof.
  intros Hc0 Hx Hy Hy0. rewrite length_replicate in Hy.
  apply lookup_replicate in Hc0 as [-> _].
  exists W, W. rewrite lookup_replicate_2 by lia. auto.
Qed.

Lemma forallb_len_replicate {A : Type} (l : list (list A)) (w : Z) :
  forallb (fun row => len row =? w) l = true ->
  length <$> l = replicate (length l) (Z.to_nat w).
Proof.
  induction l as [|row l IH]; [reflexivity|].
  cbn [forallb length]. intros [Hrow Hl]%andb_true_iff. apply Z.eqb_eq in Hrow.
  rewrite fmap_cons, IH by assumption. cbn [replicate].
  f_equal. unfold len in Hrow. lia.
Qed.

Lemma regular_shape (s : Screen.grid) :
  Screen.regular s = true ->
  exists H W : nat,
    Screen.Height s = Z.of_nat H /\ Screen.Width s = Z.of_nat W
    /\ Screen.shape s = (replicate H W, replicate H W).
Proof.
  unfold Screen.regular. rewrite !andb_true_iff.
  intros [[[[Hw Hc] Hf] Hrc] Hrf].
  apply Z.leb_le in Hw. apply Z.eqb_eq in Hc, Hf. unfold len in Hc, Hf.
  exists (Z.to_nat (Screen.Height s)), (Z.to_nat (Screen.Width s)).
  split; [lia|]. split; [lia|]. unfold Screen.shape.
  rewrite (forallb_len_replicate _ _ Hrc), (forallb_len_replicate _ _ Hrf).
  do 2 f_equal; f_equal; lia.
Qed.

Lemma shape_sized (s : Screen.grid) (h w : Z) :
  0 <= h -> 0 <= w ->
  Screen.shape s = (replicate (Z.to_nat h) (Z.to_nat w),
                    replicate (Z.to_nat h) (Z.to_nat w)) ->
  Screen.sized h w s.
Proof.
  intros Hh Hw Hshape. unfold Screen.shape in Hshape. injection Hshape as Hc Hf.
  assert (Hgen : forall (A : Type) (l : list (list A)),
             length <$> l = replicate (Z.to_nat h) (Z.to_nat w) ->
             len l = h /\ Forall (fun row => len row = w) l).
  { intros A l Hl. split.
    - unfold len. rewrite <- (length_fmap length l), Hl, length_replicate. lia.
    - apply Forall_lookup. intros i row Hrow.
      assert (Hi : (length <$> l) !! i = Some (length row))
        by (rewrite list_lookup_fmap, Hrow; reflexivity).
      rewrite Hl in Hi. apply lookup_replicate in Hi as [Hi _].
      unfold len. lia. }
  destruct (Hgen _ _ Hc) as [? ?]. destruct (Hgen _ _ Hf) as [? ?].
  unfold Screen.sized. auto.
Qed.

Lemma frame_fields (v v' : Screen.grid) :
  Screen.frame v' = Screen.frame v ->
  Screen.Height v' = Screen.Height v /\ Screen.Width v' = Screen.Width v
  /\ Screen.Cursor v' = Screen.Cursor v.
Proof. unfold Screen.frame. intros [= -> -> -> _ _ _ _ _]. auto. Qed.

(** The first conditional brings both grids to [h] rows and keeps the
    length of the rows. *)
Lemma resizeRows_shape (h : Z) (v : Screen.grid) (H W : nat) :
  Screen.Height v = Z.of_nat H -> Screen.Width v = Z.of_nat W ->
  Screen.shape v = (replicate H W, replicate H W) ->
  0 <= h <= Int.max_int ->
  exists v1, Screen.resizeRows h v = Some v1
             /\ Screen.shape v1 = (replicate (Z.to_nat h) W, replicate (Z.to_nat h) W)
             /\ Screen.frame v1 = Screen.frame v.
Proof.
  intros HH HW Hshape Hh. unfold Int.max_int in Hh.
  unfold Screen.resizeRows. rewrite Z.gtb_ltb.
  destruct (Z.ltb_spec (Screen.Height v) h) as [Hgrow|Hnogrow].
  - rewrite sub_in_range
      by (unfold Int.in_range, Int.min_int, Int.max_int; lia).
    unfold for_lt at 1.
    destruct (loop_up_invariant
                (fun k v' => Screen.shape v' = (replicate (H + k) W, replicate (H + k) W)
                             /\ Screen.frame v' = Screen.frame v)
                (fun row v =>
                   let? crow := blank (Screen.Width v) 0 in
                   let v := Screen.with_Content (Screen.Content v ++ [crow]) v in
                   let? frow := blank (Screen.Width v) Format.zero in
                   let v := Screen.with_Format (Screen.Format v ++ [frow]) v in
                   for_lt 0 (Screen.Width v)
                     (fun col v =>
                        Screen.clear (Int.add (Screen.Height v) row) col Format.zero v) v)
                (Z.to_nat (h - Screen.Height v - 0)) 0 v) as [v1 [Hrun [Hs1 Hf1]]].
    + rewrite Nat.add_0_r. auto.
    + intros k v' Hk [Hs' Hf'].
      destruct (frame_fields _ _ Hf') as [HH' [HW' _]].
      rewrite HW', HW, blank_nonneg by lia. cbn [bindP].
      change (Screen.Width (Screen.with_Content ?c v')) with (Screen.Width v').
      rewrite HW', HW, blank_nonneg by lia. cbn [bindP].
      change (Screen.Width (Screen.with_Format ?f (Screen.with_Content ?c v')))
        with (Screen.Width v').
      rewrite HW', HW, Nat2Z.id.
      unfold Screen.shape in Hs'. injection Hs' as Hc' Hfm'.
      set (v2 := Screen.with_Format _ _).
      assert (Hs2 : Screen.shape v2
                    = (replicate (H + Datatypes.S k) W, replicate (H + Datatypes.S k) W)).
      { unfold Screen.shape, v2.
        cbn [Screen.Content Screen.Format Screen.with_Format Screen.with_Content].
        rewrite !fmap_app, Hc', Hfm'. cbn [fmap list_fmap]. rewrite !length_replicate.
        replace (H + Datatypes.S k)%nat with (Datatypes.S (H + k)) by lia.
        rewrite !replicate_S_end. reflexivity. }
      assert (Hf2 : Screen.frame v2 = Screen.frame v).
      { rewrite <- Hf'. reflexivity. }
      unfold for_lt.
      destruct (clear_run_keeps_shape (Z.to_nat (Z.of_nat W - 0)) 0
                  (Screen.Height v + (0 + Z.of_nat k)) Format.zero
                  (fun v => Int.add (Screen.Height v) (0 + Z.of_nat k)) v2 _ _ Hs2)
        as [v3 [Hrun3 [Hs3 Hf3]]].
      * lia.
      * lia.
      * intros v4 Hf4. destruct (frame_fields v v4) as [HH4 _]; [congruence|].
        rewrite HH4. apply add_in_range.
        unfold Int.in_range, Int.min_int, Int.max_int; lia.
      * intros c0 x Hc0 Hx Hy. eapply replicate_cell; try eassumption. lia.
      * exists v3. split; [exact Hrun3|]. split; [assumption | congruence].
    + exists v1. split; [exact Hrun|]. split; [|assumption].
      rewrite Hs1. do 2 f_equal; lia.
  - destruct (Z.ltb_spec h (Screen.Height v)) as [Hshrink|Hsame].
    + unfold Screen.shape in Hshape. injection Hshape as Hc Hfm.
      assert (HlenC : len (Screen.Content v) = Z.of_nat H).
      { unfold len. rewrite <- (length_fmap length), Hc, length_replicate. reflexivity. }
      assert (HlenF : len (Screen.Format v) = Z.of_nat H).
      { unfold len. rewrite <- (length_fmap length), Hfm, length_replicate. reflexivity. }
      unfold slice_to. cbn [Screen.with_Content Screen.Format].
      rewrite HlenC, HlenF.
      destruct (Z.leb_spec 0 h); [|lia]. destruct (Z.leb_spec h (Z.of_nat H)); [|lia].
      cbn [andb bindP]. eexists. split; [reflexivity|].
      split; [|reflexivity].
      unfold Screen.shape.
      cbn [Screen.with_Format Screen.with_Content Screen.Content Screen.Format].
      rewrite !fmap_take, Hc, Hfm, !take_replicate.
      do 2 f_equal; lia.
    + exists v. split; [reflexivity|]. split; [|reflexivity].
      rewrite Hshape. do 2 f_equal; lia.
Qed.

(** Row lengths while the second conditional runs: the first [k] rows have
    the new width, the others the old one. *)
Lemma boundary_lookup (k n w W : nat) :
  (k < n)%nat -> (replicate k w ++ replicate (n - k) W) !! k = Some W.
Proof.
  intros Hk. rewrite lookup_app_r by (rewrite length_replicate; lia).
  rewrite length_replicate. apply lookup_replicate_2. lia.
Qed.

Lemma boundary_insert (k n w W : nat) :
  (k < n)%nat ->
  <[k := w]> (replicate k w ++ replicate (n - k) W)
  = replicate (Datatypes.S k) w ++ replicate (n - Datatypes.S k) W.
Proof.
  intros Hk. rewrite insert_app_r_alt by (rewrite length_replicate; lia).
  rewrite length_replicate, Nat.sub_diag.
  rewrite (replicate_S_end k w), <- app_assoc. f_equal.
  replace (n - k)%nat with (Datatypes.S (n - Datatypes.S k)) by lia.
  reflexivity.
Qed.

Lemma boundary_cell (k n w W : nat) (y x : Z) (c0 : nat) :
  (k < n)%nat -> y = Z.of_nat k ->
  (replicate (Datatypes.S k) w ++ replicate (n - Datatypes.S k) W) !! 0%nat = Some c0 ->
  x < Z.of_nat c0 ->
  exists cy fy : nat,
    (replicate (Datatypes.S k) w ++ replicate (n - Datatypes.S k) W) !! Z.to_nat y = Some cy
    /\ (replicate (Datatypes.S k) w ++ replicate (n - Datatypes.S k) W) !! Z.to_nat y = Some fy
    /\ x < Z.of_nat cy /\ x < Z.of_nat fy.
Proof.
  intros Hk -> Hc0 Hx. rewrite Nat2Z.id.
  rewrite lookup_app_l in Hc0 by (rewrite length_replicate; lia).
  apply lookup_replicate in Hc0 as [-> _].
  exists w, w. rewrite lookup_app_l by (rewrite length_replicate; lia).
  rewrite lookup_replicate_2 by lia. auto.
Qed.

(** Replacing row [k] of both grids by rows of the new width moves the
    boundary by one. *)
Lemma replace_row_shape (v : Screen.grid) (k n w W : nat)
    (crow : list rune) (frow : list Format.t) :
  (k < n)%nat ->
  Screen.shape v = (replicate k w ++ replicate (n - k) W,
                    replicate k w ++ replicate (n - k) W) ->
  length crow = w -> length frow = w ->
  Screen.shape
    (Screen.with_Format (<[k := frow]> (Screen.Format v))
       (Screen.with_Content (<[k := crow]> (Screen.Content v)) v))
  = (replicate (Datatypes.S k) w ++ replicate (n - Datatypes.S k) W,
     replicate (Datatypes.S k) w ++ replicate (n - Datatypes.S k) W).
Proof.
  intros Hk Hshape Hc Hf. unfold Screen.shape in *.
  cbn [Screen.with_Format Screen.with_Content Screen.Content Screen.Format].
  injection Hshape as Hsc Hsf.
  rewrite !list_fmap_insert, Hsc, Hsf, Hc, Hf, boundary_insert by assumption.
  reflexivity.
Qed.

Lemma shape_lengths (v : Screen.grid) (lc lf : list nat) :
  Screen.shape v = (lc, lf) ->
  len (Screen.Content v) = Z.of_nat (length lc)
  /\ len (Screen.Format v) = Z.of_nat (length lf).
Proof.
  unfold Screen.shape. intros [= <- <-]. unfold len. rewrite !length_fmap. auto.
Qed.

Lemma shape_rows (v : Screen.grid) (lc lf : list nat) (k c : nat) :
  Screen.shape v = (lc, lf) -> lc !! k = Some c -> lf !! k = Some c ->
  exists (crow : list rune) (frow : list Format.t),
    index (Screen.Content v) (Z.of_nat k) = Some crow
    /\ index (Screen.Format v) (Z.of_nat k) = Some frow
    /\ length crow = c /\ length frow = c.
Proof.
  unfold Screen.shape. intros [= <- <-] Hc Hf.
  apply lookup_fmap_length in Hc as [crow [Hcrow Hclen]].
  apply lookup_fmap_length in Hf as [frow [Hfrow Hflen]].
  exists crow, frow. rewrite !index_Some, Nat2Z.id. repeat split; auto; lia.
Qed.

Lemma widen_length {A : Type} (w : Z) (zero : A) (old : list A) :
  0 <= w -> (length old <= Z.to_nat w)%nat ->
  exists row, Screen.widen w zero old = Some row /\ length row = Z.to_nat w.
Proof.
  intros Hw Hold. unfold Screen.widen. rewrite blank_nonneg by assumption. cbn [bindP].
  eexists. split; [reflexivity|].
  rewrite length_app, length_take, length_drop, length_replicate. lia.
Qed.

Lemma slice_to_length {A : Type} (w : Z) (old : list A) :
  0 <= w -> (Z.to_nat w <= length old)%nat ->
  exists row, slice_to old w = Some row /\ length row = Z.to_nat w.
Proof.
  intros Hw Hold. unfold slice_to, len.
  destruct (Z.leb_spec 0 w); [|lia].
  destruct (Z.leb_spec w (Z.of_nat (length old))); [|lia].
  cbn [andb]. eexists. split; [reflexivity|]. rewrite length_take. lia.
Qed.

(** The second conditional brings every row of both grids to [w] cells and
    keeps the number of rows. *)
Lemma resizeColumns_shape (w : Z) (v : Screen.grid) (n W : nat) :
  Screen.Width v = Z.of_nat W ->
  Screen.shape v = (replicate n W, replicate n W) ->
  0 <= w <= Int.max_int ->
  exists v2, Screen.resizeColumns w v = Some v2
             /\ Screen.shape v2 = (replicate n (Z.to_nat w), replicate n (Z.to_nat w))
             /\ Screen.frame v2 = Screen.frame v.
Proof.
  intros HW Hshape Hw. unfold Int.max_int in Hw.
  destruct (shape_lengths _ _ _ Hshape) as [HlenC _].
  rewrite length_replicate in HlenC.
  set (P := fun (k : nat) (v' : Screen.grid) =>
              Screen.shape v'
              = (replicate k (Z.to_nat w) ++ replicate (n - k) W,
                 replicate k (Z.to_nat w) ++ replicate (n - k) W)
              /\ Screen.frame v' = Screen.frame v).
  assert (HP0 : P 0%nat v).
  { unfold P. rewrite Nat.sub_0_r. auto. }
  assert (HPn : forall v2, P n v2 ->
            Screen.shape v2 = (replicate n (Z.to_nat w), replicate n (Z.to_nat w))
            /\ Screen.frame v2 = Screen.frame v).
  { unfold P. intros v2 [Hs Hf]. rewrite Nat.sub_diag in Hs. cbn [replicate] in Hs.
    rewrite app_nil_r in Hs. auto. }
  unfold Screen.resizeColumns. rewrite Z.gtb_ltb, HlenC.
  unfold for_lt at 1 3. rewrite Z.sub_0_r, Nat2Z.id.
  destruct (Z.ltb_spec (Screen.Width v) w) as [Hgrow|Hnogrow].
  - match goal with
    | |- exists v2, loop_up n 0 ?body v = Some v2 /\ _ =>
        destruct (loop_up_invariant P body n 0 v HP0) as [v2 [Hrun Hv2]]
    end.
    + intros k v' Hk [Hs' Hf'].
      destruct (frame_fields _ _ Hf') as [_ [HW' _]].
      rewrite Z.add_0_l.
      destruct (shape_rows v' _ _ k W Hs') as [crow [frow [Hcrow [Hfrow [Hclen Hflen]]]]];
        try (apply boundary_lookup; assumption).
      destruct (shape_lengths _ _ _ Hs') as [HlenC' HlenF'].
      rewrite length_app, !length_replicate in HlenC', HlenF'.
      rewrite Hcrow. cbn [bindP].
      assert (Hw0 : 0 <= w) by lia.
      assert (Hcw : (length crow <= Z.to_nat w)%nat) by lia.
      assert (Hfw : (length frow <= Z.to_nat w)%nat) by lia.
      destruct (widen_length w 0 crow Hw0 Hcw) as [crow' [Hwc Hwclen]].
      rewrite Hwc. cbn [bindP].
      rewrite store_in_range by lia. cbn [bindP].
      change (Screen.Format (Screen.with_Content ?c v')) with (Screen.Format v').
      rewrite Hfrow. cbn [bindP].
      destruct (widen_length w Format.zero frow Hw0 Hfw) as [frow' [Hwf Hwflen]].
      rewrite Hwf. cbn [bindP].
      rewrite store_in_range by lia. cbn [bindP].
      rewrite Nat2Z.id.
      pose proof (replace_row_shape v' k n (Z.to_nat w) W crow' frow' Hk Hs' Hwclen Hwflen)
        as Hs2.
      set (v2 := Screen.with_Format _ _) in *.
      assert (Hf2 : Screen.frame v2 = Screen.frame v) by (rewrite <- Hf'; reflexivity).
      unfold for_lt.
      destruct (clear_run_keeps_shape (Z.to_nat (w - Screen.Width v2)) (Screen.Width v2)
                  (Z.of_nat k) Format.zero (fun _ => Z.of_nat k) v2 _ _ Hs2)
        as [v3 [Hrun3 [Hs3 Hf3]]].
      * destruct (frame_fields _ _ Hf2) as [_ [-> _]]. lia.
      * lia.
      * reflexivity.
      * intros c0 x Hc0 Hx _. eapply boundary_cell; try eassumption. reflexivity.
      * exists v3. split; [exact Hrun3|]. split; [assumption | congruence].
    + exists v2. split; [exact Hrun|]. apply HPn. exact Hv2.
  - destruct (Z.ltb_spec w (Screen.Width v)) as [Hshrink|Hsame].
    + match goal with
      | |- exists v2, loop_up n 0 ?body v = Some v2 /\ _ =>
          destruct (loop_up_invariant P body n 0 v HP0) as [v2 [Hrun Hv2]]
      end.
      * intros k v' Hk [Hs' Hf'].
        rewrite Z.add_0_l.
        destruct (shape_rows v' _ _ k W Hs') as [crow [frow [Hcrow [Hfrow [Hclen Hflen]]]]];
          try (apply boundary_lookup; assumption).
        destruct (shape_lengths _ _ _ Hs') as [HlenC' HlenF'].
        rewrite length_app, !length_replicate in HlenC', HlenF'.
        rewrite Hcrow. cbn [bindP].
        assert (Hw0 : 0 <= w) by lia.
        assert (Hcw : (Z.to_nat w <= length crow)%nat) by lia.
        assert (Hfw : (Z.to_nat w <= length frow)%nat) by lia.
        destruct (slice_to_length w crow Hw0 Hcw) as [crow' [Hwc Hwclen]].
        rewrite Hwc. cbn [bindP].
        rewrite store_in_range by lia. cbn [bindP].
        change (Screen.Format (Screen.with_Content ?c v')) with (Screen.Format v').
        rewrite Hfrow. cbn [bindP].
        destruct (slice_to_length w frow Hw0 Hfw) as [frow' [Hwf Hwflen]].
        rewrite Hwf. cbn [bindP].
        rewrite store_in_range by lia. cbn [bindP].
        rewrite Nat2Z.id.
        eexists. split; [reflexivity|]. split.
        -- apply replace_row_shape; assumption.
        -- rewrite <- Hf'. reflexivity.
      * exists v2. split; [exact Hrun|]. apply HPn. exact Hv2.
    + exists v. split; [reflexivity|]. split; [|reflexivity].
      rewrite Hshape. do 2 f_equal; lia.
Qed.

(** C2, as worded, fails when a screen of five rows with the cursor on the
    last one shrinks to three rows: the grid is cut to three rows, the
    cursor is still on row 4, and the [Height] field still reads 5. *)
Lemma C2_resize_does_not_clamp :
  exists s' : Screen.grid,
    Screen.resize 3 10 Scenario.bottom = Some s'
    /\ len (Screen.Content s') = 3
    /\ Cursor.Y (Screen.Cursor s') = 4
    /\ Screen.Height s' = 5
    /\ ~ Claimed.resized 3 10 s'.
Proof.
  eexists. split; [vm_compute; reflexivity|].
  split; [reflexivity|]. split; [reflexivity|]. split; [reflexivity|].
  unfold Claimed.resized. cbn [Screen.Cursor Cursor.Y].
  intros [_ [_ [_ [_ [[_ Hy] _]]]]]. lia.
Qed.

(** C2, amended.  On a screen whose grid agrees with its [Height] and
    [Width] fields, [resize(h, w)] for dimensions that are not negative
    returns without fault, leaves the rune grid and the format grid with
    [h] rows of [w] cells each, and leaves the cursor where it was: it is
    not clamped. *)
Theorem C2_resize_grid (h w : Z) (s : Screen.grid) :
  Screen.regular s = true ->
  0 <= h <= Int.max_int ->
  0 <= w <= Int.max_int ->
  exists s', Screen.resize h w s = Some s'
             /\ Screen.sized h w s'
             /\ Screen.Cursor s' = Screen.Cursor s.
Proof.
  intros Hreg Hh Hw.
  destruct (regular_shape s Hreg) as [H [W [HH [HW Hshape]]]].
  destruct (resizeRows_shape h s H W HH HW Hshape Hh) as [v1 [Hrows [Hs1 Hf1]]].
  destruct (frame_fields _ _ Hf1) as [_ [HW1 Hc1]].
  destruct (resizeColumns_shape w v1 (Z.to_nat h) W) as [v2 [Hcols [Hs2 Hf2]]];
    [congruence | assumption | assumption |].
  destruct (frame_fields _ _ Hf2) as [_ [_ Hc2]].
  exists v2. unfold Screen.resize. rewrite Hrows. cbn [bindP].
  split; [exact Hcols|]. split; [|congruence].
  apply shape_sized; [lia | lia | assumption].
Qed.

(** C2 at the blank grid of five rows and ten columns, resized to three
    rows and twelve columns. *)
Lemma C2_resize_grid_witness :
  exists s' : Screen.grid,
    Screen.resize 3 12 Scenario.bottom = Some s'
    /\ Screen.sized 3 12 s'
    /\ Screen.Cursor s' = Screen.Cursor Scenario.bottom.
Proof.
  apply (C2_resize_grid 3 12 Scenario.bottom).
  - reflexivity.
  - unfold Int.max_int. lia.
  - unfold Int.max_int. lia.
Defined.

(** * Further properties of the code

    The editors of [terminal.go] and the grid of the [Screen] source file,
    beyond what the specification states: what each moves, blanks and keeps,
    where it faults, and how the methods of the terminal compose them. *)

(** ** Reading and writing rows by index *)

Lemma index_None_iff {A : Type} (arr : list A) (i : Z) :
  index arr i = None <-> i < 0 \/ len arr <= i.
Proof.
  unfold index, len. destruct (Z.ltb_spec i 0).
  - split; [auto | reflexivity].
  - rewrite lookup_ge_None. lia.
Qed.

Lemma index_in_range {A : Type} (arr : list A) (i : Z) :
  0 <= i < len arr -> exists x, index arr i = Some x.
Proof.
  intros H. destruct (index arr i) as [x|] eqn:E; [eauto|].
  apply index_None_iff in E. lia.
Qed.

Lemma store_Some {A : Type} (arr arr' : list A) (i : Z) (x : A) :
  store arr i x = Some arr' ->
  0 <= i < len arr /\ arr' = <[Z.to_nat i := x]> arr.
Proof.
  unfold store. destruct (Z.leb_spec 0 i); [|discriminate].
  destruct (Z.ltb_spec i (len arr)); [|discriminate].
  cbn [andb]. intros [= <-]. auto.
Qed.

Lemma len_insert {A : Type} (arr : list A) (i : nat) (x : A) :
  len (<[i := x]> arr) = len arr.
Proof. unfold len. rewrite length_insert. reflexivity. Qed.

Lemma index_insert {A : Type} (arr : list A) (i j : Z) (x : A) :
  0 <= i < len arr ->
  index (<[Z.to_nat i := x]> arr) j = if j =? i then Some x else index arr j.
Proof.
  intros Hi. unfold index. destruct (Z.ltb_spec j 0).
  - destruct (Z.eqb_spec j i); [lia | reflexivity].
  - destruct (Z.eqb_spec j i) as [->|Hne].
    + apply list_lookup_insert_eq. unfold len in Hi. lia.
    + apply list_lookup_insert_ne. lia.
Qed.

(** A counted loop that returns has kept every property its body keeps. *)
Lemma loop_up_preserves {S : Type} (P : S -> Prop) (body : Z -> S -> option S) :
  (forall i s s', body i s = Some s' -> P s -> P s') ->
  forall (n : nat) (i : Z) (s s' : S),
    loop_up n i body s = Some s' -> P s -> P s'.
Proof.
  intros Hbody. induction n as [|n IH]; intros i s s'; cbn [loop_up].
  - intros [= <-]. auto.
  - destruct (body i s) as [s1|] eqn:E; cbn [bindP]; [|discriminate].
    intros Hrun HP. eapply IH; [exact Hrun|]. eapply Hbody; eassumption.
Qed.


Lemma loop_down_invariant {S : Type} (P : nat -> S -> Prop)
    (body : Z -> S -> option S) (n : nat) (hi : Z) (s : S) :
  P 0%nat s ->
  (forall (k : nat) (s : S), (k < n)%nat -> P k s ->
     exists s', body (hi - Z.of_nat k) s = Some s' /\ P (Datatypes.S k) s') ->
  exists s', loop_down n hi body s = Some s' /\ P n s'.
Proof.
  revert P hi s. induction n as [|n IH]; intros P hi s H0 Hstep.
  - exists s. split; [reflexivity | assumption].
  - destruct (Hstep 0%nat s ltac:(lia) H0) as [s1 [Hb H1]].
    rewrite Z.sub_0_r in Hb. cbn [loop_down]. rewrite Hb. cbn [bindP].
    apply (IH (fun k => P (Datatypes.S k))); [assumption|].
    intros k s2 Hk Hp. destruct (Hstep (Datatypes.S k) s2 ltac:(lia) Hp) as [s3 [Hb3 H3]].
    exists s3. split; [|assumption].
    rewrite <- Hb3. f_equal. lia.
Qed.

(** A loop whose last turn faults on every state the earlier turns can
    leave does not return. *)
Lemma loop_up_last_faults {S : Type} (P : S -> Prop) (body : Z -> S -> option S)
    (n : nat) (lo : Z) (s : S) :
  P s ->
  (forall i s s', body i s = Some s' -> P s -> P s') ->
  (forall s, P s -> body (lo + Z.of_nat n) s = None) ->
  loop_up (Datatypes.S n) lo body s = None.
Proof.
  revert lo s. induction n as [|n IH]; intros lo s HP Hkeep Hlast; cbn [loop_up].
  - rewrite Z.add_0_r in Hlast. rewrite Hlast by assumption. reflexivity.
  - destruct (body lo s) as [s1|] eqn:E; cbn [bindP]; [|reflexivity].
    apply IH; [eapply Hkeep; eassumption | assumption |].
    intros s2 HP2. rewrite <- (Hlast s2 HP2). f_equal. lia.
Qed.

(** ** The loops of the line editors, row by row *)

Ltac int_range := unfold Int.in_range, Int.min_int, Int.max_int in *; lia.

(** The loop that moves rows towards the top: rows [lo .. lo + n - 1] take
    the rows [p] below them. *)
Lemma shift_up_run {A : Type} (arr : list A) (lo p : Z) (n : nat) :
  Int.in_range (len arr) ->
  0 <= lo -> 0 < p ->
  ((0 < n)%nat -> lo + Z.of_nat n + p <= len arr) ->
  exists arr',
    loop_up n lo
      (fun i arr => let? src := index arr (Int.add i p) in store arr i src) arr
    = Some arr'
    /\ len arr' = len arr
    /\ forall j, index arr' j
                 = if (lo <=? j) && (j <? lo + Z.of_nat n)
                   then index arr (j + p) else index arr j.
Proof.
  intros Hrange Hlo Hp Hfit.
  apply (loop_up_invariant
           (fun k a => len a = len arr
                       /\ forall j, index a j
                                    = if (lo <=? j) && (j <? lo + Z.of_nat k)
                                      then index arr (j + p) else index arr j)).
  - split; [reflexivity|]. intros j.
    destruct (Z.leb_spec lo j), (Z.ltb_spec j (lo + Z.of_nat 0)); cbn [andb];
      try reflexivity; lia.
  - intros k a Hk [Hlen Hidx].
    assert (Hn : lo + Z.of_nat n + p <= len arr) by (apply Hfit; lia).
    rewrite add_in_range by int_range.
    destruct (index_in_range arr (lo + Z.of_nat k + p) ltac:(lia)) as [src Hsrc].
    rewrite Hidx.
    destruct (Z.leb_spec lo (lo + Z.of_nat k + p)),
             (Z.ltb_spec (lo + Z.of_nat k + p) (lo + Z.of_nat k)); try lia.
    cbn [andb]. rewrite Hsrc. cbn [bindP].
    rewrite store_in_range by lia.
    eexists. split; [reflexivity|]. split; [rewrite len_insert; assumption|].
    intros j. rewrite index_insert by lia. rewrite Hidx.
    destruct (Z.eqb_spec j (lo + Z.of_nat k)) as [->|Hne].
    + destruct (Z.leb_spec lo (lo + Z.of_nat k)),
               (Z.ltb_spec (lo + Z.of_nat k) (lo + Z.of_nat (Datatypes.S k)));
        try lia. cbn [andb]. congruence.
    + destruct (Z.leb_spec lo j), (Z.ltb_spec j (lo + Z.of_nat k)),
               (Z.ltb_spec j (lo + Z.of_nat (Datatypes.S k)));
        cbn [andb]; try reflexivity; lia.
Qed.

(** The loop that moves rows towards the bottom: rows [hi - n + 1 .. hi]
    take the rows [p] above them. *)
Lemma shift_down_run {A : Type} (arr : list A) (hi p : Z) (n : nat) :
  Int.in_range (len arr) ->
  hi < len arr -> 0 < p ->
  ((0 < n)%nat -> 0 <= hi - Z.of_nat n + 1 - p) ->
  exists arr',
    loop_down n hi
      (fun i arr => let? src := index arr (Int.sub i p) in store arr i src) arr
    = Some arr'
    /\ len arr' = len arr
    /\ forall j, index arr' j
                 = if (hi - Z.of_nat n <? j) && (j <=? hi)
                   then index arr (j - p) else index arr j.
Proof.
  intros Hrange Hhi Hp Hfit.
  apply (loop_down_invariant
           (fun k a => len a = len arr
                       /\ forall j, index a j
                                    = if (hi - Z.of_nat k <? j) && (j <=? hi)
                                      then index arr (j - p) else index arr j)).
  - split; [reflexivity|]. intros j.
    destruct (Z.ltb_spec (hi - Z.of_nat 0) j), (Z.leb_spec j hi); cbn [andb];
      try reflexivity; lia.
  - intros k a Hk [Hlen Hidx].
    assert (Hn : 0 <= hi - Z.of_nat n + 1 - p) by (apply Hfit; lia).
    rewrite sub_in_range by int_range.
    destruct (index_in_range arr (hi - Z.of_nat k - p) ltac:(lia)) as [src Hsrc].
    rewrite Hidx.
    destruct (Z.ltb_spec (hi - Z.of_nat k) (hi - Z.of_nat k - p)); try lia.
    cbn [andb]. rewrite Hsrc. cbn [bindP].
    rewrite store_in_range by lia.
    eexists. split; [reflexivity|]. split; [rewrite len_insert; assumption|].
    intros j. rewrite index_insert by lia. rewrite Hidx.
    destruct (Z.eqb_spec j (hi - Z.of_nat k)) as [->|Hne].
    + destruct (Z.ltb_spec (hi - Z.of_nat (Datatypes.S k)) (hi - Z.of_nat k)),
               (Z.leb_spec (hi - Z.of_nat k) hi); try lia.
      cbn [andb]. congruence.
    + destruct (Z.ltb_spec (hi - Z.of_nat k) j), (Z.leb_spec j hi),
               (Z.ltb_spec (hi - Z.of_nat (Datatypes.S k)) j);
        cbn [andb]; try reflexivity; lia.
Qed.

(** The loop that blanks rows [lo .. lo + n - 1], each to its own length. *)
Lemma blank_run {A : Type} (arr : list (list A)) (lo : Z) (n : nat) (empty : A) :
  0 <= lo -> lo + Z.of_nat n <= len arr ->
  exists arr',
    loop_up n lo
      (fun i arr =>
         let? row := index arr i in store arr i (replicate (length row) empty)) arr
    = Some arr'
    /\ len arr' = len arr
    /\ forall j, index arr' j
                 = if (lo <=? j) && (j <? lo + Z.of_nat n)
                   then (fun row => replicate (length row) empty) <$> index arr j
                   else index arr j.
Proof.
  intros Hlo Hfit.
  apply (loop_up_invariant
           (fun k a => len a = len arr
                       /\ forall j, index a j
                                    = if (lo <=? j) && (j <? lo + Z.of_nat k)
                                      then (fun row => replicate (length row) empty)
                                             <$> index arr j
                                      else index arr j)).
  - split; [reflexivity|]. intros j.
    destruct (Z.leb_spec lo j), (Z.ltb_spec j (lo + Z.of_nat 0)); cbn [andb];
      try reflexivity; lia.
  - intros k a Hk [Hlen Hidx].
    destruct (index_in_range arr (lo + Z.of_nat k) ltac:(lia)) as [row Hrow].
    rewrite Hidx.
    destruct (Z.ltb_spec (lo + Z.of_nat k) (lo + Z.of_nat k)); try lia.
    rewrite andb_false_r, Hrow. cbn [bindP].
    rewrite store_in_range by lia.
    eexists. split; [reflexivity|]. split; [rewrite len_insert; assumption|].
    intros j. rewrite index_insert by lia. rewrite Hidx.
    destruct (Z.eqb_spec j (lo + Z.of_nat k)) as [->|Hne].
    + destruct (Z.leb_spec lo (lo + Z.of_nat k)),
               (Z.ltb_spec (lo + Z.of_nat k) (lo + Z.of_nat (Datatypes.S k)));
        try lia. cbn [andb]. rewrite Hrow. reflexivity.
    + destruct (Z.leb_spec lo j), (Z.ltb_spec j (lo + Z.of_nat k)),
               (Z.ltb_spec j (lo + Z.of_nat (Datatypes.S k)));
        cbn [andb]; try reflexivity; lia.
Qed.

(** The loop that sets rows [lo .. lo + n - 1] to one value. *)
Lemma init_run {A : Type} (arr : list A) (lo : Z) (n : nat) (init : A) :
  0 <= lo -> lo + Z.of_nat n <= len arr ->
  exists arr',
    loop_up n lo (fun i arr => store arr i init) arr = Some arr'
    /\ len arr' = len arr
    /\ forall j, index arr' j
                 = if (lo <=? j) && (j <? lo + Z.of_nat n)
                   then Some init else index arr j.
Proof.
  intros Hlo Hfit.
  apply (loop_up_invariant
           (fun k a => len a = len arr
                       /\ forall j, index a j
                                    = if (lo <=? j) && (j <? lo + Z.of_nat k)
                                      then Some init else index arr j)).
  - split; [reflexivity|]. intros j.
    destruct (Z.leb_spec lo j), (Z.ltb_spec j (lo + Z.of_nat 0)); cbn [andb];
      try reflexivity; lia.
  - intros k a Hk [Hlen Hidx].
    rewrite store_in_range by lia.
    eexists. split; [reflexivity|]. split; [rewrite len_insert; assumption|].
    intros j. rewrite index_insert by lia. rewrite Hidx.
    destruct (Z.eqb_spec j (lo + Z.of_nat k)) as [->|Hne].
    + destruct (Z.leb_spec lo (lo + Z.of_nat k)),
               (Z.ltb_spec (lo + Z.of_nat k) (lo + Z.of_nat (Datatypes.S k)));
        try lia. reflexivity.
    + destruct (Z.leb_spec lo j), (Z.ltb_spec j (lo + Z.of_nat k)),
               (Z.ltb_spec j (lo + Z.of_nat (Datatypes.S k)));
        cbn [andb]; try reflexivity; lia.
Qed.

Ltac split_tests :=
  repeat match goal with
         | |- context [Z.leb ?a ?b] => destruct (Z.leb_spec a b)
         | |- context [Z.ltb ?a ?b] => destruct (Z.ltb_spec a b)
         end;
  cbn [andb orb]; try reflexivity; try lia.

Lemma scroll_invalid_false {A : Type} (arr : list A) (p start end_ : Z) :
  0 <= start < end_ -> end_ <= len arr -> 0 < p ->
  scroll_invalid arr p start end_ = false.
Proof.
  intros Hs He Hp. unfold scroll_invalid. rewrite Z.gtb_ltb, Z.geb_leb. split_tests.
Qed.

(** ** Scrolling, row by row *)

Lemma scrollUp_shift {T : Type} (arr : list (list T)) (p start end_ : Z) (empty : T) :
  Int.in_range (len arr) ->
  0 <= start < end_ -> end_ < len arr ->
  1 <= p <= end_ + 1 ->
  exists arr',
    scrollUp arr p start end_ empty = Some arr'
    /\ Rows.shifted arr arr' start (end_ - p) p (end_ - p + 1) end_
         (fun j => Rows.blanked empty <$> index arr j).
Proof.
  intros Hrange Hs He Hp. unfold scrollUp, Rows.shifted.
  rewrite scroll_invalid_false by lia.
  rewrite (add_in_range end_ 1) by int_range.
  rewrite !sub_in_range by int_range.
  rewrite add_in_range by int_range.
  unfold for_lt, for_le.
  destruct (shift_up_run arr start p (Z.to_nat (end_ + 1 - p - start)))
    as [arr1 [Hrun1 [Hlen1 Hidx1]]]; [assumption | lia | lia | lia |].
  rewrite Hrun1. cbn [bindP].
  destruct (blank_run arr1 (end_ - p + 1) (Z.to_nat (end_ - (end_ - p + 1) + 1)) empty)
    as [arr2 [Hrun2 [Hlen2 Hidx2]]]; [lia | lia |].
  exists arr2. split; [exact Hrun2|]. split; [congruence|].
  intros j. rewrite Hidx2, !Hidx1. split_tests.
Qed.

(** X1.  [scrollUp] on rows [start .. end_] that exist, by [p] lines with
    [1 <= p <= end_ + 1]: the rows of the range that have a row [p] below
    them in the range take it, the [p] rows that end at [end_] become blank
    rows of their own length, every other row and the number of rows stay.
    When [p] exceeds the height of the range, the blanking reaches the rows
    above [start]. *)
Theorem scrollUp_rows {T : Type} (arr : list (list T)) (p start end_ : Z) (empty : T) :
  Int.in_range (len arr) ->
  0 <= start < end_ -> end_ < len arr ->
  1 <= p <= end_ + 1 ->
  exists arr',
    scrollUp arr p start end_ empty = Some arr'
    /\ Rows.shifted arr arr' start (end_ - p) p (end_ - p + 1) end_
         (fun j => Rows.blanked empty <$> index arr j).
Proof. apply scrollUp_shift. Qed.

Lemma scrollUpShallow_shift {T : Type} (arr : list T) (p start end_ : Z) (init : T) :
  Int.in_range (len arr) ->
  0 <= start < end_ -> end_ < len arr ->
  1 <= p <= end_ + 1 ->
  exists arr',
    scrollUpShallow arr p start end_ init = Some arr'
    /\ Rows.shifted arr arr' start (end_ - p) p (end_ - p + 1) end_
         (fun _ => Some init).
Proof.
  intros Hrange Hs He Hp. unfold scrollUpShallow, Rows.shifted.
  rewrite scroll_invalid_false by lia.
  rewrite (add_in_range end_ 1) by int_range.
  rewrite !sub_in_range by int_range.
  rewrite add_in_range by int_range.
  unfold for_lt, for_le.
  destruct (shift_up_run arr start p (Z.to_nat (end_ + 1 - p - start)))
    as [arr1 [Hrun1 [Hlen1 Hidx1]]]; [assumption | lia | lia | lia |].
  rewrite Hrun1. cbn [bindP].
  destruct (init_run arr1 (end_ - p + 1) (Z.to_nat (end_ - (end_ - p + 1) + 1)) init)
    as [arr2 [Hrun2 [Hlen2 Hidx2]]]; [lia | lia |].
  exists arr2. split; [exact Hrun2|]. split; [congruence|].
  intros j. rewrite Hidx2. split_tests; rewrite Hidx1; split_tests.
Qed.

(** X2.  [scrollUpShallow] under the same conditions: the same move, and the
    [p] entries that end at [end_] are the initial value. *)
Theorem scrollUpShallow_rows {T : Type} (arr : list T) (p start end_ : Z) (init : T) :
  Int.in_range (len arr) ->
  0 <= start < end_ -> end_ < len arr ->
  1 <= p <= end_ + 1 ->
  exists arr',
    scrollUpShallow arr p start end_ init = Some arr'
    /\ Rows.shifted arr arr' start (end_ - p) p (end_ - p + 1) end_
         (fun _ => Some init).
Proof. apply scrollUpShallow_shift. Qed.

Lemma scrollDown_shift {T : Type} (arr : list (list T)) (p start end_ : Z) (empty : T) :
  Int.in_range (len arr) ->
  0 <= start < end_ -> end_ < len arr ->
  1 <= p -> start + p <= len arr ->
  exists arr',
    scrollDown arr p start end_ empty = Some arr'
    /\ Rows.shifted arr arr' (start + p) end_ (- p) start (start + p - 1)
         (fun j => Rows.blanked empty <$> index arr j).
Proof.
  intros Hrange Hs He Hp Hfit. unfold scrollDown, Rows.shifted.
  rewrite scroll_invalid_false by lia.
  rewrite !add_in_range by int_range.
  unfold for_lt, for_ge.
  destruct (shift_down_run arr end_ p (Z.to_nat (end_ - (start + p) + 1)))
    as [arr1 [Hrun1 [Hlen1 Hidx1]]]; [assumption | lia | lia | lia |].
  rewrite Hrun1. cbn [bindP].
  destruct (blank_run arr1 start (Z.to_nat (start + p - start)) empty)
    as [arr2 [Hrun2 [Hlen2 Hidx2]]]; [lia | lia |].
  exists arr2. split; [exact Hrun2|]. split; [congruence|].
  intros j. rewrite Hidx2, !Hidx1. split_tests.
Qed.

(** X3.  [scrollDown] on rows [start .. end_] that exist, by [p] lines with
    [1 <= p] and [start + p <= len(arr)]: the rows of the range that have a
    row [p] above them in the range take it, the [p] rows that start at
    [start] become blank rows of their own length, every other row and the
    number of rows stay.  When [p] exceeds the height of the range, the
    blanking reaches the rows below [end_]. *)
Theorem scrollDown_rows {T : Type} (arr : list (list T)) (p start end_ : Z) (empty : T) :
  Int.in_range (len arr) ->
  0 <= start < end_ -> end_ < len arr ->
  1 <= p -> start + p <= len arr ->
  exists arr',
    scrollDown arr p start end_ empty = Some arr'
    /\ Rows.shifted arr arr' (start + p) end_ (- p) start (start + p - 1)
         (fun j => Rows.blanked empty <$> index arr j).
Proof. apply scrollDown_shift. Qed.

Lemma scrollDownShallow_shift {T : Type} (arr : list T) (p start end_ : Z) (init : T) :
  Int.in_range (len arr) ->
  0 <= start < end_ -> end_ < len arr ->
  1 <= p -> start + p <= len arr ->
  exists arr',
    scrollDownShallow arr p start end_ init = Some arr'
    /\ Rows.shifted arr arr' (start + p) end_ (- p) start (start + p - 1)
         (fun _ => Some init).
Proof.
  intros Hrange Hs He Hp Hfit. unfold scrollDownShallow, Rows.shifted.
  rewrite scroll_invalid_false by lia.
  rewrite !add_in_range by int_range.
  unfold for_lt, for_ge.
  destruct (shift_down_run arr end_ p (Z.to_nat (end_ - (start + p) + 1)))
    as [arr1 [Hrun1 [Hlen1 Hidx1]]]; [assumption | lia | lia | lia |].
  rewrite Hrun1. cbn [bindP].
  destruct (init_run arr1 start (Z.to_nat (start + p - start)) init)
    as [arr2 [Hrun2 [Hlen2 Hidx2]]]; [lia | lia |].
  exists arr2. split; [exact Hrun2|]. split; [congruence|].
  intros j. rewrite Hidx2. split_tests; rewrite Hidx1; split_tests.
Qed.

(** X4.  [scrollDownShallow] under the same conditions: the same move, and
    the [p] entries that start at [start] are the initial value. *)
Theorem scrollDownShallow_rows {T : Type} (arr : list T) (p start end_ : Z) (init : T) :
  Int.in_range (len arr) ->
  0 <= start < end_ -> end_ < len arr ->
  1 <= p -> start + p <= len arr ->
  exists arr',
    scrollDownShallow arr p start end_ init = Some arr'
    /\ Rows.shifted arr arr' (start + p) end_ (- p) start (start + p - 1)
         (fun _ => Some init).
Proof. apply scrollDownShallow_shift. Qed.

Lemma lines_invalid_false {A : Type} (arr : list A) (start ps : Z) :
  Int.in_range (len arr) ->
  0 <= start -> 0 < ps -> start + ps <= len arr ->
  lines_invalid arr start ps = false.
Proof.
  intros Hr Hs Hp Hfit. unfold lines_invalid.
  rewrite add_in_range by int_range. rewrite Z.gtb_ltb. split_tests.
Qed.

(** ** Inserting and deleting lines, row by row *)

Lemma insertLines_shift {T : Type} (arr : list (list T))
    (start ps scrollStart scrollEnd : Z) (empty : T) :
  Int.in_range (len arr) ->
  0 <= start -> 1 <= ps -> start + ps <= len arr -> scrollEnd < len arr ->
  exists arr',
    insertLines arr start ps scrollStart scrollEnd empty = Some arr'
    /\ Rows.shifted arr arr' (start + ps) scrollEnd (- ps) start (start + ps - 1)
         (fun j => Rows.blanked empty <$> index arr j).
Proof.
  intros Hrange Hs Hp Hfit He. unfold insertLines, Rows.shifted.
  rewrite lines_invalid_false by (try assumption; lia).
  rewrite !add_in_range by int_range.
  unfold for_lt, for_ge.
  destruct (shift_down_run arr scrollEnd ps (Z.to_nat (scrollEnd - (start + ps) + 1)))
    as [arr1 [Hrun1 [Hlen1 Hidx1]]]; [assumption | lia | lia | lia |].
  rewrite Hrun1. cbn [bindP].
  destruct (blank_run arr1 start (Z.to_nat (start + ps - start)) empty)
    as [arr2 [Hrun2 [Hlen2 Hidx2]]]; [lia | lia |].
  exists arr2. split; [exact Hrun2|]. split; [congruence|].
  intros j. rewrite Hidx2, !Hidx1. split_tests.
Qed.

(** X5.  [insertLines] of [ps >= 1] lines at row [start], when rows
    [start .. start + ps - 1] exist and [scrollEnd] is a row: the rows from
    [start] that still fit above [scrollEnd] move down by [ps], the [ps]
    rows that start at [start] become blank rows of their own length, every
    other row and the number of rows stay.  [scrollStart] plays no part. *)
Theorem insertLines_rows {T : Type} (arr : list (list T))
    (start ps scrollStart scrollEnd : Z) (empty : T) :
  Int.in_range (len arr) ->
  0 <= start -> 1 <= ps -> start + ps <= len arr -> scrollEnd < len arr ->
  exists arr',
    insertLines arr start ps scrollStart scrollEnd empty = Some arr'
    /\ Rows.shifted arr arr' (start + ps) scrollEnd (- ps) start (start + ps - 1)
         (fun j => Rows.blanked empty <$> index arr j).
Proof. apply insertLines_shift. Qed.

Lemma insertLinesShallow_shift {T : Type} (arr : list T)
    (start ps scrollStart scrollEnd : Z) (init : T) :
  Int.in_range (len arr) ->
  0 <= start -> 1 <= ps -> start + ps <= len arr -> scrollEnd < len arr ->
  exists arr',
    insertLinesShallow arr start ps scrollStart scrollEnd init = Some arr'
    /\ Rows.shifted arr arr' (start + ps) scrollEnd (- ps) start (start + ps - 1)
         (fun _ => Some init).
Proof.
  intros Hrange Hs Hp Hfit He. unfold insertLinesShallow, Rows.shifted.
  rewrite lines_invalid_false by (try assumption; lia).
  rewrite !add_in_range by int_range.
  unfold for_lt, for_ge.
  destruct (shift_down_run arr scrollEnd ps (Z.to_nat (scrollEnd - (start + ps) + 1)))
    as [arr1 [Hrun1 [Hlen1 Hidx1]]]; [assumption | lia | lia | lia |].
  rewrite Hrun1. cbn [bindP].
  destruct (init_run arr1 start (Z.to_nat (start + ps - start)) init)
    as [arr2 [Hrun2 [Hlen2 Hidx2]]]; [lia | lia |].
  exists arr2. split; [exact Hrun2|]. split; [congruence|].
  intros j. rewrite Hidx2. split_tests; rewrite Hidx1; split_tests.
Qed.

(** X6.  [insertLinesShallow] under the same conditions: the same move, and
    the [ps] entries that start at [start] are the initial value. *)
Theorem insertLinesShallow_rows {T : Type} (arr : list T)
    (start ps scrollStart scrollEnd : Z) (init : T) :
  Int.in_range (len arr) ->
  0 <= start -> 1 <= ps -> start + ps <= len arr -> scrollEnd < len arr ->
  exists arr',
    insertLinesShallow arr start ps scrollStart scrollEnd init = Some arr'
    /\ Rows.shifted arr arr' (start + ps) scrollEnd (- ps) start (start + ps - 1)
         (fun _ => Some init).
Proof. apply insertLinesShallow_shift. Qed.

(** [copy(arr[a:b], arr[c:])], entry by entry. *)
Lemma copy_within_index {A : Type} (arr : list A) (a b c : Z) :
  0 <= a <= b -> b <= len arr -> a <= c <= len arr ->
  exists arr',
    copy_within arr a b c = Some arr'
    /\ len arr' = len arr
    /\ forall j, index arr' j
                 = if (a <=? j) && (j <? a + Z.min (b - a) (len arr - c))
                   then index arr (j + (c - a)) else index arr j.
Proof.
  intros Ha Hb Hc. unfold copy_within.
  destruct (Z.leb_spec 0 a); [|lia]. destruct (Z.leb_spec a b); [|lia].
  destruct (Z.leb_spec b (len arr)); [|lia]. destruct (Z.leb_spec 0 c); [|lia].
  destruct (Z.leb_spec c (len arr)); [|lia]. cbn [andb].
  set (n := Z.to_nat (Z.min (b - a) (len arr - c))).
  eexists. split; [reflexivity|].
  assert (Hn : Z.of_nat n = Z.min (b - a) (len arr - c)) by (unfold n; lia).
  assert (Hlens : length (take (Z.to_nat a) arr) = Z.to_nat a
                  /\ length (take n (drop (Z.to_nat c) arr)) = n).
  { rewrite !length_take, length_drop. unfold len in *. lia. }
  destruct Hlens as [Hl1 Hl2].
  split.
  - unfold len in *. rewrite !length_app, Hl1, Hl2, length_drop. lia.
  - intros j. unfold index. destruct (Z.ltb_spec j 0) as [Hneg|Hpos].
    + rewrite <- Hn. split_tests.
    + rewrite <- Hn.
      destruct (Z.leb_spec a j) as [Haj|Haj]; cbn [andb].
      * destruct (Z.ltb_spec j (a + Z.of_nat n)) as [Hjn|Hjn].
        -- destruct (Z.ltb_spec (j + (c - a)) 0); [lia|].
           rewrite lookup_app_r by lia. rewrite Hl1.
           rewrite lookup_app_l by lia.
           rewrite lookup_take_lt by lia. rewrite lookup_drop. f_equal. lia.
        -- rewrite lookup_app_r by lia. rewrite Hl1.
           rewrite lookup_app_r by lia. rewrite Hl2.
           rewrite lookup_drop. f_equal. lia.
      * rewrite lookup_app_l by lia. apply lookup_take_lt. lia.
Qed.

(** The loop of [deleteLines] that blanks rows [lo .. lo + n - 1] to the
    length of row [start]: the length of that row does not change on the
    way, even when the loop passes over it. *)
Lemma blank_like_run {A : Type} (arr : list (list A)) (lo start : Z) (n : nat)
    (first : list A) (empty : A) :
  0 <= lo -> lo + Z.of_nat n <= len arr ->
  index arr start = Some first ->
  exists arr',
    loop_up n lo
      (fun i arr =>
         let? first := index arr start in
         store arr i (replicate (length first) empty)) arr
    = Some arr'
    /\ len arr' = len arr
    /\ forall j, index arr' j
                 = if (lo <=? j) && (j <? lo + Z.of_nat n)
                   then Some (replicate (length first) empty) else index arr j.
Proof.
  intros Hlo Hfit Hfirst.
  destruct (loop_up_invariant
           (fun k a => len a = len arr
                       /\ (exists f, index a start = Some f /\ length f = length first)
                       /\ forall j, index a j
                                    = if (lo <=? j) && (j <? lo + Z.of_nat k)
                                      then Some (replicate (length first) empty)
                                      else index arr j)
           (fun i arr =>
              let? first := index arr start in
              store arr i (replicate (length first) empty)) n lo arr)
    as [arr' [Hrun [Hlen [_ Hidx]]]].
  - split; [reflexivity|]. split; [eauto|]. intros j. split_tests.
  - intros k a Hk [Hlen [[f [Hf Hflen]] Hidx]].
    rewrite Hf. cbn [bindP]. rewrite store_in_range by lia.
    eexists. split; [reflexivity|]. split; [rewrite len_insert; assumption|].
    split.
    + rewrite index_insert by lia.
      destruct (Z.eqb_spec start (lo + Z.of_nat k)).
      * eexists. split; [reflexivity|]. rewrite length_replicate. assumption.
      * eauto.
    + intros j. rewrite index_insert by lia. rewrite Hidx, Hflen.
      destruct (Z.eqb_spec j (lo + Z.of_nat k)) as [->|Hne]; split_tests.
  - exists arr'. auto.
Qed.

Lemma deleteLines_shift {T : Type} (arr : list (list T))
    (start ps scrollStart scrollEnd : Z) (empty : T) :
  Int.in_range (len arr) ->
  0 <= start -> 1 <= ps <= scrollEnd - start -> scrollEnd < len arr ->
  exists arr',
    deleteLines arr start ps scrollStart scrollEnd empty = Some arr'
    /\ Rows.shifted arr arr' start (scrollEnd - ps) ps (scrollEnd - ps + 1) scrollEnd
         (fun _ => Rows.blanked empty <$> index arr (start + ps)).
Proof.
  intros Hrange Hs Hp He. unfold deleteLines, Rows.shifted.
  rewrite lines_invalid_false by (try assumption; lia).
  rewrite (add_in_range start ps), (add_in_range scrollEnd 1) by int_range.
  rewrite sub_in_range by int_range. rewrite add_in_range by int_range.
  destruct (copy_within_index arr start scrollEnd (start + ps))
    as [arr1 [Hrun1 [Hlen1 Hidx1]]]; [lia | lia | lia |].
  rewrite Hrun1. cbn [bindP].
  destruct (index_in_range arr (start + ps) ltac:(lia)) as [moved Hmoved].
  assert (Hfirst : index arr1 start = Some moved).
  { rewrite Hidx1. replace (start + (start + ps - start)) with (start + ps) by lia.
    rewrite <- Hmoved. split_tests. }
  unfold for_lt.
  destruct (blank_like_run arr1 (scrollEnd - ps + 1) start
              (Z.to_nat (scrollEnd + 1 - (scrollEnd - ps + 1))) moved empty)
    as [arr2 [Hrun2 [Hlen2 Hidx2]]]; [lia | lia | assumption |].
  exists arr2. split; [exact Hrun2|]. split; [congruence|].
  intros j. rewrite Hidx2, Hidx1, Hmoved. cbn [fmap option_fmap option_map].
  replace (j + (start + ps - start)) with (j + ps) by lia.
  split_tests.
Qed.

(** X7.  [deleteLines] of [ps] lines at row [start], with
    [1 <= ps <= scrollEnd - start] and [scrollEnd] a row: the rows below
    the deleted ones, down to [scrollEnd], move up by [ps]; the [ps] rows
    that end at [scrollEnd] become blank rows, all of the length of the row
    that has moved to [start]; every other row and the number of rows
    stay. *)
Theorem deleteLines_rows {T : Type} (arr : list (list T))
    (start ps scrollStart scrollEnd : Z) (empty : T) :
  Int.in_range (len arr) ->
  0 <= start -> 1 <= ps <= scrollEnd - start -> scrollEnd < len arr ->
  exists arr',
    deleteLines arr start ps scrollStart scrollEnd empty = Some arr'
    /\ Rows.shifted arr arr' start (scrollEnd - ps) ps (scrollEnd - ps + 1) scrollEnd
         (fun _ => Rows.blanked empty <$> index arr (start + ps)).
Proof. apply deleteLines_shift. Qed.

Lemma deleteLinesShallow_shift {T : Type} (arr : list T)
    (start ps scrollStart scrollEnd : Z) (init : T) :
  Int.in_range (len arr) ->
  0 <= start -> 1 <= ps <= scrollEnd - start -> scrollEnd < len arr ->
  exists arr',
    deleteLinesShallow arr start ps scrollStart scrollEnd init = Some arr'
    /\ Rows.shifted arr arr' start (scrollEnd - ps) ps (scrollEnd - ps + 1) scrollEnd
         (fun _ => Some init).
Proof.
  intros Hrange Hs Hp He. unfold deleteLinesShallow, Rows.shifted.
  rewrite lines_invalid_false by (try assumption; lia).
  rewrite (add_in_range start ps), (add_in_range scrollEnd 1) by int_range.
  rewrite sub_in_range by int_range. rewrite add_in_range by int_range.
  destruct (copy_within_index arr start scrollEnd (start + ps))
    as [arr1 [Hrun1 [Hlen1 Hidx1]]]; [lia | lia | lia |].
  rewrite Hrun1. cbn [bindP]. unfold for_lt.
  destruct (init_run arr1 (scrollEnd - ps + 1)
              (Z.to_nat (scrollEnd + 1 - (scrollEnd - ps + 1))) init)
    as [arr2 [Hrun2 [Hlen2 Hidx2]]]; [lia | lia |].
  exists arr2. split; [exact Hrun2|]. split; [congruence|].
  intros j. rewrite Hidx2, Hidx1.
  replace (j + (start + ps - start)) with (j + ps) by lia.
  split_tests.
Qed.

(** X8.  [deleteLinesShallow] under the same conditions: the same move, and
    the [ps] entries that end at [scrollEnd] are the initial value. *)
Theorem deleteLinesShallow_rows {T : Type} (arr : list T)
    (start ps scrollStart scrollEnd : Z) (init : T) :
  Int.in_range (len arr) ->
  0 <= start -> 1 <= ps <= scrollEnd - start -> scrollEnd < len arr ->
  exists arr',
    deleteLinesShallow arr start ps scrollStart scrollEnd init = Some arr'
    /\ Rows.shifted arr arr' start (scrollEnd - ps) ps (scrollEnd - ps + 1) scrollEnd
         (fun _ => Some init).
Proof. apply deleteLinesShallow_shift. Qed.

(** ** What the line editors keep whenever they return *)

Lemma store_len {A : Type} (arr arr' : list A) (i : Z) (x : A) :
  store arr i x = Some arr' -> len arr' = len arr.
Proof. intros [_ ->]%store_Some. apply len_insert. Qed.

Lemma copy_within_len {A : Type} (arr arr' : list A) (a b c : Z) :
  copy_within arr a b c = Some arr' -> len arr' = len arr.
Proof.
  unfold copy_within.
  destruct (Z.leb_spec 0 a); [|discriminate]. destruct (Z.leb_spec a b); [|discriminate].
  destruct (Z.leb_spec b (len arr)); [|discriminate].
  destruct (Z.leb_spec 0 c); [|discriminate].
  destruct (Z.leb_spec c (len arr)); [|discriminate].
  cbn [andb]. intros [= <-]. unfold len in *.
  rewrite !length_app, !length_take, !length_drop. lia.
Qed.

Lemma move_up_len {A : Type} (n : nat) (lo p : Z) (arr arr' : list A) :
  loop_up n lo (fun i arr => let? src := index arr (Int.add i p) in store arr i src) arr
  = Some arr' ->
  len arr' = len arr.
Proof.
  intros H.
  apply (loop_up_preserves (fun a => len a = len arr)) in H; [assumption | | reflexivity].
  intros i a a' Hb Hlen. apply bindP_Some in Hb as [src [_ Hb]].
  apply store_len in Hb. congruence.
Qed.






(** ** Where scrolling up faults *)

(** The blanking loop of [scrollUp] faults when it runs for at least one
    turn and either starts above row 0 or ends past the last row. *)
Lemma blank_faults {A : Type} (arr : list (list A)) (lo : Z) (n : nat) (empty : A) :
  lo < 0 \/ len arr < lo + Z.of_nat (Datatypes.S n) ->
  loop_up (Datatypes.S n) lo
    (fun i arr => let? row := index arr i in store arr i (replicate (length row) empty))
    arr = None.
Proof.
  intros [Hneg|Hpast].
  - cbn [loop_up]. replace (index arr lo) with (@None (list A)); [reflexivity|].
    symmetry. apply index_None_iff. lia.
  - apply (loop_up_last_faults (fun a => len a = len arr)); [reflexivity | |].
    + intros i a a' Hb Hlen. apply bindP_Some in Hb as [src [_ Hb]].
      apply store_len in Hb. congruence.
    + intros a Hlen. replace (index a (lo + Z.of_nat n)) with (@None (list A));
        [reflexivity|].
      symmetry. apply index_None_iff. lia.
Qed.

Lemma init_faults {A : Type} (arr : list A) (lo : Z) (n : nat) (init : A) :
  lo < 0 \/ len arr < lo + Z.of_nat (Datatypes.S n) ->
  loop_up (Datatypes.S n) lo (fun i arr => store arr i init) arr = None.
Proof.
  assert (Hstore : forall (a : list A) i, i < 0 \/ len a <= i -> store a i init = None).
  { intros a i Hi. unfold store.
    destruct (Z.leb_spec 0 i), (Z.ltb_spec i (len a)); cbn [andb]; try reflexivity; lia. }
  intros [Hneg|Hpast].
  - cbn [loop_up]. rewrite Hstore by lia. reflexivity.
  - apply (loop_up_last_faults (fun a => len a = len arr)); [reflexivity | |].
    + intros i a a' Hb Hlen. apply store_len in Hb. congruence.
    + intros a Hlen. apply Hstore. lia.
Qed.

Lemma scrollUp_panics {T : Type} (arr : list (list T)) (p start end_ : Z)
    (empty : T) (init : list T) :
  Int.in_range (len arr + 1) -> Int.in_range p ->
  0 <= start < end_ -> end_ <= len arr -> 1 <= p ->
  end_ = len arr \/ end_ + 1 < p ->
  scrollUp arr p start end_ empty = None
  /\ scrollUpShallow arr p start end_ init = None.
Proof.
  intros Hrange Hprange Hs He Hp Hcase.
  unfold scrollUp, scrollUpShallow.
  rewrite scroll_invalid_false by lia.
  rewrite (add_in_range end_ 1) by int_range.
  rewrite !sub_in_range by int_range.
  rewrite add_in_range by int_range.
  unfold for_lt, for_le.
  replace (Z.to_nat (end_ - (end_ - p + 1) + 1))
    with (Datatypes.S (Z.to_nat (p - 1))) by lia.
  destruct (loop_up (Z.to_nat (end_ + 1 - p - start)) start _ arr) as [arr1|] eqn:Hrun;
    cbn [bindP]; [|split; reflexivity].
  apply move_up_len in Hrun.
  split; [apply blank_faults | apply init_faults]; lia.
Qed.


(** ** Editing the cells of one row *)

Lemma list_eq_index {A : Type} (l1 l2 : list A) :
  (forall j, index l1 j = index l2 j) -> l1 = l2.
Proof.
  intros H. apply list_eq. intros i. specialize (H (Z.of_nat i)).
  unfold index in H. destruct (Z.ltb_spec (Z.of_nat i) 0); [lia|].
  rewrite Nat2Z.id in H. exact H.
Qed.

Lemma index_nat {A : Type} (l : list A) (j : Z) :
  0 <= j -> index l j = l !! Z.to_nat j.
Proof. intros H. unfold index. destruct (Z.ltb_spec j 0); [lia | reflexivity]. Qed.

(** A run of [n] cells set to one value, in closed form. *)
Lemma init_run_closed {A : Type} (arr arr' : list A) (lo : Z) (n : nat) (init : A) :
  0 <= lo -> lo + Z.of_nat n <= len arr ->
  loop_up n lo (fun i arr => store arr i init) arr = Some arr' ->
  arr' = take (Z.to_nat lo) arr ++ replicate n init ++ drop (Z.to_nat lo + n) arr.
Proof.
  intros Hlo Hfit Hrun.
  destruct (init_run arr lo n init Hlo Hfit) as [arr2 [Hrun2 [Hlen Hidx]]].
  rewrite Hrun in Hrun2. injection Hrun2 as <-.
  apply list_eq_index. intros j. rewrite Hidx. unfold len in *.
  destruct (Z.ltb_spec j 0) as [Hneg|Hpos].
  { unfold index. destruct (Z.ltb_spec j 0); [|lia]. split_tests. }
  rewrite !index_nat by assumption.
  destruct (Z.leb_spec lo j); cbn [andb].
  - rewrite lookup_app_r by (rewrite length_take; lia).
    rewrite length_take, Nat.min_l by lia.
    destruct (Z.ltb_spec j (lo + Z.of_nat n)).
    + rewrite lookup_app_l by (rewrite length_replicate; lia).
      symmetry. apply lookup_replicate_2. lia.
    + rewrite lookup_app_r by (rewrite length_replicate; lia).
      rewrite length_replicate, lookup_drop. f_equal. lia.
  - rewrite lookup_app_l by (rewrite length_take; lia).
    symmetry. apply lookup_take_lt. lia.
Qed.

(** A loop of cell writes [arr[row][i] = x] is a loop of writes on the row,
    stored back. *)
Lemma store2_run {A : Type} (arr : list (list A)) (row : Z) (r : list A)
    (n : nat) (lo : Z) (x : A) :
  index arr row = Some r ->
  loop_up n lo (fun i arr => store2 arr row i x) arr
  = let? r' := loop_up n lo (fun i r => store r i x) r in
    Some (<[Z.to_nat row := r']> arr).
Proof.
  revert arr r lo. induction n as [|n IH]; intros arr r lo Hrow; cbn [loop_up bindP].
  - f_equal. symmetry. apply list_insert_id.
    apply index_Some in Hrow. tauto.
  - pose proof (index_lt_len _ _ _ Hrow) as Hrange.
    unfold store2 at 1. rewrite Hrow. cbn [bindP].
    destruct (store r lo x) as [r1|] eqn:Hst; cbn [bindP]; [|reflexivity].
    rewrite store_in_range by assumption. cbn [bindP].
    rewrite (IH _ r1).
    + destruct (loop_up n (lo + 1) _ r1); cbn [bindP]; [|reflexivity].
      rewrite list_insert_insert_eq. reflexivity.
    + rewrite index_insert by assumption. rewrite Z.eqb_refl. reflexivity.
Qed.

(** X11.  [eraseCharacters] of [ps >= 1] cells at column [col] of a row
    that has them ([col + ps <= len(row)]) overwrites exactly the cells
    [col .. col + ps - 1] of that row with the empty value. *)
Theorem eraseCharacters_cells {T : Type} (arr : list (list T)) (row col ps : Z)
    (r : list T) (empty : T) :
  Int.in_range (len r) ->
  index arr row = Some r ->
  0 <= col -> 1 <= ps -> col + ps <= len r ->
  eraseCharacters arr row col ps empty
  = Some (<[Z.to_nat row :=
              take (Z.to_nat col) r ++ replicate (Z.to_nat ps) empty
                ++ drop (Z.to_nat (col + ps)) r]> arr).
Proof.
  intros Hrange Hrow Hcol Hps Hfit. unfold eraseCharacters.
  rewrite (row_guard_passes arr row r Hrow), Hrow. cbn [bindP].
  rewrite add_in_range by int_range. rewrite Z.gtb_ltb.
  destruct (Z.ltb_spec col 0); [lia|]. destruct (Z.ltb_spec (len r) (col + ps)); [lia|].
  cbn [orb]. destruct (Z.leb_spec ps 0); [lia|].
  rewrite add_in_range by int_range. unfold for_lt.
  rewrite (store2_run arr row r) by assumption.
  destruct (init_run r col (Z.to_nat (col + ps - col)) empty) as [r' [Hrun _]]; [lia | lia |].
  rewrite Hrun. cbn [bindP].
  apply init_run_closed in Hrun; [|lia|lia]. rewrite Hrun.
  replace (Z.to_nat (col + ps - col)) with (Z.to_nat ps) by lia.
  replace (Z.to_nat col + Z.to_nat ps)%nat with (Z.to_nat (col + ps)) by lia.
  reflexivity.
Qed.

(** X12.  [eraseCharacters] past the end of the row ([col + ps > len(row)])
    erases nothing at all, not even the cells that exist. *)
Theorem eraseCharacters_past_the_end {T : Type} (arr : list (list T)) (row col ps : Z)
    (r : list T) (empty : T) :
  Int.in_range (col + ps) ->
  index arr row = Some r ->
  len r < col + ps ->
  eraseCharacters arr row col ps empty = Some arr.
Proof.
  intros Hrange Hrow Hpast. unfold eraseCharacters.
  rewrite (row_guard_passes arr row r Hrow), Hrow. cbn [bindP].
  rewrite add_in_range by assumption. rewrite Z.gtb_ltb.
  destruct (Z.ltb_spec (len r) (col + ps)); [|lia].
  rewrite orb_true_r. reflexivity.
Qed.

Lemma deleteCharacters_closed {T : Type} (arr : list (list T)) (row col ps : Z)
    (r : list T) (empty : T) :
  Int.in_range (len r + len r) ->
  index arr row = Some r ->
  0 <= col < len r -> 1 <= ps <= len r ->
  deleteCharacters arr row col ps empty
  = Some (<[Z.to_nat row :=
              if col + ps <=? len r
              then take (Z.to_nat col) r ++ drop (Z.to_nat (col + ps)) r
                     ++ replicate (Z.to_nat ps) empty
              else take (Z.to_nat (len r - ps)) r ++ replicate (Z.to_nat ps) empty]>
            arr).
Proof.
  intros Hrange Hrow Hcol Hps. unfold deleteCharacters.
  pose proof (index_lt_len _ _ _ Hrow) as Hrowrange.
  rewrite (row_guard_passes arr row r Hrow), Hrow. cbn [bindP].
  rewrite Z.geb_leb.
  destruct (Z.ltb_spec col 0); [lia|]. destruct (Z.leb_spec (len r) col); [lia|].
  destruct (Z.ltb_spec ps 0); [lia|]. cbn [orb].
  destruct (Z.eqb_spec ps 0); [lia|].
  rewrite (add_in_range col ps) by int_range. rewrite Z.gtb_ltb.
  rewrite (sub_in_range (len r) ps) by int_range.
  set (a := if len r <? col + ps then Int.sub (len r) col else ps).
  assert (Ha : a = Z.min ps (len r - col)).
  { unfold a. rewrite sub_in_range by int_range. split_tests. }
  rewrite add_in_range by int_range.
  unfold copy_within.
  destruct (Z.leb_spec 0 col); [|lia]. destruct (Z.leb_spec col (len r)); [|lia].
  rewrite Z.leb_refl.
  destruct (Z.leb_spec 0 (col + a)); [|lia].
  destruct (Z.leb_spec (col + a) (len r)); [|lia].
  cbn [andb bindP]. rewrite store_in_range by assumption. cbn [bindP].
  set (r1 := take (Z.to_nat col) r ++ _).
  assert (Hlen1 : len r1 = len r).
  { unfold r1, len in *. rewrite !length_app, !length_take, !length_drop. lia. }
  unfold for_lt.
  rewrite (store2_run _ row r1)
    by (rewrite index_insert by assumption; rewrite Z.eqb_refl; reflexivity).
  destruct (init_run r1 (len r - ps) (Z.to_nat (len r - (len r - ps))) empty)
    as [r2 [Hrun _]]; [lia | lia |].
  rewrite Hrun. cbn [bindP]. rewrite list_insert_insert_eq.
  apply init_run_closed in Hrun; [|lia|lia]. rewrite Hrun.
  do 2 f_equal.
  rewrite drop_ge by (unfold len in *; lia). rewrite app_nil_r.
  replace (Z.to_nat (len r - (len r - ps))) with (Z.to_nat ps) by lia.
  unfold r1, len in *.
  destruct (Z.leb_spec (col + ps) (Z.of_nat (length r))) as [Hin|Hout].
  - replace (Z.to_nat (Z.min (Z.of_nat (length r) - col)
                             (Z.of_nat (length r) - (col + a))))
      with (length r - Z.to_nat (col + ps))%nat by lia.
    replace (Z.to_nat (col + a)) with (Z.to_nat (col + ps)) by lia.
    rewrite (take_ge (drop _ r)) by (rewrite length_drop; lia).
    rewrite !app_assoc. f_equal.
    rewrite <- app_assoc, app_assoc.
    apply take_app_length'. rewrite length_app, length_take, length_drop. lia.
  - replace (Z.to_nat (Z.min (Z.of_nat (length r) - col)
                             (Z.of_nat (length r) - (col + a))))
      with 0%nat by lia.
    rewrite take_0, Nat.add_0_r. cbn [app]. rewrite take_drop. reflexivity.
Qed.

(** X13.  [deleteCharacters] of [ps] cells at column [col], with
    [1 <= ps <= len(row)]: when the row has [ps] cells from the cursor on,
    they go, the cells to their right move left and [ps] empty cells fill
    the end; when it has fewer, nothing moves and the last [ps] cells of
    the row are emptied, those left of the cursor included. *)
Theorem deleteCharacters_cells {T : Type} (arr : list (list T)) (row col ps : Z)
    (r : list T) (empty : T) :
  Int.in_range (len r + len r) ->
  index arr row = Some r ->
  0 <= col < len r -> 1 <= ps <= len r ->
  deleteCharacters arr row col ps empty
  = Some (<[Z.to_nat row :=
              if col + ps <=? len r
              then take (Z.to_nat col) r ++ drop (Z.to_nat (col + ps)) r
                     ++ replicate (Z.to_nat ps) empty
              else take (Z.to_nat (len r - ps)) r ++ replicate (Z.to_nat ps) empty]>
            arr).
Proof. apply deleteCharacters_closed. Qed.

Lemma index_insert_same {A : Type} (arr : list A) (i : Z) (x y : A) :
  index arr i = Some y -> index (<[Z.to_nat i := x]> arr) i = Some x.
Proof.
  intros H. rewrite index_insert by (eapply index_lt_len; eassumption).
  rewrite Z.eqb_refl. reflexivity.
Qed.

(** X14.  Inserting [ps] empty cells at the cursor and deleting [ps] cells
    there again gives the row back, except for its last [ps] cells, which
    the insertion pushed off the end: they come back empty. *)
Theorem insert_then_delete_characters {T : Type} (arr : list (list T))
    (row col ps : Z) (r : list T) (empty : T) :
  Int.in_range (len r + len r) ->
  index arr row = Some r ->
  0 <= col -> 1 <= ps -> col + ps <= len r ->
  (let? arr1 := insertEmpties arr row col ps empty in
   deleteCharacters arr1 row col ps empty)
  = Some (<[Z.to_nat row :=
              take (Z.to_nat (len r - ps)) r ++ replicate (Z.to_nat ps) empty]> arr).
Proof.
  intros Hrange Hrow Hcol Hps Hfit.
  pose proof (index_lt_len _ _ _ Hrow) as Hrowrange.
  unfold insertEmpties.
  rewrite (row_guard_passes arr row r Hrow), Hrow. cbn [bindP].
  rewrite Z.gtb_ltb.
  destruct (Z.ltb_spec col 0); [lia|]. destruct (Z.ltb_spec (len r) col); [lia|].
  destruct (Z.leb_spec ps 0); [lia|]. cbn [orb].
  rewrite store_in_range by assumption. cbn [bindP].
  set (ins := take (length r) _).
  assert (Hins : ins = take (Z.to_nat col) r ++ replicate (Z.to_nat ps) empty
                         ++ take (length r - Z.to_nat col - Z.to_nat ps)
                              (drop (Z.to_nat col) r)).
  { unfold ins, len in *.
    rewrite take_app_ge by (rewrite length_take; lia).
    rewrite length_take, Nat.min_l by lia. f_equal.
    rewrite take_app_ge by (rewrite length_replicate; lia).
    rewrite length_replicate. reflexivity. }
  assert (Hlen : len ins = len r).
  { rewrite Hins. unfold len in *.
    rewrite !length_app, !length_take, length_replicate, length_drop. lia. }
  rewrite (deleteCharacters_closed _ row col ps ins)
    by (try (eapply index_insert_same; eassumption); try rewrite Hlen; try assumption; lia).
  rewrite list_insert_insert_eq. rewrite Hlen.
  destruct (Z.leb_spec (col + ps) (len r)); [|lia].
  do 2 f_equal. rewrite app_assoc. f_equal.
  rewrite Hins. unfold len in *.
  rewrite take_app_ge by (rewrite length_take; lia).
  rewrite length_take, Nat.min_l by lia.
  replace (Z.to_nat col - Z.to_nat col)%nat with 0%nat by lia. rewrite take_0, app_nil_r.
  rewrite drop_app_ge by (rewrite length_take; lia).
  rewrite length_take, Nat.min_l by lia.
  rewrite drop_app_ge by (rewrite length_replicate; lia).
  rewrite length_replicate.
  replace (Z.to_nat (col + ps) - Z.to_nat col - Z.to_nat ps)%nat with 0%nat by lia.
  rewrite drop_0, take_take_drop. f_equal. lia.
Qed.

(** ** What the character editors keep whenever they return *)

Lemma store2_shape {A : Type} (arr arr' : list (list A)) (y x : Z) (v : A) :
  store2 arr y x v = Some arr' -> length <$> arr' = length <$> arr.
Proof.
  unfold store2. intros H.
  apply bindP_Some in H as [row [Hrow H]].
  apply bindP_Some in H as [row' [Hst H]].
  apply store_Some in Hst as [_ ->]. apply store_Some in H as [_ ->].
  apply (fmap_length_insert_same _ _ row); [|apply length_insert].
  apply index_Some in Hrow. tauto.
Qed.

Lemma store2_run_shape {A : Type} (n : nat) (lo row : Z) (x : A)
    (arr arr' : list (list A)) :
  loop_up n lo (fun i arr => store2 arr row i x) arr = Some arr' ->
  length <$> arr' = length <$> arr.
Proof.
  intros H.
  apply (loop_up_preserves (fun a => length <$> a = length <$> arr)) in H;
    [assumption | | reflexivity].
  intros i a a' Hb Hshape. apply store2_shape in Hb. congruence.
Qed.

(** X15.  Whenever [eraseCharacters], [deleteCharacters] or [insertEmpties]
    returns, every row has the length it had, and there are as many rows:
    the row under the cursor keeps its width, whatever the column and the
    count. *)
Theorem character_editors_keep_the_shape {T : Type}
    (arr arr' : list (list T)) (row col ps : Z) (empty : T) :
  eraseCharacters arr row col ps empty = Some arr'
  \/ deleteCharacters arr row col ps empty = Some arr'
  \/ insertEmpties arr row col ps empty = Some arr' ->
  length <$> arr' = length <$> arr.
Proof.
  unfold eraseCharacters, deleteCharacters, insertEmpties, for_lt.
  intros [H|[H|H]];
    (destruct ((row <? 0) || (row >=? len arr)); [injection H as <-; reflexivity|]);
    apply bindP_Some in H as [r [Hrow H]];
    match type of H with
    | (if ?g then _ else _) = _ => destruct g eqn:Hg; [injection H as <-; reflexivity|]
    end.
  - apply store2_run_shape in H. exact H.
  - apply bindP_Some in H as [r1 [Hcopy H]].
    apply bindP_Some in H as [arr1 [Hst H]].
    apply copy_within_len in Hcopy. apply store_Some in Hst as [_ ->].
    apply store2_run_shape in H. rewrite H.
    apply (fmap_length_insert_same _ _ r).
    + apply index_Some in Hrow. tauto.
    + unfold len in Hcopy. lia.
  - apply store_Some in H as [_ ->].
    apply (fmap_length_insert_same _ _ r).
    + apply index_Some in Hrow. tauto.
    + rewrite !orb_false_iff in Hg. destruct Hg as [[Hc0 Hc1] _].
      apply Z.ltb_ge in Hc0. rewrite Z.gtb_ltb in Hc1. apply Z.ltb_ge in Hc1.
      unfold len in *.
      rewrite length_take, !length_app, length_take, length_replicate, length_drop.
      lia.
Qed.

(** ** Scrolling and line editing on the terminal *)

Lemma aligned_lens (s : Screen.t Region.t) :
  Rows.aligned s = true <->
  len (Screen.Content s) = Screen.Height s
  /\ len (Screen.Format s) = Screen.Height s
  /\ len (Screen.Changes s) = Screen.Height s.
Proof. unfold Rows.aligned. rewrite !andb_true_iff, !Z.eqb_eq. tauto. Qed.

Lemma hook_loop_skips (n : Z) (v : Terminal.term) :
  (if Terminal.onScrollback v
   then for_lt 0 n (fun (_ : Z) (v0 : Terminal.term) => Some v0) v
   else Some v) = Some v.
Proof. destruct (Terminal.onScrollback v); [apply loop_up_skip | reflexivity]. Qed.

Lemma scrollUpN_shift (n start end_ : Z) (v : Terminal.term) (s : Screen.t Region.t) :
  Terminal.Screen v = Some s ->
  Rows.aligned s = true ->
  Int.in_range (Screen.Height s) ->
  Terminal.scrollRegion v = Some (start, end_) ->
  0 <= start < end_ -> end_ < Screen.Height s ->
  1 <= n <= end_ + 1 ->
  exists s',
    Terminal.scrollUpN n v = Some (Terminal.with_Screen (Some s') v)
    /\ Rows.aligned s' = true
    /\ Rows.rest s' = Rows.rest s
    /\ Rows.shifted (Screen.Content s) (Screen.Content s')
         start (end_ - n) n (end_ - n + 1) end_
         (fun j => Rows.blanked space <$> index (Screen.Content s) j)
    /\ Rows.shifted (Screen.Format s) (Screen.Format s')
         start (end_ - n) n (end_ - n + 1) end_
         (fun _ => Some (Terminal.blankRegion s))
    /\ Rows.shifted (Screen.Changes s) (Screen.Changes s')
         start (end_ - n) n (end_ - n + 1) end_ (fun _ => Some 1).
Proof.
  intros Hs Hal Hrange Hreg Hse He Hn.
  apply aligned_lens in Hal as [HC [HF HCh]].
  unfold Terminal.scrollUpN. rewrite hook_loop_skips. cbn [bindP].
  rewrite Hreg. cbn [bindP fst snd]. unfold Terminal.screen. rewrite Hs. cbn [bindP].
  destruct (scrollUp_shift (Screen.Content s) n start end_ space)
    as [c' [Hc [Hclen Hcidx]]]; try lia; [rewrite HC; assumption|].
  rewrite Hc. cbn [bindP].
  destruct (scrollUpShallow_shift (Screen.Format s) n start end_ (Terminal.blankRegion s))
    as [f' [Hf [Hflen Hfidx]]]; try lia; [rewrite HF; assumption|].
  change (Screen.Format (Screen.with_Content c' s)) with (Screen.Format s).
  change (Terminal.blankRegion (Screen.with_Content c' s)) with (Terminal.blankRegion s).
  rewrite Hf. cbn [bindP].
  destruct (scrollUpShallow_shift (Screen.Changes s) n start end_ 1)
    as [ch' [Hch [Hchlen Hchidx]]]; try lia; [rewrite HCh; assumption|].
  change (Screen.Changes (Screen.with_Format f' (Screen.with_Content c' s)))
    with (Screen.Changes s).
  rewrite Hch. cbn [bindP].
  eexists. split; [reflexivity|].
  split; [apply aligned_lens; cbn; repeat split; congruence|].
  split; [reflexivity|].
  split; [exact (conj Hclen Hcidx)|].
  split; [exact (conj Hflen Hfidx) | exact (conj Hchlen Hchidx)].
Qed.

(** X16.  [scrollUpN] on a terminal whose row tables agree with [Height],
    over a scroll range of existing rows and for a count
    [1 <= n <= end_ + 1], returns and moves the three tables alike: text,
    format rows and change counters go up by [n] within the range, and the
    [n] rows that end at [end_] become blank text, a fresh format row of
    the cursor's format and a counter of 1.  The tables keep their length;
    the cursor, the wrap flag, the alternate screen and every other field
    are untouched. *)
Theorem scrollUpN_rows (n start end_ : Z) (v : Terminal.term) (s : Screen.t Region.t) :
  Terminal.Screen v = Some s ->
  Rows.aligned s = true ->
  Int.in_range (Screen.Height s) ->
  Terminal.scrollRegion v = Some (start, end_) ->
  0 <= start < end_ -> end_ < Screen.Height s ->
  1 <= n <= end_ + 1 ->
  exists s',
    Terminal.scrollUpN n v = Some (Terminal.with_Screen (Some s') v)
    /\ Rows.aligned s' = true
    /\ Rows.rest s' = Rows.rest s
    /\ Rows.shifted (Screen.Content s) (Screen.Content s')
         start (end_ - n) n (end_ - n + 1) end_
         (fun j => Rows.blanked space <$> index (Screen.Content s) j)
    /\ Rows.shifted (Screen.Format s) (Screen.Format s')
         start (end_ - n) n (end_ - n + 1) end_
         (fun _ => Some (Terminal.blankRegion s))
    /\ Rows.shifted (Screen.Changes s) (Screen.Changes s')
         start (end_ - n) n (end_ - n + 1) end_ (fun _ => Some 1).
Proof. apply scrollUpN_shift. Qed.

(** X17.  [scrollUpN] by more lines than [end_ + 1] faults: with no scroll
    region, a count above the height of the screen never returns. *)
Theorem scrollUpN_faults (n start end_ : Z) (v : Terminal.term) (s : Screen.t Region.t) :
  Terminal.Screen v = Some s ->
  Int.in_range (len (Screen.Content s) + 1) -> Int.in_range n ->
  Terminal.scrollRegion v = Some (start, end_) ->
  0 <= start < end_ -> end_ <= len (Screen.Content s) ->
  end_ = len (Screen.Content s) \/ end_ + 1 < n ->
  1 <= n ->
  Terminal.scrollUpN n v = None.
Proof.
  intros Hs Hrange Hnrange Hreg Hse He Hcase Hn.
  unfold Terminal.scrollUpN. rewrite hook_loop_skips. cbn [bindP].
  rewrite Hreg. cbn [bindP fst snd]. unfold Terminal.screen. rewrite Hs. cbn [bindP].
  destruct (scrollUp_panics (Screen.Content s) n start end_ space [])
    as [Hfault _]; try assumption; try lia.
  rewrite Hfault. reflexivity.
Qed.

Lemma scroll_invalid_single {A : Type} (arr : list A) (p start : Z) :
  scroll_invalid arr p start start = true.
Proof.
  unfold scroll_invalid. rewrite Z.geb_leb, Z.leb_refl.
  rewrite orb_true_r. reflexivity.
Qed.

(** X18.  A screen of a single row never scrolls: with no scroll region and
    a height of 1, [scrollUpN] returns the terminal as it was for every
    count, and so does [moveDown] on that row when the height does not
    resize automatically.  The text of the row stays on the screen. *)
Theorem single_row_never_scrolls
    (moveRel : Z -> Z -> Terminal.term -> option Terminal.term)
    (n : Z) (v : Terminal.term) (s : Screen.t Region.t) :
  Terminal.Screen v = Some s ->
  Screen.Height s = 1 ->
  Screen.ScrollRegion s = None ->
  Cursor.Y (Screen.Cursor s) = 0 ->
  Terminal.AutoResizeY v = false ->
  Terminal.scrollUpN n v = Some v
  /\ Terminal.moveDown moveRel v = Some v.
Proof.
  intros Hs Hh Hreg Hy Hauto.
  assert (Hup : forall m, Terminal.scrollUpN m v = Some v).
  { intros m. unfold Terminal.scrollUpN. rewrite hook_loop_skips. cbn [bindP].
    unfold Terminal.scrollRegion, Terminal.screen. rewrite Hs. cbn [bindP].
    rewrite Hreg, Hh. cbn [bindP fst snd].
    change (Int.sub 1 1) with 0.
    unfold scrollUp, scrollUpShallow.
    do 3 (rewrite scroll_invalid_single; cbn [bindP]).
    destruct v as [scr ? ? ? ? ? ? ? ? ? ?]. cbn in Hs. subst scr.
    destruct s. reflexivity. }
  split; [apply Hup|].
  unfold Terminal.moveDown, Terminal.screen.
  rewrite Hs. cbn [bindP]. rewrite Hreg, Hy, Hh, Hauto.
  change (Int.sub 1 1) with 0. cbn. apply Hup.
Qed.

(** X19.  [insertLines] with the cursor on row [y] inside the scroll range,
    on a terminal whose row tables agree with [Height] and that
    [ensureHeight] leaves as it is, for a count [n >= 1] with
    [y + n <= Height]: text, format rows and change counters from row [y]
    move down by [n] as far as the end of the range, rows
    [y .. y + n - 1] become blank text, a fresh format row of the cursor's
    format and a counter of 1.  The wrap flag is cleared; the cursor and
    the rows outside stay. *)
Theorem insertLines_inside_region
    (ensureHeight : Z -> Terminal.term -> option Terminal.term)
    (n start end_ : Z) (v : Terminal.term) (s : Screen.t Region.t) :
  Terminal.Screen v = Some s ->
  Rows.aligned s = true ->
  Int.in_range (Screen.Height s) ->
  ensureHeight (Int.add (Cursor.Y (Screen.Cursor s)) n) v = Some v ->
  Terminal.scrollRegion v = Some (start, end_) ->
  0 <= start <= Cursor.Y (Screen.Cursor s) ->
  Cursor.Y (Screen.Cursor s) <= end_ -> end_ < Screen.Height s ->
  1 <= n -> Cursor.Y (Screen.Cursor s) + n <= Screen.Height s ->
  exists s',
    Terminal.insertLines ensureHeight n v
    = Some (Terminal.with_Screen (Some s') (Terminal.with_wrap false v))
    /\ Rows.aligned s' = true
    /\ Rows.rest s' = Rows.rest s
    /\ (let y := Cursor.Y (Screen.Cursor s) in
        Rows.shifted (Screen.Content s) (Screen.Content s')
          (y + n) end_ (- n) y (y + n - 1)
          (fun j => Rows.blanked space <$> index (Screen.Content s) j)
        /\ Rows.shifted (Screen.Format s) (Screen.Format s')
             (y + n) end_ (- n) y (y + n - 1)
             (fun _ => Some (Terminal.blankRegion s))
        /\ Rows.shifted (Screen.Changes s) (Screen.Changes s')
             (y + n) end_ (- n) y (y + n - 1) (fun _ => Some 1)).
Proof.
  intros Hs Hal Hrange Hens Hreg Hsy Hye He Hn Hfit.
  apply aligned_lens in Hal as [HC [HF HCh]].
  unfold Terminal.insertLines, Terminal.screen. rewrite Hs. cbn [bindP].
  rewrite Hens. cbn [bindP]. rewrite Hreg. cbn [bindP fst snd]. rewrite Hs. cbn [bindP].
  destruct (Z.ltb_spec (Cursor.Y (Screen.Cursor s)) start); [lia|].
  rewrite Z.gtb_ltb. destruct (Z.ltb_spec end_ (Cursor.Y (Screen.Cursor s))); [lia|].
  cbn [orb].
  destruct (insertLines_shift (Screen.Content s) (Cursor.Y (Screen.Cursor s)) n start end_ space)
    as [c' [Hc [Hclen Hcidx]]]; try lia; [rewrite HC; assumption|].
  rewrite Hc. cbn [bindP].
  destruct (insertLinesShallow_shift (Screen.Format s) (Cursor.Y (Screen.Cursor s)) n
              start end_ (Terminal.blankRegion s))
    as [f' [Hf [Hflen Hfidx]]]; try lia; [rewrite HF; assumption|].
  change (Screen.Format (Screen.with_Content c' s)) with (Screen.Format s).
  change (Terminal.blankRegion (Screen.with_Content c' s)) with (Terminal.blankRegion s).
  rewrite Hf. cbn [bindP].
  destruct (insertLinesShallow_shift (Screen.Changes s) (Cursor.Y (Screen.Cursor s)) n
              start end_ 1)
    as [ch' [Hch [Hchlen Hchidx]]]; try lia; [rewrite HCh; assumption|].
  change (Screen.Changes (Screen.with_Format f' (Screen.with_Content c' s)))
    with (Screen.Changes s).
  rewrite Hch. cbn [bindP].
  eexists. split; [reflexivity|].
  split; [apply aligned_lens; cbn; repeat split; congruence|].
  split; [reflexivity|].
  split; [exact (conj Hclen Hcidx)|].
  split; [exact (conj Hflen Hfidx) | exact (conj Hchlen Hchidx)].
Qed.

(** X20.  [deleteLines] with the cursor on row [y] inside the scroll range,
    on a terminal whose row tables agree with [Height], for a count
    [1 <= n <= end_ - y]: text, format rows and change counters below the
    deleted rows move up by [n] as far as the end of the range, and the [n]
    rows that end at [end_] become blank text (as long as the row that has
    moved under the cursor), a fresh format row of the cursor's format and
    a counter of 1.  The wrap flag is cleared; the cursor and the rows
    outside stay. *)
Theorem deleteLines_inside_region
    (n start end_ : Z) (v : Terminal.term) (s : Screen.t Region.t) :
  Terminal.Screen v = Some s ->
  Rows.aligned s = true ->
  Int.in_range (Screen.Height s) ->
  Terminal.scrollRegion v = Some (start, end_) ->
  0 <= start <= Cursor.Y (Screen.Cursor s) ->
  end_ < Screen.Height s ->
  1 <= n <= end_ - Cursor.Y (Screen.Cursor s) ->
  exists s',
    Terminal.deleteLines n v
    = Some (Terminal.with_Screen (Some s') (Terminal.with_wrap false v))
    /\ Rows.aligned s' = true
    /\ Rows.rest s' = Rows.rest s
    /\ (let y := Cursor.Y (Screen.Cursor s) in
        Rows.shifted (Screen.Content s) (Screen.Content s')
          y (end_ - n) n (end_ - n + 1) end_
          (fun _ => Rows.blanked space <$> index (Screen.Content s) (y + n))
        /\ Rows.shifted (Screen.Format s) (Screen.Format s')
             y (end_ - n) n (end_ - n + 1) end_
             (fun _ => Some (Terminal.blankRegion s))
        /\ Rows.shifted (Screen.Changes s) (Screen.Changes s')
             y (end_ - n) n (end_ - n + 1) end_ (fun _ => Some 1)).
Proof.
  intros Hs Hal Hrange Hreg Hsy He Hn.
  apply aligned_lens in Hal as [HC [HF HCh]].
  unfold Terminal.deleteLines, Terminal.screen.
  rewrite Hreg. cbn [bindP fst snd]. rewrite Hs. cbn [bindP].
  destruct (Z.ltb_spec (Cursor.Y (Screen.Cursor s)) start); [lia|].
  rewrite Z.gtb_ltb. destruct (Z.ltb_spec end_ (Cursor.Y (Screen.Cursor s))); [lia|].
  cbn [orb].
  destruct (deleteLines_shift (Screen.Content s) (Cursor.Y (Screen.Cursor s)) n start end_ space)
    as [c' [Hc [Hclen Hcidx]]]; try lia; [rewrite HC; assumption|].
  rewrite Hc. cbn [bindP].
  destruct (deleteLinesShallow_shift (Screen.Format s) (Cursor.Y (Screen.Cursor s)) n
              start end_ (Terminal.blankRegion s))
    as [f' [Hf [Hflen Hfidx]]]; try lia; [rewrite HF; assumption|].
  change (Screen.Format (Screen.with_Content c' s)) with (Screen.Format s).
  change (Terminal.blankRegion (Screen.with_Content c' s)) with (Terminal.blankRegion s).
  rewrite Hf. cbn [bindP].
  destruct (deleteLinesShallow_shift (Screen.Changes s) (Cursor.Y (Screen.Cursor s)) n
              start end_ 1)
    as [ch' [Hch [Hchlen Hchidx]]]; try lia; [rewrite HCh; assumption|].
  change (Screen.Changes (Screen.with_Format f' (Screen.with_Content c' s)))
    with (Screen.Changes s).
  rewrite Hch. cbn [bindP].
  eexists. split; [reflexivity|].
  split; [apply aligned_lens; cbn; repeat split; congruence|].
  split; [reflexivity|].
  split; [exact (conj Hclen Hcidx)|].
  split; [exact (conj Hflen Hfidx) | exact (conj Hchlen Hchidx)].
Qed.

Lemma scrollDownN_shift (n start end_ : Z) (v : Terminal.term) (s : Screen.t Region.t) :
  Terminal.Screen v = Some s ->
  Rows.aligned s = true ->
  Int.in_range (Screen.Height s) ->
  Terminal.scrollRegion v = Some (start, end_) ->
  0 <= start < end_ -> end_ < Screen.Height s ->
  1 <= n -> start + n <= Screen.Height s ->
  exists s',
    Terminal.scrollDownN n v
    = Some (Terminal.with_Screen (Some s') (Terminal.with_wrap false v))
    /\ Rows.aligned s' = true
    /\ Rows.rest s' = Rows.rest s
    /\ Rows.shifted (Screen.Content s) (Screen.Content s')
         (start + n) end_ (- n) start (start + n - 1)
         (fun j => Rows.blanked space <$> index (Screen.Content s) j)
    /\ Rows.shifted (Screen.Format s) (Screen.Format s')
         (start + n) end_ (- n) start (start + n - 1)
         (fun _ => Some (Terminal.blankRegion s))
    /\ Rows.shifted (Screen.Changes s) (Screen.Changes s')
         (start + n) end_ (- n) start (start + n - 1) (fun _ => Some 1).
Proof.
  intros Hs Hal Hrange Hreg Hse He Hn Hfit.
  apply aligned_lens in Hal as [HC [HF HCh]].
  unfold Terminal.scrollDownN.
  change (Terminal.scrollRegion (Terminal.with_wrap false v))
    with (Terminal.scrollRegion v).
  rewrite Hreg. cbn [bindP fst snd]. unfold Terminal.screen.
  change (Terminal.Screen (Terminal.with_wrap false v)) with (Terminal.Screen v).
  rewrite Hs. cbn [bindP].
  destruct (scrollDown_shift (Screen.Content s) n start end_ space)
    as [c' [Hc [Hclen Hcidx]]]; try lia; [rewrite HC; assumption|].
  rewrite Hc. cbn [bindP].
  destruct (scrollDownShallow_shift (Screen.Format s) n start end_ (Terminal.blankRegion s))
    as [f' [Hf [Hflen Hfidx]]]; try lia; [rewrite HF; assumption|].
  change (Screen.Format (Screen.with_Content c' s)) with (Screen.Format s).
  change (Terminal.blankRegion (Screen.with_Content c' s)) with (Terminal.blankRegion s).
  rewrite Hf. cbn [bindP].
  destruct (scrollDownShallow_shift (Screen.Changes s) n start end_ 1)
    as [ch' [Hch [Hchlen Hchidx]]]; try lia; [rewrite HCh; assumption|].
  change (Screen.Changes (Screen.with_Format f' (Screen.with_Content c' s)))
    with (Screen.Changes s).
  rewrite Hch. cbn [bindP].
  eexists. split; [reflexivity|].
  split; [apply aligned_lens; cbn; repeat split; congruence|].
  split; [reflexivity|].
  split; [exact (conj Hclen Hcidx)|].
  split; [exact (conj Hflen Hfidx) | exact (conj Hchlen Hchidx)].
Qed.

(** X21.  [scrollDownN] on a terminal whose row tables agree with [Height],
    over a scroll range of existing rows and for a count [n >= 1] with
    [start + n <= Height], returns and moves the three tables alike: text,
    format rows and change counters go down by [n] within the range, and the
    [n] rows that start at [start] become blank text, a fresh format row of
    the cursor's format and a counter of 1.  The wrap flag is cleared; the
    tables keep their length; the cursor and every other field are
    untouched. *)
Theorem scrollDownN_rows (n start end_ : Z) (v : Terminal.term) (s : Screen.t Region.t) :
  Terminal.Screen v = Some s ->
  Rows.aligned s = true ->
  Int.in_range (Screen.Height s) ->
  Terminal.scrollRegion v = Some (start, end_) ->
  0 <= start < end_ -> end_ < Screen.Height s ->
  1 <= n -> start + n <= Screen.Height s ->
  exists s',
    Terminal.scrollDownN n v
    = Some (Terminal.with_Screen (Some s') (Terminal.with_wrap false v))
    /\ Rows.aligned s' = true
    /\ Rows.rest s' = Rows.rest s
    /\ Rows.shifted (Screen.Content s) (Screen.Content s')
         (start + n) end_ (- n) start (start + n - 1)
         (fun j => Rows.blanked space <$> index (Screen.Content s) j)
    /\ Rows.shifted (Screen.Format s) (Screen.Format s')
         (start + n) end_ (- n) start (start + n - 1)
         (fun _ => Some (Terminal.blankRegion s))
    /\ Rows.shifted (Screen.Changes s) (Screen.Changes s')
         (start + n) end_ (- n) start (start + n - 1) (fun _ => Some 1).
Proof. apply scrollDownN_shift. Qed.

(** X22.  [moveUp] with the cursor on row 0, or on the first row of the scroll
    region, does not move the cursor: it scrolls the scroll range down by
    one line (a reverse index).  Rows [start .. end_ - 1] go down by one, row
    [start] becomes blank, the wrap flag is cleared; with the cursor on row 0
    above a scroll region, it is still the region that scrolls. *)
Theorem moveUp_at_the_top
    (moveRel : Z -> Z -> Terminal.term -> option Terminal.term)
    (start end_ : Z) (v : Terminal.term) (s : Screen.t Region.t) :
  Terminal.Screen v = Some s ->
  Rows.aligned s = true ->
  Int.in_range (Screen.Height s) ->
  Terminal.scrollRegion v = Some (start, end_) ->
  0 <= start < end_ -> end_ < Screen.Height s ->
  Cursor.Y (Screen.Cursor s) = 0 \/ Cursor.Y (Screen.Cursor s) = start ->
  exists s',
    Terminal.moveUp moveRel v
    = Some (Terminal.with_Screen (Some s') (Terminal.with_wrap false v))
    /\ Rows.aligned s' = true
    /\ Rows.rest s' = Rows.rest s
    /\ Rows.shifted (Screen.Content s) (Screen.Content s')
         (start + 1) end_ (- 1) start start
         (fun j => Rows.blanked space <$> index (Screen.Content s) j)
    /\ Rows.shifted (Screen.Format s) (Screen.Format s')
         (start + 1) end_ (- 1) start start
         (fun _ => Some (Terminal.blankRegion s))
    /\ Rows.shifted (Screen.Changes s) (Screen.Changes s')
         (start + 1) end_ (- 1) start start (fun _ => Some 1).
Proof.
  intros Hs Hal Hrange Hreg Hse He Hy.
  assert (Htop : (Cursor.Y (Screen.Cursor s) =? 0)
                 || match Screen.ScrollRegion s with
                    | Some r => Cursor.Y (Screen.Cursor s) =? ScrollRegion.Start r
                    | None => false
                    end = true).
  { unfold Terminal.scrollRegion, Terminal.screen in Hreg. rewrite Hs in Hreg.
    cbn [bindP] in Hreg. destruct Hy as [Hy|Hy].
    - rewrite Hy. reflexivity.
    - destruct (Screen.ScrollRegion s) as [r|].
      + injection Hreg as Hr _. rewrite Hy, Hr, Z.eqb_refl. apply orb_true_r.
      + injection Hreg as Hr _. rewrite Hy, <- Hr. reflexivity. }
  unfold Terminal.moveUp, Terminal.screen. rewrite Hs. cbn [bindP]. rewrite Htop.
  destruct (scrollDownN_shift 1 start end_ v s) as [s' Hs']; try assumption; try lia.
  exists s'. replace (start + 1 - 1) with start in Hs' by lia. exact Hs'.
Qed.

(** X23.  [moveDown] with the cursor on the last row of the scroll region, or on
    the last row of the screen when the height does not resize
    automatically, does not move the cursor: it scrolls the scroll range up
    by one line (a line feed at the bottom).  Rows [start + 1 .. end_] go up
    by one and row [end_] becomes blank; the wrap flag is left as it is.
    With the cursor on the last row of the screen below a scroll region, it
    is still the region that scrolls. *)
Theorem moveDown_at_the_bottom
    (moveRel : Z -> Z -> Terminal.term -> option Terminal.term)
    (start end_ : Z) (v : Terminal.term) (s : Screen.t Region.t) :
  Terminal.Screen v = Some s ->
  Rows.aligned s = true ->
  Int.in_range (Screen.Height s) ->
  Terminal.scrollRegion v = Some (start, end_) ->
  0 <= start < end_ -> end_ < Screen.Height s ->
  (Screen.ScrollRegion s <> None /\ Cursor.Y (Screen.Cursor s) = end_)
  \/ (Cursor.Y (Screen.Cursor s) = Screen.Height s - 1
      /\ Terminal.AutoResizeY v = false) ->
  exists s',
    Terminal.moveDown moveRel v = Some (Terminal.with_Screen (Some s') v)
    /\ Rows.aligned s' = true
    /\ Rows.rest s' = Rows.rest s
    /\ Rows.shifted (Screen.Content s) (Screen.Content s')
         start (end_ - 1) 1 end_ end_
         (fun j => Rows.blanked space <$> index (Screen.Content s) j)
    /\ Rows.shifted (Screen.Format s) (Screen.Format s')
         start (end_ - 1) 1 end_ end_
         (fun _ => Some (Terminal.blankRegion s))
    /\ Rows.shifted (Screen.Changes s) (Screen.Changes s')
         start (end_ - 1) 1 end_ end_ (fun _ => Some 1).
Proof.
  intros Hs Hal Hrange Hreg Hse He Hy.
  destruct (scrollUpN_shift 1 start end_ v s) as [s' Hs']; try assumption; try lia.
  replace (end_ - 1 + 1) with end_ in Hs' by lia.
  exists s'. destruct Hs' as [Hrun Hrest]. split; [|exact Hrest].
  unfold Terminal.moveDown, Terminal.screen. rewrite Hs. cbn [bindP].
  unfold Terminal.scrollRegion, Terminal.screen in Hreg. rewrite Hs in Hreg.
  cbn [bindP] in Hreg.
  destruct Hy as [[Hsome Hy]|[Hy Hauto]].
  - destruct (Screen.ScrollRegion s) as [r|]; [|congruence].
    injection Hreg as _ Hr. rewrite Hy, Hr, Z.eqb_refl. exact Hrun.
  - destruct (match Screen.ScrollRegion s with
              | Some r => Cursor.Y (Screen.Cursor s) =? ScrollRegion.End_ r
              | None => false
              end); [exact Hrun|].
    rewrite sub_in_range
      by (unfold Int.in_range, Int.min_int, Int.max_int in *; lia).
    rewrite Hy, Z.eqb_refl, Hauto. exact Hrun.
Qed.

(** ** The cell grid, cell by cell *)

(** [clear] on a cell that exists in both grids, at a column that row 0
    has: the rune becomes a space and the format the given one. *)
Lemma clear_cell (y x : Z) (f : Format.t) (v : Screen.grid)
    (row0 cr : list rune) (fr : list Format.t) :
  index (Screen.Content v) 0 = Some row0 ->
  index (Screen.Content v) y = Some cr ->
  index (Screen.Format v) y = Some fr ->
  0 <= x -> x < len row0 -> x < len cr -> x < len fr ->
  Screen.clear y x f v
  = Some (Screen.with_Format (<[Z.to_nat y := <[Z.to_nat x := f]> fr]> (Screen.Format v))
            (Screen.with_Content
               (<[Z.to_nat y := <[Z.to_nat x := space]> cr]> (Screen.Content v)) v)).
Proof.
  intros H0 Hcr Hfr Hx Hx0 Hxc Hxf. unfold Screen.clear.
  pose proof (index_lt_len _ _ _ Hcr) as Hy.
  rewrite Z.geb_leb. destruct (Z.leb_spec (len (Screen.Content v)) y); [lia|].
  rewrite H0. cbn [bindP]. rewrite Z.geb_leb.
  destruct (Z.leb_spec (len row0) x); [lia|].
  rewrite (store2_in_range _ y x cr) by (try assumption; lia). cbn [bindP].
  change (Screen.Format (Screen.with_Content ?c v)) with (Screen.Format v).
  rewrite (store2_in_range _ y x fr) by (try assumption; lia). reflexivity.
Qed.

(** One more cell of a run written. *)
Lemma run_step {A : Type} (row : list A) (lo k : nat) (x : A) :
  (lo + k < length row)%nat ->
  <[(lo + k)%nat := x]> (take lo row ++ replicate k x ++ drop (lo + k) row)
  = take lo row ++ replicate (Datatypes.S k) x ++ drop (lo + Datatypes.S k) row.
Proof.
  intros H.
  rewrite insert_app_r_alt by (rewrite length_take; lia).
  rewrite length_take, Nat.min_l by lia.
  rewrite insert_app_r_alt by (rewrite length_replicate; lia).
  rewrite length_replicate.
  replace (lo + k - lo - k)%nat with 0%nat by lia.
  destruct (drop (lo + k) row) as [|c rest] eqn:Hd.
  { apply (f_equal length) in Hd. rewrite length_drop in Hd. cbn in Hd. lia. }
  cbn [insert list_insert].
  assert (Hrest : drop (lo + Datatypes.S k) row = rest).
  { replace (lo + Datatypes.S k)%nat with ((lo + k) + 1)%nat by lia.
    rewrite <- drop_drop, Hd. reflexivity. }
  rewrite Hrest, replicate_S_end, <- !app_assoc. reflexivity.
Qed.

(** A run of [clear]s along row [y], from column [lo] for [n] columns that
    the row and row 0 have. *)
Lemma clear_run (n : nat) (lo y : Z) (f : Format.t) (yf : Screen.grid -> Z)
    (v : Screen.grid) (cr : list rune) (fr : list Format.t) :
  index (Screen.Content v) y = Some cr ->
  index (Screen.Format v) y = Some fr ->
  0 <= lo ->
  (forall c F, yf (Screen.with_Format F (Screen.with_Content c v)) = y) ->
  ((0 < n)%nat ->
   lo + Z.of_nat n <= len cr /\ lo + Z.of_nat n <= len fr
   /\ exists row0, index (Screen.Content v) 0 = Some row0
                   /\ lo + Z.of_nat n <= len row0) ->
  loop_up n lo (fun x v => Screen.clear (yf v) x f v) v
  = Some (Screen.with_Format
            (<[Z.to_nat y := take (Z.to_nat lo) fr ++ replicate n f
                               ++ drop (Z.to_nat lo + n) fr]> (Screen.Format v))
            (Screen.with_Content
               (<[Z.to_nat y := take (Z.to_nat lo) cr ++ replicate n space
                                  ++ drop (Z.to_nat lo + n) cr]> (Screen.Content v)) v)).
Proof.
  intros Hcr Hfr Hlo Hyf Hfit.
  pose proof (index_lt_len _ _ _ Hcr) as Hy.
  pose proof (index_lt_len _ _ _ Hfr) as Hyf'.
  destruct (loop_up_invariant
    (fun k v' =>
       v' = Screen.with_Format
              (<[Z.to_nat y := take (Z.to_nat lo) fr ++ replicate k f
                                 ++ drop (Z.to_nat lo + k) fr]> (Screen.Format v))
              (Screen.with_Content
                 (<[Z.to_nat y := take (Z.to_nat lo) cr ++ replicate k space
                                    ++ drop (Z.to_nat lo + k) cr]> (Screen.Content v)) v))
    (fun x v => Screen.clear (yf v) x f v) n lo v) as [v' [Hrun Hv']].
  - cbn [replicate app]. rewrite Nat.add_0_r, !take_drop.
    rewrite !list_insert_id by (apply index_Some; eassumption).
    destruct v; reflexivity.
  - intros k v' Hk ->. destruct (Hfit ltac:(lia)) as [Hc [Hf [row0 [H0 Hr0]]]].
    rewrite Hyf.
    set (crk := take (Z.to_nat lo) cr ++ replicate k space ++ drop (Z.to_nat lo + k) cr).
    set (frk := take (Z.to_nat lo) fr ++ replicate k f ++ drop (Z.to_nat lo + k) fr).
    assert (Hlc : len crk = len cr).
    { unfold crk, len in *. rewrite !length_app, length_take, length_replicate, length_drop.
      lia. }
    assert (Hlf : len frk = len fr).
    { unfold frk, len in *. rewrite !length_app, length_take, length_replicate, length_drop.
      lia. }
    assert (H0' : exists r0, index (<[Z.to_nat y := crk]> (Screen.Content v)) 0 = Some r0
                             /\ lo + Z.of_nat n <= len r0).
    { rewrite index_insert by assumption. destruct (Z.eqb_spec 0 y).
      - exists crk. split; [reflexivity | lia].
      - eauto. }
    destruct H0' as [r0 [Hr0idx Hr0len]].
    rewrite (clear_cell y (lo + Z.of_nat k) f _ r0 crk frk);
      try (cbn; eapply index_insert_same; eassumption); try exact Hr0idx; try lia.
    eexists. split; [reflexivity|].
    cbn [Screen.with_Format Screen.with_Content Screen.Content Screen.Format
         Screen.Height Screen.Width Screen.Cursor Screen.SavedCursor Screen.Changes
         Screen.MaxY Screen.MaxX Screen.ScrollRegion].
    rewrite !list_insert_insert_eq.
    replace (Z.to_nat (lo + Z.of_nat k)) with (Z.to_nat lo + k)%nat by lia.
    unfold crk, frk. rewrite !run_step by (unfold len in *; lia). reflexivity.
  - rewrite Hv' in Hrun. exact Hrun.
Qed.

(** ** A fresh grid *)

(** A loop that only rewrites the rune grid is a loop on the rune grid. *)
Lemma content_loop (g : Z -> list (list rune) -> option (list (list rune)))
    (n : nat) (lo : Z) (s : Screen.grid) :
  loop_up n lo (fun i s => let? c := g i (Screen.Content s) in
                           Some (Screen.with_Content c s)) s
  = let? c := loop_up n lo g (Screen.Content s) in Some (Screen.with_Content c s).
Proof.
  revert lo s. induction n as [|n IH]; intros lo s; cbn [loop_up bindP].
  - destruct s; reflexivity.
  - destruct (g lo (Screen.Content s)) as [c|]; cbn [bindP]; [|reflexivity].
    rewrite IH. reflexivity.
Qed.

(** A run of [n] cells set to one value succeeds inside the row. *)
Lemma init_run_exact {A : Type} (arr : list A) (lo : Z) (n : nat) (init : A) :
  0 <= lo -> lo + Z.of_nat n <= len arr ->
  loop_up n lo (fun i arr => store arr i init) arr
  = Some (take (Z.to_nat lo) arr ++ replicate n init ++ drop (Z.to_nat lo + n) arr).
Proof.
  intros Hlo Hfit.
  destruct (init_run arr lo n init Hlo Hfit) as [arr2 [Hrun _]].
  rewrite Hrun. f_equal. eapply init_run_closed; eassumption.
Qed.

(** The row at the boundary between the rows already built and the rows
    still empty. *)
Lemma built_insert {A : Type} (k n : nat) (done todo x : A) :
  (k < n)%nat ->
  <[k := x]> (replicate k done ++ replicate (n - k) todo)
  = replicate k done ++ x :: replicate (n - Datatypes.S k) todo.
Proof.
  intros Hk. rewrite insert_app_r_alt by (rewrite length_replicate; lia).
  rewrite length_replicate, Nat.sub_diag.
  replace (n - k)%nat with (Datatypes.S (n - Datatypes.S k)) by lia.
  reflexivity.
Qed.

Lemma built_insert_done {A : Type} (k : nat) (done x : A) (rest : list A) :
  <[k := done]> (replicate k done ++ x :: rest)
  = replicate (Datatypes.S k) done ++ rest.
Proof.
  rewrite insert_app_r_alt by (rewrite length_replicate; lia).
  rewrite length_replicate, Nat.sub_diag. cbn [insert list_insert].
  rewrite replicate_S_end, <- app_assoc. reflexivity.
Qed.

Lemma built_index {A : Type} (k : nat) (done x : A) (rest : list A) :
  index (replicate k done ++ x :: rest) (Z.of_nat k) = Some x.
Proof.
  rewrite index_nat by lia. rewrite Nat2Z.id.
  rewrite lookup_app_r by (rewrite length_replicate; lia).
  rewrite length_replicate, Nat.sub_diag. reflexivity.
Qed.

(** The grid that [reset] builds. *)
Lemma reset_exact (s : Screen.grid) :
  0 <= Screen.Height s -> 0 <= Screen.Width s ->
  Screen.reset s
  = Some (Screen.mk (Screen.Height s) (Screen.Width s)
            (replicate (Z.to_nat (Screen.Height s))
               (replicate (Z.to_nat (Screen.Width s)) space))
            (replicate (Z.to_nat (Screen.Height s))
               (replicate (Z.to_nat (Screen.Width s)) Format.zero))
            (Cursor.mk 0 0 (Cursor.F (Screen.Cursor s)) (Cursor.S (Screen.Cursor s)))
            (Screen.SavedCursor s) (Screen.Changes s) (Screen.MaxY s) (Screen.MaxX s)
            (Screen.ScrollRegion s)).
Proof.
  intros HH HW. unfold Screen.reset.
  rewrite blank_nonneg by assumption. cbn [bindP].
  change (Screen.Height (Screen.with_Content ?c s)) with (Screen.Height s).
  rewrite blank_nonneg by assumption. cbn [bindP].
  change (Screen.Height (Screen.with_Format ?f (Screen.with_Content ?c s)))
    with (Screen.Height s).
  set (H := Z.to_nat (Screen.Height s)). set (W := Z.to_nat (Screen.Width s)).
  unfold for_lt. rewrite Z.sub_0_r. fold H.
  destruct (loop_up_invariant
    (fun k s' =>
       s' = Screen.with_Format
              (replicate k (replicate W Format.zero) ++ replicate (H - k) [])
              (Screen.with_Content
                 (replicate k (replicate W space) ++ replicate (H - k) []) s))
    (fun row s =>
         let? crow := blank (Screen.Width s) 0 in
         let? content := store (Screen.Content s) row crow in
         let s := Screen.with_Content content s in
         let? frow := blank (Screen.Width s) Format.zero in
         let? fmt := store (Screen.Format s) row frow in
         let s := Screen.with_Format fmt s in
         loop_up (Z.to_nat (Screen.Width s - 0)) 0
           (fun col s =>
              let? content := store2 (Screen.Content s) row col space in
              Some (Screen.with_Content content s)) s)
    H 0 (Screen.with_Format (replicate H []) (Screen.with_Content (replicate H []) s)))
    as [s' [Hrun Hs']].
  - cbn [replicate app]. rewrite Nat.sub_0_r. reflexivity.
  - intros k s1 Hk ->. rewrite Z.add_0_l.
    cbn [Screen.with_Format Screen.with_Content Screen.Content Screen.Format
         Screen.Height Screen.Width Screen.Cursor Screen.SavedCursor Screen.Changes
         Screen.MaxY Screen.MaxX Screen.ScrollRegion].
    rewrite !blank_nonneg by assumption. cbn [bindP]. fold W.
    assert (Hlen : forall (A : Type) (a b : list A),
               len (replicate k a ++ replicate (H - k) b) = Z.of_nat H).
    { intros. unfold len. rewrite length_app, !length_replicate. lia. }
    rewrite store_in_range by (rewrite Hlen; lia). cbn [bindP].
    rewrite store_in_range by (rewrite Hlen; lia). cbn [bindP].
    rewrite Nat2Z.id, !built_insert by assumption.
    rewrite Z.sub_0_r. fold W.
    rewrite (content_loop (fun col c => store2 c (Z.of_nat k) col space)).
    cbn [Screen.with_Format Screen.with_Content Screen.Content Screen.Format
         Screen.Height Screen.Width Screen.Cursor Screen.SavedCursor Screen.Changes
         Screen.MaxY Screen.MaxX Screen.ScrollRegion].
    rewrite (store2_run _ _ (replicate W 0)) by apply built_index.
    rewrite init_run_exact by (unfold len; rewrite ?length_replicate; lia).
    cbn [bindP]. eexists. split; [reflexivity|].
    cbn [Screen.with_Format Screen.with_Content Screen.Content Screen.Format
         Screen.Height Screen.Width Screen.Cursor Screen.SavedCursor Screen.Changes
         Screen.MaxY Screen.MaxX Screen.ScrollRegion].
    rewrite Nat2Z.id.
    change (Z.to_nat 0) with 0%nat. cbn [take Nat.add app].
    rewrite drop_ge by (rewrite length_replicate; lia). rewrite app_nil_r.
    rewrite built_insert_done.
    replace (replicate k (replicate W Format.zero)
              ++ replicate W Format.zero :: replicate (H - Datatypes.S k) [])
      with (replicate (Datatypes.S k) (replicate W Format.zero)
              ++ replicate (H - Datatypes.S k) []).
    + reflexivity.
    + rewrite replicate_S_end, <- app_assoc. reflexivity.
  - rewrite Hs' in Hrun. rewrite Nat.sub_diag in Hrun. cbn [replicate] in Hrun.
    rewrite !app_nil_r in Hrun. 
    etransitivity; [apply (f_equal (fun m => bindP m _) Hrun)|].
    cbn [bindP]. reflexivity.
Qed.

(** X24.  [reset] on a screen whose two dimensions are not negative returns,
    whatever the grid held: every rune is a space, every format the default
    one, in [Height] rows of [Width] cells; the cursor is at (0,0) with the
    format and style it had; nothing else changes. *)
Theorem reset_blank_grid (s : Screen.grid) :
  0 <= Screen.Height s -> 0 <= Screen.Width s ->
  Screen.reset s
  = Some (Screen.mk (Screen.Height s) (Screen.Width s)
            (replicate (Z.to_nat (Screen.Height s))
               (replicate (Z.to_nat (Screen.Width s)) space))
            (replicate (Z.to_nat (Screen.Height s))
               (replicate (Z.to_nat (Screen.Width s)) Format.zero))
            (Cursor.mk 0 0 (Cursor.F (Screen.Cursor s)) (Cursor.S (Screen.Cursor s)))
            (Screen.SavedCursor s) (Screen.Changes s) (Screen.MaxY s) (Screen.MaxX s)
            (Screen.ScrollRegion s)).
Proof. apply reset_exact. Qed.

(** X25.  [newScreen(h, w)] panics on a negative height, and on a negative
    width unless the height is 0 (no row is then made); otherwise it returns
    the blank grid of [h] rows of [w] cells with the cursor at (0,0). *)
Theorem newScreen_grid (h w : Z) :
  Screen.newScreen h w
  = if (h <? 0) || ((0 <? h) && (w <? 0)) then None
    else Some (Screen.mk h w
                 (replicate (Z.to_nat h) (replicate (Z.to_nat w) space))
                 (replicate (Z.to_nat h) (replicate (Z.to_nat w) Format.zero))
                 Cursor.zero Cursor.zero [] 0 0 None).
Proof.
  unfold Screen.newScreen.
  destruct (Z.ltb_spec h 0) as [Hneg|Hh]; cbn [orb].
  - unfold Screen.reset, blank. cbn [Screen.Height].
    destruct (Z.ltb_spec h 0); [reflexivity | lia].
  - destruct (Z.ltb_spec 0 h) as [Hpos|Hzero]; cbn [andb].
    + destruct (Z.ltb_spec w 0) as [Hw|Hw].
      * unfold Screen.reset. cbn [Screen.Height Screen.with_Content Screen.with_Format].
        rewrite !blank_nonneg by assumption. cbn [bindP].
        unfold for_lt. destruct (Z.to_nat (h - 0)) as [|n] eqn:E; [lia|].
        cbn [loop_up]. cbn [Screen.Width Screen.with_Content Screen.with_Format].
        unfold blank at 1. destruct (Z.ltb_spec w 0); [reflexivity | lia].
      * rewrite reset_exact by assumption. reflexivity.
    + assert (h = 0) as -> by lia. reflexivity.
Qed.

(** X26.  [NewTerminal(rows, cols)] with dimensions that are not negative
    returns a terminal on the blank grid of [rows] rows of [cols] cells,
    every format the default one, the cursor at (0,0), with no alternate
    screen and every flag off. *)
Theorem NewTerminal_blank (rows cols : Z) :
  0 <= rows -> 0 <= cols ->
  Terminal.NewTerminal rows cols
  = Some (Terminal.mk
            (Some (Screen.mk rows cols
                     (replicate (Z.to_nat rows) (replicate (Z.to_nat cols) space))
                     (replicate (Z.to_nat rows) (replicate (Z.to_nat cols) Format.zero))
                     Cursor.zero Cursor.zero [] 0 0 None))
            String.EmptyString None false false false false false false false []).
Proof.
  intros Hr Hc. unfold Terminal.NewTerminal, Screen.newScreen.
  rewrite reset_exact by assumption. cbn [bindP Terminal.screen Terminal.Screen].
  rewrite reset_exact by assumption. reflexivity.
Qed.

(** ** Resizing, cell by cell *)

Ltac screen_fields :=
  cbn [Screen.with_Format Screen.with_Content Screen.Content Screen.Format
       Screen.Height Screen.Width Screen.Cursor Screen.SavedCursor Screen.Changes
       Screen.MaxY Screen.MaxX Screen.ScrollRegion].

Lemma forallb_len_Forall {A : Type} (l : list (list A)) (w : Z) :
  forallb (fun row => len row =? w) l = true ->
  Forall (fun row => length row = Z.to_nat w) l.
Proof.
  induction l as [|row l IH]; [constructor|].
  cbn [forallb]. intros [Hrow Hl]%andb_true_iff. apply Z.eqb_eq in Hrow.
  constructor; [unfold len in Hrow; lia | auto].
Qed.

(** A regular grid, in terms of its rows. *)
Lemma regular_rows (s : Screen.grid) :
  Screen.regular s = true ->
  0 <= Screen.Height s /\ 0 <= Screen.Width s
  /\ length (Screen.Content s) = Z.to_nat (Screen.Height s)
  /\ length (Screen.Format s) = Z.to_nat (Screen.Height s)
  /\ Forall (fun row => length row = Z.to_nat (Screen.Width s)) (Screen.Content s)
  /\ Forall (fun row => length row = Z.to_nat (Screen.Width s)) (Screen.Format s).
Proof.
  unfold Screen.regular. rewrite !andb_true_iff.
  intros [[[[Hw Hc] Hf] Hrc] Hrf].
  apply Z.leb_le in Hw. apply Z.eqb_eq in Hc, Hf. unfold len in Hc, Hf.
  repeat split; try lia; apply forallb_len_Forall; assumption.
Qed.

Lemma Forall_index {A : Type} (P : A -> Prop) (l : list A) (j : Z) (x : A) :
  Forall P l -> index l j = Some x -> P x.
Proof.
  intros HP Hx. apply index_Some in Hx as [_ Hx].
  eapply Forall_lookup_1; eassumption.
Qed.

Lemma index_first {A : Type} (l : list A) :
  (0 < length l)%nat -> exists x, index l 0 = Some x.
Proof. intros H. apply index_in_range. unfold len. lia. Qed.

Lemma index_app_end {A : Type} (l : list A) (x : A) (y : Z) :
  y = len l -> index (l ++ [x]) y = Some x.
Proof.
  intros ->. unfold len. rewrite index_nat by lia. rewrite Nat2Z.id.
  rewrite lookup_app_r by lia. rewrite Nat.sub_diag. reflexivity.
Qed.

Lemma insert_app_end {A : Type} (l : list A) (x x' : A) (n : nat) :
  n = length l -> <[n := x']> (l ++ [x]) = l ++ [x'].
Proof.
  intros ->. rewrite insert_app_r_alt by lia. rewrite Nat.sub_diag. reflexivity.
Qed.

Lemma fit_grow {A : Type} (n : Z) (pad : A) (l : list A) :
  (length l <= Z.to_nat n)%nat ->
  Screen.fit n pad l = l ++ replicate (Z.to_nat n - length l) pad.
Proof. intros H. unfold Screen.fit. rewrite take_ge by lia. reflexivity. Qed.

Lemma fit_cut {A : Type} (n : Z) (pad : A) (l : list A) :
  (Z.to_nat n <= length l)%nat -> Screen.fit n pad l = take (Z.to_nat n) l.
Proof.
  intros H. unfold Screen.fit.
  replace (Z.to_nat n - length l)%nat with 0%nat by lia.
  cbn [replicate]. apply app_nil_r.
Qed.

Lemma fit_length {A : Type} (n : Z) (pad : A) (l : list A) :
  length (Screen.fit n pad l) = Z.to_nat n.
Proof.
  unfold Screen.fit. rewrite length_app, length_take, length_replicate. lia.
Qed.

Lemma fit_rows {A : Type} (w : Z) (pad : A) (l : list (list A)) :
  Forall (fun row => length row = Z.to_nat w) l -> Screen.fit w pad <$> l = l.
Proof.
  induction 1 as [|row l Hrow _ IH]; [reflexivity|].
  rewrite fmap_cons, IH. f_equal. rewrite fit_cut by lia. apply take_ge. lia.
Qed.

Lemma fit_Forall {A : Type} (P : A -> Prop) (n : Z) (pad : A) (l : list A) :
  P pad -> Forall P l -> Forall P (Screen.fit n pad l).
Proof.
  intros Hpad Hl. unfold Screen.fit. apply Forall_app. split.
  - apply Forall_take. assumption.
  - apply Forall_replicate. assumption.
Qed.

(** The first conditional of [resize]: the rows are cut to [h], or blank
    rows of the old width are added up to [h]. *)
Lemma resizeRows_exact (h : Z) (v : Screen.grid) :
  Screen.regular v = true ->
  0 <= h <= Int.max_int ->
  Screen.resizeRows h v
  = Some (Screen.with_Format
            (Screen.fit h (replicate (Z.to_nat (Screen.Width v)) Format.zero)
               (Screen.Format v))
            (Screen.with_Content
               (Screen.fit h (replicate (Z.to_nat (Screen.Width v)) space)
                  (Screen.Content v)) v)).
Proof.
  intros Hreg Hh. unfold Int.max_int in Hh.
  destruct (regular_rows v Hreg) as (HH & HW & HlC & HlF & HrC & HrF).
  set (W := Z.to_nat (Screen.Width v)) in *.
  unfold Screen.resizeRows. rewrite Z.gtb_ltb.
  destruct (Z.ltb_spec (Screen.Height v) h) as [Hgrow|Hnogrow].
  - rewrite sub_in_range
      by (unfold Int.in_range, Int.min_int, Int.max_int; lia).
    unfold for_lt at 1.
    destruct (loop_up_invariant
                (fun k v' =>
                   v' = Screen.with_Format
                          (Screen.Format v ++ replicate k (replicate W Format.zero))
                          (Screen.with_Content
                             (Screen.Content v ++ replicate k (replicate W space)) v))
                (fun row v =>
                   let? crow := blank (Screen.Width v) 0 in
                   let v := Screen.with_Content (Screen.Content v ++ [crow]) v in
                   let? frow := blank (Screen.Width v) Format.zero in
                   let v := Screen.with_Format (Screen.Format v ++ [frow]) v in
                   for_lt 0 (Screen.Width v)
                     (fun col v =>
                        Screen.clear (Int.add (Screen.Height v) row) col Format.zero v) v)
                (Z.to_nat (h - Screen.Height v - 0)) 0 v) as [v1 [Hrun Hv1]].
    + cbn [replicate]. rewrite !app_nil_r. destruct v; reflexivity.
    + intros k v' Hk ->. screen_fields.
      rewrite !blank_nonneg by assumption. cbn [bindP]. fold W.
      unfold for_lt. rewrite Z.add_0_l, Z.sub_0_r. fold W.
      eexists. split.
      * apply (clear_run W 0 (Screen.Height v + Z.of_nat k) Format.zero
                 (fun v => Int.add (Screen.Height v) (Z.of_nat k)) _
                 (replicate W 0) (replicate W Format.zero)).
        -- screen_fields. apply index_app_end. unfold len.
           rewrite length_app, length_replicate. lia.
        -- screen_fields. apply index_app_end. unfold len.
           rewrite length_app, length_replicate. lia.
        -- lia.
        -- intros c F. screen_fields. apply add_in_range.
           unfold Int.in_range, Int.min_int, Int.max_int; lia.
        -- intros HWpos. unfold len. rewrite !length_replicate.
           split; [lia|]. split; [lia|]. screen_fields.
           destruct (index_first
                       ((Screen.Content v ++ replicate k (replicate W space))
                          ++ [replicate W 0])) as [row0 Hrow0].
           { rewrite length_app. cbn [length]. lia. }
           exists row0. split; [exact Hrow0|].
           assert (Hlen0 : length row0 = W).
           { eapply (Forall_index (fun row => length row = W)); [|exact Hrow0].
             apply Forall_app. split; [apply Forall_app; split|].
             - exact HrC.
             - apply Forall_replicate, length_replicate.
             - apply Forall_singleton, length_replicate. }
           lia.
      * screen_fields. unfold Screen.with_Format, Screen.with_Content. screen_fields.
        change (Z.to_nat 0) with 0%nat. cbn [take Nat.add app].
        rewrite !drop_ge by (rewrite length_replicate; lia). rewrite !app_nil_r.
        rewrite !insert_app_end
          by (rewrite length_app, length_replicate; lia).
        rewrite !replicate_S_end, !app_assoc. reflexivity.
    + rewrite Hv1 in Hrun. etransitivity; [exact Hrun|].
      rewrite !fit_grow by lia.
      replace (Z.to_nat h - length (Screen.Format v))%nat
        with (Z.to_nat (h - Screen.Height v - 0)) by lia.
      replace (Z.to_nat h - length (Screen.Content v))%nat
        with (Z.to_nat (h - Screen.Height v - 0)) by lia.
      reflexivity.
  - destruct (Z.ltb_spec h (Screen.Height v)) as [Hshrink|Hsame].
    + unfold slice_to. screen_fields. unfold len. rewrite HlC, HlF.
      destruct (Z.leb_spec 0 h); [|lia].
      destruct (Z.leb_spec h (Z.of_nat (Z.to_nat (Screen.Height v)))); [|lia].
      cbn [andb bindP]. rewrite !fit_cut by lia. reflexivity.
    + rewrite !fit_cut by lia. rewrite !take_ge by lia.
      destruct v; reflexivity.
Qed.

(** The rows before [k] rewritten by [f], the others as they were. *)
Lemma prefix_step {A : Type} (f : A -> A) (l : list A) (k : nat) (x : A) :
  l !! k = Some x ->
  <[k := f x]> ((f <$> take k l) ++ drop k l)
  = (f <$> take (Datatypes.S k) l) ++ drop (Datatypes.S k) l.
Proof.
  intros Hx. pose proof (lookup_lt_Some _ _ _ Hx) as Hk.
  rewrite insert_app_r_alt by (rewrite length_fmap, length_take; lia).
  rewrite length_fmap, length_take, Nat.min_l, Nat.sub_diag by lia.
  rewrite (drop_S _ _ _ Hx). cbn [insert list_insert].
  rewrite (take_S_r _ _ _ Hx), fmap_app, <- app_assoc. reflexivity.
Qed.

Lemma prefix_index {A : Type} (f : A -> A) (l : list A) (k : nat) (x : A) :
  l !! k = Some x ->
  index ((f <$> take k l) ++ drop k l) (Z.of_nat k) = Some x.
Proof.
  intros Hx. pose proof (lookup_lt_Some _ _ _ Hx) as Hk.
  rewrite index_nat by lia. rewrite Nat2Z.id.
  rewrite lookup_app_r by (rewrite length_fmap, length_take; lia).
  rewrite length_fmap, length_take, Nat.min_l, Nat.sub_diag by lia.
  rewrite lookup_drop, Nat.add_0_r. exact Hx.
Qed.

Lemma prefix_length {A : Type} (f : A -> A) (l : list A) (k : nat) :
  (k <= length l)%nat -> length ((f <$> take k l) ++ drop k l) = length l.
Proof.
  intros Hk. rewrite length_app, length_fmap, length_take, length_drop. lia.
Qed.

(** The second conditional of [resize]: every row is cut to [w] cells, or
    padded with blank cells up to [w]. *)
Lemma resizeColumns_exact (w : Z) (v : Screen.grid) :
  0 <= Screen.Width v ->
  length (Screen.Format v) = length (Screen.Content v) ->
  Forall (fun row => length row = Z.to_nat (Screen.Width v)) (Screen.Content v) ->
  Forall (fun row => length row = Z.to_nat (Screen.Width v)) (Screen.Format v) ->
  0 <= w <= Int.max_int ->
  Screen.resizeColumns w v
  = Some (Screen.with_Format (Screen.fit w Format.zero <$> Screen.Format v)
            (Screen.with_Content (Screen.fit w space <$> Screen.Content v) v)).
Proof.
  intros HW HlF HrC HrF Hw. unfold Int.max_int in Hw.
  set (W := Z.to_nat (Screen.Width v)) in *.
  set (C := Screen.Content v) in *. set (F := Screen.Format v) in *.
  assert (Hinv : forall body : Z -> Screen.grid -> option Screen.grid,
    (forall (k : nat) (old : list rune) (oldf : list Format.t),
        C !! k = Some old -> F !! k = Some oldf ->
        body (Z.of_nat k)
          (Screen.with_Format ((Screen.fit w Format.zero <$> take k F) ++ drop k F)
             (Screen.with_Content ((Screen.fit w space <$> take k C) ++ drop k C) v))
        = Some (Screen.with_Format
                  (<[k := Screen.fit w Format.zero oldf]>
                     ((Screen.fit w Format.zero <$> take k F) ++ drop k F))
                  (Screen.with_Content
                     (<[k := Screen.fit w space old]>
                        ((Screen.fit w space <$> take k C) ++ drop k C)) v))) ->
    for_lt 0 (len C) body v
    = Some (Screen.with_Format (Screen.fit w Format.zero <$> F)
              (Screen.with_Content (Screen.fit w space <$> C) v))).
  { intros body Hbody. unfold for_lt.
    destruct (loop_up_invariant
      (fun k v' =>
         v' = Screen.with_Format ((Screen.fit w Format.zero <$> take k F) ++ drop k F)
                (Screen.with_Content ((Screen.fit w space <$> take k C) ++ drop k C) v))
      body (Z.to_nat (len C - 0)) 0 v) as [v2 [Hrun Hv2]].
    - cbn [take drop fmap list_fmap app]. unfold C, F. destruct v; reflexivity.
    - intros k v' Hk ->. unfold len in Hk. rewrite Z.add_0_l.
      destruct (lookup_lt_is_Some_2 C k ltac:(lia)) as [old Hold].
      destruct (lookup_lt_is_Some_2 F k ltac:(lia)) as [oldf Holdf].
      rewrite (Hbody k old oldf Hold Holdf). eexists. split; [reflexivity|].
      rewrite !prefix_step by assumption. reflexivity.
    - rewrite Hv2 in Hrun. etransitivity; [exact Hrun|].
      unfold len. rewrite Z.sub_0_r, Nat2Z.id.
      rewrite !take_ge, !drop_ge, !app_nil_r by lia. reflexivity. }
  unfold Screen.resizeColumns. rewrite Z.gtb_ltb. fold C.
  destruct (Z.ltb_spec (Screen.Width v) w) as [Hgrow|Hnogrow].
  - apply Hinv. intros k old oldf Hold Holdf.
    pose proof (lookup_lt_Some _ _ _ Hold) as HkC.
    pose proof (lookup_lt_Some _ _ _ Holdf) as HkF.
    pose proof (Forall_lookup_1 _ _ _ _ HrC Hold) as Hlo. cbn beta in Hlo.
    pose proof (Forall_lookup_1 _ _ _ _ HrF Holdf) as Hlof. cbn beta in Hlof.
    screen_fields.
    rewrite (prefix_index _ _ _ _ Hold). cbn [bindP].
    unfold Screen.widen. rewrite !blank_nonneg by lia. cbn [bindP].
    rewrite store_in_range by (unfold len; rewrite prefix_length; lia). cbn [bindP].
    rewrite (prefix_index _ _ _ _ Holdf). cbn [bindP].
    rewrite store_in_range by (unfold len; rewrite prefix_length; lia). cbn [bindP].
    rewrite Nat2Z.id. unfold for_lt.
    set (cr := take (Z.to_nat w) old ++ drop (length old) (replicate (Z.to_nat w) 0)).
    set (fr := take (Z.to_nat w) oldf
                 ++ drop (length oldf) (replicate (Z.to_nat w) Format.zero)).
    assert (Hcr : cr = old ++ replicate (Z.to_nat w - W) 0).
    { unfold cr. rewrite take_ge, drop_replicate by lia. rewrite Hlo. reflexivity. }
    assert (Hfr : fr = oldf ++ replicate (Z.to_nat w - W) Format.zero).
    { unfold fr. rewrite take_ge, drop_replicate by lia. rewrite Hlof. reflexivity. }
    assert (Hlcr : length cr = Z.to_nat w)
      by (rewrite Hcr, length_app, length_replicate; lia).
    assert (Hlfr : length fr = Z.to_nat w)
      by (rewrite Hfr, length_app, length_replicate; lia).
    etransitivity.
    + apply (clear_run (Z.to_nat (w - Screen.Width v)) (Screen.Width v) (Z.of_nat k)
               Format.zero (fun _ => Z.of_nat k) _ cr fr).
      * screen_fields. rewrite <- (Nat2Z.id k) at 1. eapply index_insert_same.
        apply prefix_index. exact Hold.
      * screen_fields. rewrite <- (Nat2Z.id k) at 1. eapply index_insert_same.
        apply prefix_index. exact Holdf.
      * lia.
      * reflexivity.
      * intros Hpos. unfold len. rewrite Hlcr, Hlfr.
        split; [lia|]. split; [lia|]. screen_fields.
        destruct (index_first (<[k := cr]> ((Screen.fit w space <$> take k C) ++ drop k C)))
          as [row0 Hrow0].
        { rewrite length_insert, prefix_length; lia. }
        exists row0. split; [exact Hrow0|].
        assert (Hlen0 : length row0 = Z.to_nat w); [|lia].
        destruct k as [|k'].
        -- cbn [take fmap list_fmap app drop] in Hrow0.
           destruct C as [|c0 C']; [cbn in HkC; lia|].
           cbn in Hrow0. injection Hrow0 as <-. exact Hlcr.
        -- apply index_Some in Hrow0 as [_ Hrow0]. change (Z.to_nat 0) with 0%nat in Hrow0.
           rewrite list_lookup_insert_ne in Hrow0 by lia.
           destruct C as [|c0 C']; [cbn in HkC; lia|].
           cbn in Hrow0. injection Hrow0 as <-. apply fit_length.
    + screen_fields. unfold Screen.with_Format, Screen.with_Content. screen_fields.
      rewrite !Nat2Z.id, !list_insert_insert_eq.
      replace (Z.to_nat (Screen.Width v)) with W by reflexivity.
      replace (W + Z.to_nat (w - Screen.Width v))%nat with (Z.to_nat w) by lia.
      rewrite (drop_ge cr), (drop_ge fr) by lia.
      rewrite Hcr, Hfr. rewrite !take_app_length' by lia.
      rewrite !app_nil_r, !fit_grow by lia. rewrite Hlo, Hlof.
      replace (Z.to_nat (w - Screen.Width v)) with (Z.to_nat w - W)%nat by lia.
      reflexivity.
  - destruct (Z.ltb_spec w (Screen.Width v)) as [Hshrink|Hsame].
    + apply Hinv. intros k old oldf Hold Holdf.
      pose proof (lookup_lt_Some _ _ _ Hold) as HkC.
      pose proof (lookup_lt_Some _ _ _ Holdf) as HkF.
      pose proof (Forall_lookup_1 _ _ _ _ HrC Hold) as Hlo. cbn beta in Hlo.
      pose proof (Forall_lookup_1 _ _ _ _ HrF Holdf) as Hlof. cbn beta in Hlof.
      screen_fields.
      assert (Hcut : forall (A : Type) (r : list A),
                 length r = W -> slice_to r w = Some (take (Z.to_nat w) r)).
      { intros A r Hr. unfold slice_to, len. rewrite Hr.
        destruct (Z.leb_spec 0 w); [|lia].
        destruct (Z.leb_spec w (Z.of_nat W)); [|lia]. reflexivity. }
      rewrite (prefix_index _ _ _ _ Hold). cbn [bindP].
      rewrite (Hcut _ old Hlo). cbn [bindP].
      rewrite store_in_range by (unfold len; rewrite prefix_length; lia). cbn [bindP].
      rewrite (prefix_index _ _ _ _ Holdf). cbn [bindP].
      rewrite (Hcut _ oldf Hlof). cbn [bindP].
      rewrite store_in_range by (unfold len; rewrite prefix_length; lia). cbn [bindP].
      rewrite Nat2Z.id, !fit_cut by lia. reflexivity.
    + assert (Hweq : Z.to_nat w = W) by lia.
      rewrite !fit_rows by (rewrite Hweq; assumption).
      unfold C, F. destruct v; reflexivity.
Qed.

(** [resize] on a regular grid, in closed form. *)
Lemma resize_exact (h w : Z) (s : Screen.grid) :
  Screen.regular s = true ->
  0 <= h <= Int.max_int -> 0 <= w <= Int.max_int ->
  Screen.resize h w s
  = Some (Screen.with_Format
            (Screen.fit w Format.zero
               <$> Screen.fit h (replicate (Z.to_nat (Screen.Width s)) Format.zero)
                     (Screen.Format s))
            (Screen.with_Content
               (Screen.fit w space
                  <$> Screen.fit h (replicate (Z.to_nat (Screen.Width s)) space)
                        (Screen.Content s)) s)).
Proof.
  intros Hreg Hh Hw. unfold Screen.resize.
  rewrite resizeRows_exact by assumption. cbn [bindP].
  destruct (regular_rows s Hreg) as (HH & HW & HlC & HlF & HrC & HrF).
  rewrite resizeColumns_exact; screen_fields; try assumption.
  - reflexivity.
  - rewrite !fit_length. reflexivity.
  - apply fit_Forall; [apply length_replicate | assumption].
  - apply fit_Forall; [apply length_replicate | assumption].
Qed.

(** X27.  [resize(h, w)] on a regular grid, cell by cell: each grid is first
    cut to [h] rows or extended to [h] rows by blank rows of the old width,
    then every row is cut to [w] cells or extended to [w] cells by blanks
    (a space, the default format).  Every cell that lies in both the old and
    the new grid keeps its rune and format.  No other field changes: the
    cursor stays where it was, and so do the [Height] and [Width] fields,
    which [resize] never assigns. *)
Theorem resize_cells (h w : Z) (s : Screen.grid) :
  Screen.regular s = true ->
  0 <= h <= Int.max_int -> 0 <= w <= Int.max_int ->
  Screen.resize h w s
  = Some (Screen.with_Format
            (Screen.fit w Format.zero
               <$> Screen.fit h (replicate (Z.to_nat (Screen.Width s)) Format.zero)
                     (Screen.Format s))
            (Screen.with_Content
               (Screen.fit w space
                  <$> Screen.fit h (replicate (Z.to_nat (Screen.Width s)) space)
                        (Screen.Content s)) s)).
Proof. apply resize_exact. Qed.

Lemma resize_sized (h w : Z) (s : Screen.grid) :
  Screen.regular s = true ->
  0 <= h <= Int.max_int -> 0 <= w <= Int.max_int ->
  exists s', Screen.resize h w s = Some s'
             /\ Screen.sized h w s' /\ Screen.frame s' = Screen.frame s.
Proof.
  intros Hreg Hh Hw. eexists. split; [apply resize_exact; assumption|].
  split; [|reflexivity].
  unfold Screen.sized. screen_fields. unfold len.
  rewrite !length_fmap, !fit_length.
  repeat split; try lia; apply Forall_fmap, Forall_forall; intros row _;
    cbn; rewrite fit_length; lia.
Qed.

(** X28.  [Resize(rows, cols)] on a terminal whose screens are regular
    returns: the active screen and the alternate screen, when there is one,
    both have [rows] rows of [cols] cells afterwards, both auto-resize flags
    are off, and every other field is as it was: the cursors, and the
    [Height] and [Width] fields of the two screens, which no statement
    assigns. *)
Theorem Resize_both_screens (rows cols : Z) (v : Terminal.t (list Format.t))
    (s : Screen.grid) :
  Terminal.Screen v = Some s ->
  Screen.regular s = true ->
  (forall a, Terminal.Alt v = Some a -> Screen.regular a = true) ->
  0 <= rows <= Int.max_int -> 0 <= cols <= Int.max_int ->
  exists v',
    Terminal.Resize rows cols v = Some v'
    /\ Terminal.AutoResizeX v' = false /\ Terminal.AutoResizeY v' = false
    /\ (exists s', Terminal.Screen v' = Some s'
                   /\ Screen.sized rows cols s' /\ Screen.frame s' = Screen.frame s)
    /\ match Terminal.Alt v with
       | Some a => exists a', Terminal.Alt v' = Some a'
                              /\ Screen.sized rows cols a'
                              /\ Screen.frame a' = Screen.frame a
       | None => Terminal.Alt v' = None
       end
    /\ (Terminal.Title v', Terminal.IsAlt v', Terminal.Raw v', Terminal.AppendOnly v',
        Terminal.wrap v', Terminal.onScrollback v', Terminal.scrollback v')
       = (Terminal.Title v, Terminal.IsAlt v, Terminal.Raw v, Terminal.AppendOnly v,
          Terminal.wrap v, Terminal.onScrollback v, Terminal.scrollback v).
Proof.
  intros Hs Hreg Halt Hr Hc.
  destruct (resize_sized rows cols s Hreg Hr Hc) as [s' [Hrs [Hsz Hfr]]].
  unfold Terminal.Resize, Terminal.resize, Terminal.screen.
  rewrite Hs. cbn [bindP]. rewrite Hrs. cbn [bindP].
  change (Terminal.Alt (Terminal.with_Screen (Some s') v)) with (Terminal.Alt v).
  destruct (Terminal.Alt v) as [a|] eqn:Ha.
  - destruct (resize_sized rows cols a (Halt a eq_refl) Hr Hc) as [a' [Hra [Hsza Hfra]]].
    rewrite Hra. cbn [bindP]. eexists. split; [reflexivity|].
    cbn. repeat split; eauto.
  - cbn [bindP]. eexists. split; [reflexivity|].
    cbn. rewrite Ha. repeat split; eauto.
Qed.

(** ** Erasing a rectangle *)

Lemma wiped_length {A : Type} (x1 x2 : Z) (pad : A) (row : list A) :
  (Z.to_nat x1 + Z.to_nat (x2 + 1 - x1) <= length row)%nat ->
  length (Screen.wiped x1 x2 pad row) = length row.
Proof.
  intros H. unfold Screen.wiped.
  rewrite !length_app, length_take, length_replicate, length_drop. lia.
Qed.

(** The rows of [eraseRegion]: rows [y1 .. y2] of a regular grid lose their
    cells [x1 .. last]. *)
Lemma erase_rows (y1 y2 x1 x2 last : Z) (f : Format.t) (s : Screen.grid) :
  Screen.regular s = true ->
  Screen.Width s <= Int.max_int ->
  0 <= y1 -> y1 <= y2 -> y2 < Screen.Height s ->
  0 <= x1 ->
  last = (if x2 <? 0 then Screen.Width s - 1 else x2) ->
  last < Screen.Width s ->
  exists s',
    for_le y1 y2
      (fun y s =>
         if len (Screen.Content s) <=? y then Some s
         else
           let? rowX2 :=
             if x2 <? 0 then
               let? row := index (Screen.Content s) y in
               Some (Int.sub (len row) 1)
             else Some x2 in
           for_le x1 rowX2 (fun x s => Screen.clear y x f s) s) s = Some s'
    /\ Screen.frame s' = Screen.frame s
    /\ Rows.rewritten (Screen.Content s) (Screen.Content s') y1 y2
         (Screen.wiped x1 last space)
    /\ Rows.rewritten (Screen.Format s) (Screen.Format s') y1 y2
         (Screen.wiped x1 last f).
Proof.
  intros Hreg HWmax Hy1 Hy12 Hy2 Hx1 Hlast HlastW. unfold Int.max_int in HWmax.
  destruct (regular_rows s Hreg) as (HH & HW & HlC & HlF & HrC & HrF).
  set (n := Z.to_nat (last + 1 - x1)).
  assert (Hfit : (0 < n)%nat -> (Z.to_nat x1 + n <= Z.to_nat (Screen.Width s))%nat)
    by (unfold n; lia).
  unfold for_le at 1.
  destruct (loop_up_invariant
    (fun k s' =>
       Screen.frame s' = Screen.frame s
       /\ Rows.rewritten (Screen.Content s) (Screen.Content s') y1 (y1 + Z.of_nat k - 1)
            (Screen.wiped x1 last space)
       /\ Rows.rewritten (Screen.Format s) (Screen.Format s') y1 (y1 + Z.of_nat k - 1)
            (Screen.wiped x1 last f))
    (fun y s =>
         if len (Screen.Content s) <=? y then Some s
         else
           let? rowX2 :=
             if x2 <? 0 then
               let? row := index (Screen.Content s) y in
               Some (Int.sub (len row) 1)
             else Some x2 in
           for_le x1 rowX2 (fun x s => Screen.clear y x f s) s)
    (Z.to_nat (y2 - y1 + 1)) y1 s) as [s' [Hrun [Hfr [HC HF]]]].
  - split; [reflexivity|]. split; (split; [reflexivity|]); intros j; split_tests.
  - intros k s1 Hk (Hfr1 & [HlenC HidxC] & [HlenF HidxF]).
    set (y := y1 + Z.of_nat k).
    assert (Hy : 0 <= y < Screen.Height s) by (unfold y; lia).
    destruct (index_in_range (Screen.Content s) y) as [cr Hcr];
      [unfold len; lia|].
    destruct (index_in_range (Screen.Format s) y) as [fr Hfrow];
      [unfold len; lia|].
    assert (Hlcr : length cr = Z.to_nat (Screen.Width s))
      by (eapply (Forall_index _ _ _ _ HrC); exact Hcr).
    assert (Hlfr : length fr = Z.to_nat (Screen.Width s))
      by (eapply (Forall_index _ _ _ _ HrF); exact Hfrow).
    assert (Hcr1 : index (Screen.Content s1) y = Some cr).
    { rewrite HidxC, <- Hcr. unfold y. split_tests. }
    assert (Hfr1' : index (Screen.Format s1) y = Some fr).
    { rewrite HidxF, <- Hfrow. unfold y. split_tests. }
    rewrite HlenC. destruct (Z.leb_spec (len (Screen.Content s)) y);
      [unfold len in *; lia|].
    assert (Hrow : (if x2 <? 0
                    then let? row := index (Screen.Content s1) y in
                         Some (Int.sub (len row) 1)
                    else Some x2) = Some last).
    { rewrite Hlast. destruct (Z.ltb_spec x2 0); [|reflexivity].
      rewrite Hcr1. cbn [bindP]. unfold len. rewrite Hlcr.
      rewrite sub_in_range
        by (unfold Int.in_range, Int.min_int, Int.max_int; lia).
      f_equal. lia. }
    rewrite Hrow. cbn [bindP]. unfold for_le.
    replace (Z.to_nat (last - x1 + 1)) with n by (unfold n; lia).
    eexists. split.
    + apply (clear_run n x1 y f (fun _ => y) s1 cr fr Hcr1 Hfr1' Hx1).
      * reflexivity.
      * intros Hn. specialize (Hfit Hn). unfold len.
        split; [lia|]. split; [lia|].
        destruct (index_in_range (Screen.Content s) 0) as [r0 Hr0];
          [unfold len; lia|].
        assert (Hlr0 : length r0 = Z.to_nat (Screen.Width s))
          by (eapply (Forall_index _ _ _ _ HrC); exact Hr0).
        rewrite HidxC, Hr0.
        destruct ((y1 <=? 0) && (0 <=? y1 + Z.of_nat k - 1)); cbn [fmap option_fmap option_map].
        -- eexists. split; [reflexivity|].
           rewrite wiped_length by (fold n; lia). lia.
        -- eexists. split; [reflexivity|]. lia.
    + screen_fields. split; [rewrite <- Hfr1; reflexivity|].
      assert (HyC : 0 <= y < len (Screen.Content s1)) by (unfold len in *; lia).
      assert (HyF : 0 <= y < len (Screen.Format s1)) by (unfold len in *; lia).
      split; (split; [rewrite len_insert; assumption|]); intros j;
        rewrite index_insert by assumption.
      * rewrite HidxC. unfold y. destruct (Z.eqb_spec j (y1 + Z.of_nat k)) as [->|Hne].
        -- fold y. rewrite Hcr. cbn [fmap option_fmap option_map].
           unfold Screen.wiped. fold n. split_tests.
        -- split_tests.
      * rewrite HidxF. unfold y. destruct (Z.eqb_spec j (y1 + Z.of_nat k)) as [->|Hne].
        -- fold y. rewrite Hfrow. cbn [fmap option_fmap option_map].
           unfold Screen.wiped. fold n. split_tests.
        -- split_tests.
  - exists s'. split; [exact Hrun|]. split; [exact Hfr|].
    replace (y1 + Z.of_nat (Z.to_nat (y2 - y1 + 1)) - 1) with y2 in HC, HF by lia.
    split; assumption.
Qed.

(** X29.  [eraseRegion(y1, x1, y2, x2)] on a regular grid, for rows
    [0 <= y1 <= y2 < Height] and columns [0 <= x1 <= x2 < Width], or a
    negative [x2] for "to the end of the row": in each row [y1 .. y2] the
    cells [x1 .. x2] (to the last one when [x2] is negative) become a space
    in the cursor's format; every other cell, the size of the grid, the
    cursor and every other field stay; the wrap flag is cleared. *)
Theorem eraseRegion_cells (y1 x1 y2 x2 : Z) (v : Terminal.t (list Format.t))
    (s : Screen.grid) :
  Terminal.Screen v = Some s ->
  Screen.regular s = true ->
  Screen.Width s <= Int.max_int ->
  0 <= y1 <= y2 -> y2 < Screen.Height s ->
  0 <= x1 -> x2 < 0 \/ x1 <= x2 < Screen.Width s ->
  exists s',
    Terminal.eraseRegion y1 x1 y2 x2 v
    = Some (Terminal.with_Screen (Some s') (Terminal.with_wrap false v))
    /\ Screen.frame s' = Screen.frame s
    /\ Rows.rewritten (Screen.Content s) (Screen.Content s') y1 y2
         (Screen.wiped x1 (if x2 <? 0 then Screen.Width s - 1 else x2) space)
    /\ Rows.rewritten (Screen.Format s) (Screen.Format s') y1 y2
         (Screen.wiped x1 (if x2 <? 0 then Screen.Width s - 1 else x2)
            (Cursor.F (Screen.Cursor s))).
Proof.
  intros Hs Hreg HW Hy Hy2 Hx1 Hx2.
  assert (Hlast : (if x2 <? 0 then Screen.Width s - 1 else x2) < Screen.Width s)
    by (destruct (Z.ltb_spec x2 0); lia).
  destruct (erase_rows y1 y2 x1 x2 (if x2 <? 0 then Screen.Width s - 1 else x2)
              (Cursor.F (Screen.Cursor s)) s Hreg HW (proj1 Hy) (proj2 Hy) Hy2 Hx1
              eq_refl Hlast)
    as [s' [Hrun Hrest]].
  exists s'. split; [|exact Hrest].
  unfold Terminal.eraseRegion.
  assert (Hys : (y1 >? y2) && (y2 >? 0) = false).
  { rewrite Z.gtb_ltb. destruct (Z.ltb_spec y2 y1); [lia | reflexivity]. }
  assert (Hxs : (x1 >? x2) && (x2 >? 0) = false).
  { rewrite !Z.gtb_ltb. destruct (Z.ltb_spec x2 x1), (Z.ltb_spec 0 x2);
      try reflexivity; lia. }
  rewrite Hys, Hxs. cbn [fst snd]. unfold Terminal.screen.
  change (Terminal.Screen (Terminal.with_wrap false v)) with (Terminal.Screen v).
  rewrite Hs. cbn [bindP]. 
  etransitivity; [apply (f_equal (fun m => bindP m _) Hrun)|]. reflexivity.
Qed.

(** X30.  The row arguments of [eraseRegion] may come in either order, except
    towards row 0.  With [0 < y2 < y1] the call erases what the call with
    the two rows exchanged erases; with [y2 < y1] and [y2 <= 0], and so for
    a range given from a lower row up to row 0, no cell is erased and only
    the wrap flag is cleared. *)
Theorem eraseRegion_reversed_range (y1 x1 y2 x2 : Z) (v : Terminal.t (list Format.t))
    (s : Screen.grid) :
  Terminal.Screen v = Some s ->
  y2 < y1 ->
  Terminal.eraseRegion y1 x1 y2 x2 v
  = if 0 <? y2 then Terminal.eraseRegion y2 x1 y1 x2 v
    else Some (Terminal.with_wrap false v).
Proof.
  intros Hs Hlt. unfold Terminal.eraseRegion.
  rewrite !Z.gtb_ltb.
  destruct (Z.ltb_spec y2 y1); [|lia]. destruct (Z.ltb_spec y1 y2); [lia|].
  cbn [andb]. destruct (Z.ltb_spec 0 y2) as [Hpos|Hzero]; cbn [fst snd andb].
  - reflexivity.
  - unfold Terminal.screen.
    change (Terminal.Screen (Terminal.with_wrap false v)) with (Terminal.Screen v).
    rewrite Hs. cbn [bindP]. unfold for_le at 1.
    replace (Z.to_nat (y2 - y1 + 1)) with 0%nat by lia. cbn [loop_up bindP].
    destruct v as [scr ? ? ? ? ? ? ? ? ? ?]. cbn in Hs. subst scr. reflexivity.
Qed.

(** ** The further properties on the scenarios *)

Ltac concrete_range := vm_compute; split; discriminate.

(** X1 on the rows of the scenarios. *)
Lemma scrollUp_rows_witness :
  exists arr',
    scrollUp (Screen.Content Scenario.lines) 1 0 4 space = Some arr'
    /\ Rows.shifted (Screen.Content Scenario.lines) arr' 0 (4 - 1) 1 (4 - 1 + 1) 4
         (fun j => Rows.blanked space <$> index (Screen.Content Scenario.lines) j).
Proof.
  apply (scrollUp_rows (Screen.Content Scenario.lines) 1 0 4 space).
  - concrete_range.
  - lia.
  - vm_compute. reflexivity.
  - lia.
Defined.

(** X2 on the rows of the scenarios. *)
Lemma scrollUpShallow_rows_witness :
  exists arr',
    scrollUpShallow (Screen.Changes Scenario.lines) 2 1 3 1 = Some arr'
    /\ Rows.shifted (Screen.Changes Scenario.lines) arr' 1 (3 - 2) 2 (3 - 2 + 1) 3
         (fun _ => Some 1).
Proof.
  apply (scrollUpShallow_rows (Screen.Changes Scenario.lines) 2 1 3 1).
  - concrete_range.
  - lia.
  - vm_compute. reflexivity.
  - lia.
Defined.

(** X3 on the rows of the scenarios. *)
Lemma scrollDown_rows_witness :
  exists arr',
    scrollDown (Screen.Content Scenario.lines) 1 1 3 space = Some arr'
    /\ Rows.shifted (Screen.Content Scenario.lines) arr' (1 + 1) 3 (- 1) 1 (1 + 1 - 1)
         (fun j => Rows.blanked space <$> index (Screen.Content Scenario.lines) j).
Proof.
  apply (scrollDown_rows (Screen.Content Scenario.lines) 1 1 3 space).
  - concrete_range.
  - lia.
  - vm_compute. reflexivity.
  - lia.
  - vm_compute. discriminate.
Defined.

(** X4 on the rows of the scenarios. *)
Lemma scrollDownShallow_rows_witness :
  exists arr',
    scrollDownShallow (Screen.Changes Scenario.lines) 1 0 4 1 = Some arr'
    /\ Rows.shifted (Screen.Changes Scenario.lines) arr' (0 + 1) 4 (- 1) 0 (0 + 1 - 1)
         (fun _ => Some 1).
Proof.
  apply (scrollDownShallow_rows (Screen.Changes Scenario.lines) 1 0 4 1).
  - concrete_range.
  - lia.
  - vm_compute. reflexivity.
  - lia.
  - vm_compute. discriminate.
Defined.

(** X5 on the rows of the scenarios. *)
Lemma insertLines_rows_witness :
  exists arr',
    insertLines (Screen.Content Scenario.lines) 2 1 1 3 space = Some arr'
    /\ Rows.shifted (Screen.Content Scenario.lines) arr' (2 + 1) 3 (- 1) 2 (2 + 1 - 1)
         (fun j => Rows.blanked space <$> index (Screen.Content Scenario.lines) j).
Proof.
  apply (insertLines_rows (Screen.Content Scenario.lines) 2 1 1 3 space).
  - concrete_range.
  - lia.
  - lia.
  - vm_compute. discriminate.
  - vm_compute. reflexivity.
Defined.

(** X6 on the rows of the scenarios. *)
Lemma insertLinesShallow_rows_witness :
  exists arr',
    insertLinesShallow (Screen.Changes Scenario.lines) 2 1 1 3 1 = Some arr'
    /\ Rows.shifted (Screen.Changes Scenario.lines) arr' (2 + 1) 3 (- 1) 2 (2 + 1 - 1)
         (fun _ => Some 1).
Proof.
  apply (insertLinesShallow_rows (Screen.Changes Scenario.lines) 2 1 1 3 1).
  - concrete_range.
  - lia.
  - lia.
  - vm_compute. discriminate.
  - vm_compute. reflexivity.
Defined.

(** X7 on the rows of the scenarios. *)
Lemma deleteLines_rows_witness :
  exists arr',
    deleteLines (Screen.Content Scenario.lines) 1 1 1 3 space = Some arr'
    /\ Rows.shifted (Screen.Content Scenario.lines) arr' 1 (3 - 1) 1 (3 - 1 + 1) 3
         (fun _ => Rows.blanked space <$> index (Screen.Content Scenario.lines) (1 + 1)).
Proof.
  apply (deleteLines_rows (Screen.Content Scenario.lines) 1 1 1 3 space).
  - concrete_range.
  - lia.
  - lia.
  - vm_compute. reflexivity.
Defined.

(** X8 on the rows of the scenarios. *)
Lemma deleteLinesShallow_rows_witness :
  exists arr',
    deleteLinesShallow (Screen.Changes Scenario.lines) 1 1 1 3 1 = Some arr'
    /\ Rows.shifted (Screen.Changes Scenario.lines) arr' 1 (3 - 1) 1 (3 - 1 + 1) 3
         (fun _ => Some 1).
Proof.
  apply (deleteLinesShallow_rows (Screen.Changes Scenario.lines) 1 1 1 3 1).
  - concrete_range.
  - lia.
  - lia.
  - vm_compute. reflexivity.
Defined.



(** X11 on the rows of the scenarios. *)
Lemma eraseCharacters_cells_witness :
  eraseCharacters Scenario.letters 0 2 3 space
  = Some (<[Z.to_nat 0 :=
              take (Z.to_nat 2) Scenario.alphabet ++ replicate (Z.to_nat 3) space
                ++ drop (Z.to_nat (2 + 3)) Scenario.alphabet]> Scenario.letters).
Proof.
  apply (eraseCharacters_cells Scenario.letters 0 2 3 Scenario.alphabet space).
  - concrete_range.
  - reflexivity.
  - lia.
  - lia.
  - vm_compute. discriminate.
Defined.

(** X12 on the rows of the scenarios. *)
Lemma eraseCharacters_past_the_end_witness :
  eraseCharacters Scenario.letters 0 8 3 space = Some Scenario.letters.
Proof.
  apply (eraseCharacters_past_the_end Scenario.letters 0 8 3 Scenario.alphabet space).
  - concrete_range.
  - reflexivity.
  - vm_compute. reflexivity.
Defined.

(** X13 on the rows of the scenarios. *)
Lemma deleteCharacters_cells_witness :
  deleteCharacters Scenario.letters 0 2 3 space
  = Some (<[Z.to_nat 0 :=
              if 2 + 3 <=? len Scenario.alphabet
              then take (Z.to_nat 2) Scenario.alphabet
                     ++ drop (Z.to_nat (2 + 3)) Scenario.alphabet
                     ++ replicate (Z.to_nat 3) space
              else take (Z.to_nat (len Scenario.alphabet - 3)) Scenario.alphabet
                     ++ replicate (Z.to_nat 3) space]>
            Scenario.letters).
Proof.
  apply (deleteCharacters_cells Scenario.letters 0 2 3 Scenario.alphabet space).
  - concrete_range.
  - reflexivity.
  - vm_compute. split; [discriminate | reflexivity].
  - vm_compute. split; discriminate.
Defined.

(** X14 on the rows of the scenarios. *)
Lemma insert_then_delete_characters_witness :
  (let? arr1 := insertEmpties Scenario.letters 0 2 3 space in
   deleteCharacters arr1 0 2 3 space)
  = Some (<[Z.to_nat 0 :=
              take (Z.to_nat (len Scenario.alphabet - 3)) Scenario.alphabet
                ++ replicate (Z.to_nat 3) space]> Scenario.letters).
Proof.
  apply (insert_then_delete_characters Scenario.letters 0 2 3 Scenario.alphabet space).
  - concrete_range.
  - reflexivity.
  - lia.
  - lia.
  - vm_compute. discriminate.
Defined.

(** X15 on the rows of the scenarios. *)
Lemma character_editors_keep_the_shape_witness :
  length <$> [take 2 Scenario.alphabet ++ replicate 3 space ++ drop 5 Scenario.alphabet]
  = length <$> Scenario.letters.
Proof.
  apply (character_editors_keep_the_shape Scenario.letters
           [take 2 Scenario.alphabet ++ replicate 3 space ++ drop 5 Scenario.alphabet]
           0 2 3 space).
  left. vm_compute. reflexivity.
Defined.

(** X16 on the rows of the scenarios. *)
Lemma scrollUpN_rows_witness :
  exists s',
    Terminal.scrollUpN 2 (Scenario.terminal Scenario.lines)
    = Some (Terminal.with_Screen (Some s') (Scenario.terminal Scenario.lines))
    /\ Rows.aligned s' = true
    /\ Rows.rest s' = Rows.rest Scenario.lines
    /\ Rows.shifted (Screen.Content Scenario.lines) (Screen.Content s')
         0 (4 - 2) 2 (4 - 2 + 1) 4
         (fun j => Rows.blanked space <$> index (Screen.Content Scenario.lines) j)
    /\ Rows.shifted (Screen.Format Scenario.lines) (Screen.Format s')
         0 (4 - 2) 2 (4 - 2 + 1) 4
         (fun _ => Some (Terminal.blankRegion Scenario.lines))
    /\ Rows.shifted (Screen.Changes Scenario.lines) (Screen.Changes s')
         0 (4 - 2) 2 (4 - 2 + 1) 4 (fun _ => Some 1).
Proof.
  apply (scrollUpN_rows 2 0 4 (Scenario.terminal Scenario.lines) Scenario.lines).
  - reflexivity.
  - reflexivity.
  - concrete_range.
  - reflexivity.
  - lia.
  - vm_compute. reflexivity.
  - lia.
Defined.

(** X17 on the rows of the scenarios. *)
Lemma scrollUpN_faults_witness :
  Terminal.scrollUpN 6 (Scenario.terminal Scenario.lines) = None.
Proof.
  apply (scrollUpN_faults 6 0 4 (Scenario.terminal Scenario.lines) Scenario.lines).
  - reflexivity.
  - concrete_range.
  - concrete_range.
  - reflexivity.
  - lia.
  - vm_compute. discriminate.
  - right. lia.
  - lia.
Defined.

(** X18 on the rows of the scenarios. *)
Lemma single_row_never_scrolls_witness :
  Terminal.scrollUpN 1 (Scenario.terminal Scenario.oneRow)
  = Some (Scenario.terminal Scenario.oneRow)
  /\ Terminal.moveDown Scenario.stay (Scenario.terminal Scenario.oneRow)
     = Some (Scenario.terminal Scenario.oneRow).
Proof.
  apply (single_row_never_scrolls Scenario.stay 1
           (Scenario.terminal Scenario.oneRow) Scenario.oneRow);
    reflexivity.
Defined.

(** X19 on the rows of the scenarios. *)
Lemma insertLines_inside_region_witness :
  exists s',
    Terminal.insertLines Scenario.tallEnough 1 (Scenario.terminal Scenario.insideRegion)
    = Some (Terminal.with_Screen (Some s')
              (Terminal.with_wrap false (Scenario.terminal Scenario.insideRegion)))
    /\ Rows.aligned s' = true
    /\ Rows.rest s' = Rows.rest Scenario.insideRegion
    /\ (let y := Cursor.Y (Screen.Cursor Scenario.insideRegion) in
        Rows.shifted (Screen.Content Scenario.insideRegion) (Screen.Content s')
          (y + 1) 3 (- 1) y (y + 1 - 1)
          (fun j => Rows.blanked space <$> index (Screen.Content Scenario.insideRegion) j)
        /\ Rows.shifted (Screen.Format Scenario.insideRegion) (Screen.Format s')
             (y + 1) 3 (- 1) y (y + 1 - 1)
             (fun _ => Some (Terminal.blankRegion Scenario.insideRegion))
        /\ Rows.shifted (Screen.Changes Scenario.insideRegion) (Screen.Changes s')
             (y + 1) 3 (- 1) y (y + 1 - 1) (fun _ => Some 1)).
Proof.
  apply (insertLines_inside_region Scenario.tallEnough 1 1 3
           (Scenario.terminal Scenario.insideRegion) Scenario.insideRegion).
  - reflexivity.
  - reflexivity.
  - concrete_range.
  - reflexivity.
  - reflexivity.
  - vm_compute. split; discriminate.
  - vm_compute. discriminate.
  - vm_compute. reflexivity.
  - lia.
  - vm_compute. discriminate.
Defined.

(** X20 on the rows of the scenarios. *)
Lemma deleteLines_inside_region_witness :
  exists s',
    Terminal.deleteLines 1 (Scenario.terminal Scenario.insideRegion)
    = Some (Terminal.with_Screen (Some s')
              (Terminal.with_wrap false (Scenario.terminal Scenario.insideRegion)))
    /\ Rows.aligned s' = true
    /\ Rows.rest s' = Rows.rest Scenario.insideRegion
    /\ (let y := Cursor.Y (Screen.Cursor Scenario.insideRegion) in
        Rows.shifted (Screen.Content Scenario.insideRegion) (Screen.Content s')
          y (3 - 1) 1 (3 - 1 + 1) 3
          (fun _ => Rows.blanked space
                      <$> index (Screen.Content Scenario.insideRegion) (y + 1))
        /\ Rows.shifted (Screen.Format Scenario.insideRegion) (Screen.Format s')
             y (3 - 1) 1 (3 - 1 + 1) 3
             (fun _ => Some (Terminal.blankRegion Scenario.insideRegion))
        /\ Rows.shifted (Screen.Changes Scenario.insideRegion) (Screen.Changes s')
             y (3 - 1) 1 (3 - 1 + 1) 3 (fun _ => Some 1)).
Proof.
  apply (deleteLines_inside_region 1 1 3
           (Scenario.terminal Scenario.insideRegion) Scenario.insideRegion).
  - reflexivity.
  - reflexivity.
  - concrete_range.
  - reflexivity.
  - vm_compute. split; discriminate.
  - vm_compute. reflexivity.
  - vm_compute. split; discriminate.
Defined.

(** X22 on the rows of the scenarios. *)
Lemma moveUp_at_the_top_witness :
  exists s',
    Terminal.moveUp Scenario.stay (Scenario.terminal Scenario.atRegionStart)
    = Some (Terminal.with_Screen (Some s')
              (Terminal.with_wrap false (Scenario.terminal Scenario.atRegionStart)))
    /\ Rows.aligned s' = true
    /\ Rows.rest s' = Rows.rest Scenario.atRegionStart
    /\ Rows.shifted (Screen.Content Scenario.atRegionStart) (Screen.Content s')
         (1 + 1) 3 (- 1) 1 1
         (fun j => Rows.blanked space <$> index (Screen.Content Scenario.atRegionStart) j)
    /\ Rows.shifted (Screen.Format Scenario.atRegionStart) (Screen.Format s')
         (1 + 1) 3 (- 1) 1 1
         (fun _ => Some (Terminal.blankRegion Scenario.atRegionStart))
    /\ Rows.shifted (Screen.Changes Scenario.atRegionStart) (Screen.Changes s')
         (1 + 1) 3 (- 1) 1 1 (fun _ => Some 1).
Proof.
  apply (moveUp_at_the_top Scenario.stay 1 3
           (Scenario.terminal Scenario.atRegionStart) Scenario.atRegionStart).
  - reflexivity.
  - reflexivity.
  - concrete_range.
  - reflexivity.
  - lia.
  - vm_compute. reflexivity.
  - right. reflexivity.
Defined.

(** X24 on the rows of the scenarios. *)
Lemma reset_blank_grid_witness :
  Screen.reset Scenario.page
  = Some (Screen.mk 5 10 (replicate 5 (replicate 10 space))
            (replicate 5 (replicate 10 Format.zero))
            (Cursor.mk 0 0 Format.zero 0) Cursor.zero [] 0 0 None).
Proof.
  apply (reset_blank_grid Scenario.page).
  - vm_compute. discriminate.
  - vm_compute. discriminate.
Defined.

(** X26 on the rows of the scenarios. *)
Lemma NewTerminal_blank_witness :
  Terminal.NewTerminal 5 10 = Some (Scenario.terminal
    (Screen.mk 5 10 (replicate 5 (replicate 10 space))
       (replicate 5 (replicate 10 Format.zero))
       Cursor.zero Cursor.zero [] 0 0 None)).
Proof. apply (NewTerminal_blank 5 10); lia. Defined.

(** X27 on the rows of the scenarios. *)
Lemma resize_cells_witness :
  Screen.resize 3 12 Scenario.page
  = Some (Screen.with_Format
            (Screen.fit 12 Format.zero
               <$> Screen.fit 3 (replicate 10 Format.zero) (Screen.Format Scenario.page))
            (Screen.with_Content
               (Screen.fit 12 space
                  <$> Screen.fit 3 (replicate 10 space) (Screen.Content Scenario.page))
               Scenario.page)).
Proof.
  apply (resize_cells 3 12 Scenario.page).
  - reflexivity.
  - concrete_range.
  - concrete_range.
Defined.

(** X28 on the rows of the scenarios. *)
Lemma Resize_both_screens_witness :
  exists v',
    Terminal.Resize 3 12 Scenario.twoScreens = Some v'
    /\ Terminal.AutoResizeX v' = false /\ Terminal.AutoResizeY v' = false
    /\ (exists s', Terminal.Screen v' = Some s'
                   /\ Screen.sized 3 12 s'
                   /\ Screen.frame s' = Screen.frame Scenario.page)
    /\ (exists a', Terminal.Alt v' = Some a'
                   /\ Screen.sized 3 12 a'
                   /\ Screen.frame a' = Screen.frame Scenario.bottom)
    /\ (Terminal.Title v', Terminal.IsAlt v', Terminal.Raw v', Terminal.AppendOnly v',
        Terminal.wrap v', Terminal.onScrollback v', Terminal.scrollback v')
       = (String.EmptyString, false, false, false, false, false, []).
Proof.
  apply (Resize_both_screens 3 12 Scenario.twoScreens Scenario.page).
  - reflexivity.
  - reflexivity.
  - intros a [= <-]. reflexivity.
  - concrete_range.
  - concrete_range.
Defined.

(** X29 on the rows of the scenarios. *)
Lemma eraseRegion_cells_witness :
  exists s',
    Terminal.eraseRegion 1 2 3 (-1) (Scenario.terminal Scenario.page)
    = Some (Terminal.with_Screen (Some s')
              (Terminal.with_wrap false (Scenario.terminal Scenario.page)))
    /\ Screen.frame s' = Screen.frame Scenario.page
    /\ Rows.rewritten (Screen.Content Scenario.page) (Screen.Content s') 1 3
         (Screen.wiped 2 9 space)
    /\ Rows.rewritten (Screen.Format Scenario.page) (Screen.Format s') 1 3
         (Screen.wiped 2 9 Format.zero).
Proof.
  apply (eraseRegion_cells 1 2 3 (-1) (Scenario.terminal Scenario.page) Scenario.page).
  - reflexivity.
  - reflexivity.
  - vm_compute. discriminate.
  - lia.
  - vm_compute. reflexivity.
  - lia.
  - left. lia.
Defined.

(** X30 on the rows of the scenarios. *)
Lemma eraseRegion_reversed_range_witness :
  Terminal.eraseRegion 3 0 0 9 (Scenario.terminal Scenario.page)
  = Some (Terminal.with_wrap false (Scenario.terminal Scenario.page)).
Proof.
  apply (eraseRegion_reversed_range 3 0 0 9 (Scenario.terminal Scenario.page)
           Scenario.page).
  - reflexivity.
  - lia.
Defined.

(** X21 on the rows of the scenarios. *)
Lemma scrollDownN_rows_witness :
  exists s',
    Terminal.scrollDownN 2 (Scenario.terminal Scenario.insideRegion)
    = Some (Terminal.with_Screen (Some s')
              (Terminal.with_wrap false (Scenario.terminal Scenario.insideRegion)))
    /\ Rows.aligned s' = true
    /\ Rows.rest s' = Rows.rest Scenario.insideRegion
    /\ Rows.shifted (Screen.Content Scenario.insideRegion) (Screen.Content s')
         (1 + 2) 3 (- 2) 1 (1 + 2 - 1)
         (fun j => Rows.blanked space <$> index (Screen.Content Scenario.insideRegion) j)
    /\ Rows.shifted (Screen.Format Scenario.insideRegion) (Screen.Format s')
         (1 + 2) 3 (- 2) 1 (1 + 2 - 1)
         (fun _ => Some (Terminal.blankRegion Scenario.insideRegion))
    /\ Rows.shifted (Screen.Changes Scenario.insideRegion) (Screen.Changes s')
         (1 + 2) 3 (- 2) 1 (1 + 2 - 1) (fun _ => Some 1).
Proof.
  apply (scrollDownN_rows 2 1 3
           (Scenario.terminal Scenario.insideRegion) Scenario.insideRegion).
  - reflexivity.
  - reflexivity.
  - concrete_range.
  - reflexivity.
  - lia.
  - vm_compute. reflexivity.
  - lia.
  - vm_compute. discriminate.
Defined.

(** X23 on the rows of the scenarios. *)
Lemma moveDown_at_the_bottom_witness :
  exists s',
    Terminal.moveDown Scenario.stay (Scenario.terminal Scenario.lines)
    = Some (Terminal.with_Screen (Some s') (Scenario.terminal Scenario.lines))
    /\ Rows.aligned s' = true
    /\ Rows.rest s' = Rows.rest Scenario.lines
    /\ Rows.shifted (Screen.Content Scenario.lines) (Screen.Content s')
         0 (4 - 1) 1 4 4
         (fun j => Rows.blanked space <$> index (Screen.Content Scenario.lines) j)
    /\ Rows.shifted (Screen.Format Scenario.lines) (Screen.Format s')
         0 (4 - 1) 1 4 4
         (fun _ => Some (Terminal.blankRegion Scenario.lines))
    /\ Rows.shifted (Screen.Changes Scenario.lines) (Screen.Changes s')
         0 (4 - 1) 1 4 4 (fun _ => Some 1).
Proof.
  apply (moveDown_at_the_bottom Scenario.stay 0 4
           (Scenario.terminal Scenario.lines) Scenario.lines).
  - reflexivity.
  - reflexivity.
  - concrete_range.
  - reflexivity.
  - lia.
  - vm_compute. reflexivity.
  - right. split; reflexivity.
Defined.
